(** * Google Maps search extractor: wire decoder and crawl frontier controller

    A shallow embedding of [src/enqueue_places.js] (the response handler
    [enqueuePlacesFromResponse], the scrolling loop of
    [enqueueAllPlaceDetails], [waitForSearchResults] and
    [extractPlacesFromDOM]) and of [src/place-extractors/general.js]
    ([parseJsonResult], [parseSearchPlacesResponseBody], [extractPopularTimes]
    and the extractors of additional info), followed by the properties of the
    specification that concern them and by further properties of the code.

    Conventions of the embedding:
    - a JavaScript string is a [string]; one character is one code unit below
      256, which covers every character the decoder inspects;
    - a JavaScript number that the code only counts with (counters and
      totals, which start at zero and move by one) is a [Z]; [NaN] is [None]
      in a [jsint]; such integers are exact in JavaScript below 2^53;
    - the rank of a place is computed from the page number of the address of
      a response, which the server chooses: its arithmetic is that of
      doubles, rounding included ([Double]);
    - a value produced by [JSON.parse] is a [json] tree; [JUndefined] is the
      result of reading a missing property;
    - an exception is a value of [exn], threaded through the [result] monad;
    - calls to external collaborators (key-value store, dataset, statistics,
      mouse) are recorded in an effect log. *)

From Stdlib Require Import ZArith QArith String Ascii List Bool Lia DecimalString Sorted.
From stdpp Require Import base option list gmap strings.

Open Scope string_scope.
Open Scope list_scope.
Open Scope stdpp_scope.
Open Scope Z_scope.

(** ** Characters and text helpers *)

Module Text.

(** The double quote, code unit 34. *)
Definition dquote : ascii := ascii_of_nat 34.

(** Line feed, code unit 10. *)
Definition newline : ascii := ascii_of_nat 10.

(** White space as [String.prototype.trim] and the regular expression class
    for white space see it, among the code units below 256: tab, line feed,
    vertical tab, form feed, carriage return, space, no-break space. *)
Definition is_space (c : ascii) : bool :=
  let n := nat_of_ascii c in
  ((9 <=? n) && (n <=? 13) || (n =? 32) || (n =? 160))%nat.

Fixpoint all_space (s : string) : bool :=
  match s with
  | EmptyString => true
  | String c s' => if is_space c then all_space s' else false
  end.

Definition is_empty (s : string) : bool :=
  match s with EmptyString => true | _ => false end.

Fixpoint trimStart (s : string) : string :=
  match s with
  | EmptyString => EmptyString
  | String c s' => if is_space c then trimStart s' else s
  end.

(** Removes the longest white-space suffix. *)
Fixpoint trimEnd (s : string) : string :=
  match s with
  | EmptyString => EmptyString
  | String c s' =>
      let t := trimEnd s' in
      if is_space c && is_empty t then EmptyString else String c t
  end.

(** [String.prototype.trim]. *)
Definition trim (s : string) : string := trimEnd (trimStart s).

(** [String.prototype.startsWith]. *)
Fixpoint startsWith (s p : string) : bool :=
  match p with
  | EmptyString => true
  | String c p' =>
      match s with
      | EmptyString => false
      | String d s' => if Ascii.eqb c d then startsWith s' p' else false
      end
  end.

Fixpoint drop (n : nat) (s : string) : string :=
  match n, s with
  | O, _ => s
  | S n', String _ s' => drop n' s'
  | S _, EmptyString => EmptyString
  end.

(** [String.prototype.endsWith]. *)
Fixpoint endsWith (s p : string) : bool :=
  if String.eqb s p then true
  else match s with
       | EmptyString => false
       | String _ s' => endsWith s' p
       end.

(** [s.substring(0, s.length - n)] for [n <= s.length]. *)
Definition dropEnd (n : nat) (s : string) : string :=
  String.substring 0 (String.length s - n) s.

(** The inert comment appended to some responses: slash, star, two double
    quotes, star, slash. *)
Definition commentMarker : string :=
  String "/" (String "*" (String dquote (String dquote (String "*" (String "/" EmptyString))))).

(** The anti-hijacking guard: close paren, close bracket, close brace,
    apostrophe. *)
Definition xssiGuard : string := ")]}'".

(** [s.replace(re, '')] for the regular expression that matches
    [commentMarker] followed by white space up to the end of the text: the
    leftmost position from which the rest of the text has that shape is cut. *)
Fixpoint stripTrailingComment (s : string) : string :=
  if (if startsWith s commentMarker then all_space (drop 6 s) else false)
  then EmptyString
  else match s with
       | EmptyString => EmptyString
       | String c s' => String c (stripTrailingComment s')
       end.

(** [s.replace(re, '')] for the regular expression anchored at the start that
    matches [xssiGuard] followed by any white space. *)
Definition stripLeadingGuard (s : string) : string :=
  if startsWith s xssiGuard then trimStart (drop 4 s) else s.

(** A text without white space and without a slash. *)
Fixpoint plain (p : string) : bool :=
  match p with
  | EmptyString => true
  | String c p' => negb (is_space c) && negb (Ascii.eqb "/" c) && plain p'
  end.

End Text.

(** ** JSON values *)

(** A number literal [mant * 10^exp10]. The decoder never computes with the
    numbers of a payload: it tests them for truthiness and identity only and
    hands coordinates to [fixFloatNumber]. A literal is kept exact; the
    rounding of a literal that a double cannot hold is not modelled. *)
#[local] Unset Elimination Schemes.
Inductive json : Type :=
| JUndefined
| JNull
| JBool (b : bool)
| JNum (mant exp10 : Z)
| JString (s : string)
| JArray (items : list json)
| JObject (fields : list (string * json)).
#[local] Set Elimination Schemes.

(** Exceptions the decoder can meet. The message text of an engine error is
    not modelled beyond what raised it. *)
Inductive exn : Type :=
| SyntaxError (message : string)
| TypeError (message : string)
| Error (message : string).

(** A computation that returns or throws. *)
Definition result (A : Type) : Type := exn + A.

Definition ret {A} (a : A) : result A := inr a.
Definition throw {A} (e : exn) : result A := inl e.
Definition bind {A B} (m : result A) (k : A -> result B) : result B :=
  match m with
  | inl e => inl e
  | inr a => k a
  end.

Module Js.

(** ToBoolean. *)
Definition truthy (v : json) : bool :=
  match v with
  | JUndefined | JNull => false
  | JBool b => b
  | JNum m _ => negb (m =? 0)
  | JString s => negb (Text.is_empty s)
  | JArray _ | JObject _ => true
  end.

Definition nullish (v : json) : bool :=
  match v with
  | JUndefined | JNull => true
  | _ => false
  end.

(** [Array.isArray]. *)
Definition isArray (v : json) : bool :=
  match v with JArray _ => true | _ => false end.

(** An own property of an object built by [JSON.parse]: with a repeated key
    the last one wins. *)
Fixpoint lookupField (k : string) (fields : list (string * json)) : json :=
  match fields with
  | [] => JUndefined
  | (k', v) :: rest =>
      match lookupField k rest with
      | JUndefined => if String.eqb k k' then v else JUndefined
      | later => later
      end
  end.

(** The canonical decimal name of an array index, as used for a property key. *)
Definition indexKey (i : nat) : string := NilZero.string_of_uint (Nat.to_uint i).

(** [v[i]] for a [v] that is neither [null] nor [undefined]. *)
Definition idx (v : json) (i : nat) : json :=
  match v with
  | JArray items => nth i items JUndefined
  | JString s =>
      match String.get i s with
      | Some c => JString (String c EmptyString)
      | None => JUndefined
      end
  | JObject fields => lookupField (indexKey i) fields
  | _ => JUndefined
  end.

(** [v[i]]: reading a property of [null] or [undefined] throws. *)
Definition get (v : json) (i : nat) : result json :=
  if nullish v then throw (TypeError "Cannot read properties of null or undefined")
  else ret (idx v i).

(** [v?.[i]]. *)
Definition optGet (v : json) (i : nat) : json :=
  if nullish v then JUndefined else idx v i.

(** [v.name] for a name that is no array index and no built-in property. *)
Definition field (v : json) (name : string) : result json :=
  if nullish v then throw (TypeError "Cannot read properties of null or undefined")
  else ret (match v with
            | JObject fields => lookupField name fields
            | _ => JUndefined
            end).

(** [v.length] of an array. *)
Definition arrayLength (v : json) : nat :=
  match v with JArray items => length items | _ => 0%nat end.

End Js.

(** ** The wire decoder: [place-extractors/general.js] *)

(** What the decoder takes from its environment. [JSON_parse] is the built-in
    parser: the parsed tree, or the [SyntaxError] it throws. [fixFloatNumber]
    (utils/misc-utils.js, not among the sources) normalises one coordinate
    value and is a parameter; it is a total function, as step 7 of the
    decoder in the specification asks of every field read: a missing or null
    entry gives a null sub-field and does not fail the candidate. *)
Class Runtime := {
  JSON_parse : string -> result json;
  fixFloatNumber : json -> json;
}.

Record Coords := { lat : json; lng : json }.

Record AddressParsed := {
  neighborhood : json;
  street : json;
  city : json;
  postalCode : json;
  state : json;
  countryCode : json;
}.

Record PlacePaginationData := {
  placeId : json;
  coords : Coords;
  addressParsed : AddressParsed;
  isAdvertisement : bool;
  website : json;
  categories : json;
}.

(** The [error] strings of the decoder, by the template that builds them. *)
Inductive ParseError : Type :=
| ResponseBodyIsEmpty
| ResponseBodyIsHtml
| NotValidJson (e2 : exn)
| FailedToParseWrapped (e e2 : exn)
| FailedParsingJsonResponse (e : exn).

Record ParseOutput := {
  placesPaginationData : list PlacePaginationData;
  error : option ParseError;
}.

(** The identity of a place id in the [Set] of seen ids (SameValueZero): a
    primitive by its value, an array or object by the node it is, which for a
    tree built by [JSON.parse] is its path from the root of the payload. *)
Inductive IdKey : Type :=
| KeyPrim (v : json)
| KeyRef (path : list nat).

(** The value of a number literal, and equality of two literals by value. *)
Definition numQ (m e : Z) : Q := Qmult (inject_Z m) (Qpower (inject_Z 10) e).

Definition num_eqb (m1 e1 m2 e2 : Z) : bool := Qeq_bool (numQ m1 e1) (numQ m2 e2).

Definition prim_eqb (a b : json) : bool :=
  match a, b with
  | JUndefined, JUndefined | JNull, JNull => true
  | JBool x, JBool y => Bool.eqb x y
  | JNum m1 e1, JNum m2 e2 => num_eqb m1 e1 m2 e2
  | JString x, JString y => String.eqb x y
  | _, _ => false
  end.

Definition key_eqb (a b : IdKey) : bool :=
  match a, b with
  | KeyPrim x, KeyPrim y => prim_eqb x y
  | KeyRef p, KeyRef q => bool_decide (p = q)
  | _, _ => false
  end.

(** The key of the id [id] read at index 78 of the candidate at [path]. *)
Definition idKeyOf (path : list nat) (id : json) : IdKey :=
  match id with
  | JArray _ | JObject _ => KeyRef (path ++ [78%nat])
  | _ => KeyPrim id
  end.

(** [seenPlaceIds.has(k)]. *)
Definition setHas (seen : list IdKey) (k : IdKey) : bool :=
  existsb (key_eqb k) seen.

Section Decoder.
Context `{Runtime}.

(** Modelled from the spec: [unstringifyGoogleXrhResponse]
    (utils/misc-utils.js) is not among the sources; step 4 of the decoder
    describes it as guard-strip and parse of the string-encoded sub-document.
    Applied to a value that is no string it throws, as the caller's test of
    the type in its recovery path expects. *)
Definition unstringifyGoogleXrhResponse (v : json) : result json :=
  match v with
  | JString s =>
      JSON_parse (if Text.startsWith s Text.xssiGuard then Text.drop 4 s else s)
  | _ => throw (TypeError "googleResponseString.replace is not a function")
  end.

Definition parseJsonResult (placeData : json) (isAdvertisement : bool)
  : option PlacePaginationData :=
  if negb (Js.truthy placeData) then None
  else
    let categories := Js.idx placeData 13 in
    let addressDetail := Js.optGet (Js.idx placeData 183) 1 in
    let addressParsed :=
      {| neighborhood := Js.optGet addressDetail 1;
         street := Js.optGet addressDetail 2;
         city := Js.optGet addressDetail 3;
         postalCode := Js.optGet addressDetail 4;
         state := Js.optGet addressDetail 5;
         countryCode := Js.optGet addressDetail 6 |} in
    let coordsArr := Js.idx placeData 9 in
    let coords :=
      if Js.truthy coordsArr
      then {| lat := fixFloatNumber (Js.idx coordsArr 2);
              lng := fixFloatNumber (Js.idx coordsArr 3) |}
      else {| lat := JNull; lng := JNull |} in
    let site := Js.optGet (Js.idx placeData 7) 0 in
    Some {| placeId := Js.idx placeData 78;
            coords := coords;
            addressParsed := addressParsed;
            isAdvertisement := isAdvertisement;
            website := if Js.truthy site then site else JNull;
            categories := categories |}.

Definition cleanGoogleResponse (text : string) : string :=
  let cleaned := Text.trim text in
  let cleaned := Text.stripTrailingComment cleaned in
  Text.stripLeadingGuard cleaned.

Definition looksLikeHtml (jsonString : string) : bool :=
  Text.startsWith jsonString "<!DOCTYPE"
  || Text.startsWith jsonString "<html"
  || Text.startsWith jsonString "<HTML".

(** The first stage: clean, classify, parse with two retries. *)
Definition parseStage (responseBodyText : string) : ParseError + json :=
  let jsonString := cleanGoogleResponse responseBodyText in
  if Text.is_empty jsonString then inl ResponseBodyIsEmpty
  else if looksLikeHtml jsonString then inl ResponseBodyIsHtml
  else
    match JSON_parse jsonString with
    | inr jsonObject => inr jsonObject
    | inl _ =>
        let jsonString := cleanGoogleResponse jsonString in
        match JSON_parse jsonString with
        | inr jsonObject => inr jsonObject
        | inl e2 =>
            match unstringifyGoogleXrhResponse (JString jsonString) with
            | inr data =>
                inr (JObject [("d", JString jsonString); ("_directData", data)])
            | inl _ => inl (NotValidJson e2)
            end
        end
    end.

(** The recovery path for a wrapper field that did not unstringify. *)
Definition manualParse (d : json) : result json :=
  match d with
  | JString s =>
      let cleaned := Text.trim (Text.stripLeadingGuard s) in
      let cleaned :=
        if Text.endsWith cleaned Text.commentMarker
        then Text.dropEnd 6 cleaned else cleaned in
      JSON_parse cleaned
  | _ => throw (Error "jsonObject.d is not a string")
  end.

(** Locating the payload: the outer [result] is an exception thrown to the
    enclosing [try], the inner sum the early return with an error. *)
Definition locatePayload (jsonObject : json) : result (ParseError + json) :=
  bind (Js.field jsonObject "d") (fun d =>
  if Js.truthy d then
    match unstringifyGoogleXrhResponse d with
    | inr data => ret (inr data)
    | inl e =>
        match manualParse d with
        | inr data => ret (inr data)
        | inl e2 => ret (inl (FailedToParseWrapped e e2))
        end
    end
  else ret (inr jsonObject)).

(** [(data[2] && data[2][1] && data[2][1][0]) || []]. *)
Definition adsOf (data : json) : result json :=
  bind (Js.get data 2) (fun a =>
  if Js.truthy a then
    let b := Js.idx a 1 in
    if Js.truthy b then
      let c := Js.idx b 0 in
      if Js.truthy c then ret c else ret (JArray [])
    else ret (JArray [])
  else ret (JArray [])).

(** [ads.forEach]: the records pushed before an exception stay pushed. *)
Fixpoint pushAds (ads : list json) (acc : list PlacePaginationData)
  : list PlacePaginationData * option exn :=
  match ads with
  | [] => (acc, None)
  | ad :: rest =>
      match Js.get ad 15 with
      | inl e => (acc, Some e)
      | inr v =>
          match parseJsonResult v true with
          | Some placeData => pushAds rest (acc ++ [placeData])
          | None => pushAds rest acc
          end
      end
  end.

Definition extractAds (data : json) (acc : list PlacePaginationData)
  : list PlacePaginationData * option exn :=
  match adsOf data with
  | inl e => (acc, Some e)
  | inr (JArray ads) => pushAds ads acc
  | inr _ => (acc, Some (TypeError "ads.forEach is not a function"))
  end.

Definition isPlaceDataCandidate (candidate : json) : bool :=
  Js.isArray candidate
  && Js.isArray (Js.idx candidate 9)
  && (2 <=? Js.arrayLength (Js.idx candidate 9))%nat
  && (50 <? Js.arrayLength candidate)%nat.

(** The bounded structural search, in document order; each candidate comes
    with its path from the root. *)
Fixpoint collectPlacesRecursively (node : json) (depth maxDepth : nat)
  (path : list nat) {struct node} : list (list nat * json) :=
  if (maxDepth <? depth)%nat || negb (Js.isArray node) then []
  else if isPlaceDataCandidate node then [(path, node)]
  else
    (if (2 <=? Js.arrayLength node)%nat
        && match Js.idx node 0 with JNull => true | _ => false end
        && isPlaceDataCandidate (Js.idx node 1)
     then [(path ++ [1%nat], Js.idx node 1)] else [])
    ++ match node with
       | JArray items =>
           (fix children (l : list json) (i : nat) : list (list nat * json) :=
              match l with
              | [] => []
              | child :: l' =>
                  collectPlacesRecursively child (S depth) maxDepth (path ++ [i])
                  ++ children l' (S i)
              end) items 0%nat
       | _ => []
       end.

(** [foundPlaceArrays.forEach]: a candidate with a truthy id is pushed unless
    its id was seen; one without is counted as skipped. *)
Fixpoint pushOrganic (found : list (list nat * json)) (seenPlaceIds : list IdKey)
  (acc : list PlacePaginationData) : list PlacePaginationData :=
  match found with
  | [] => acc
  | (path, result) :: rest =>
      match parseJsonResult result false with
      | Some placeData =>
          if Js.truthy (placeId placeData) then
            let k := idKeyOf path (placeId placeData) in
            if setHas seenPlaceIds k then pushOrganic rest seenPlaceIds acc
            else pushOrganic rest (k :: seenPlaceIds) (acc ++ [placeData])
          else pushOrganic rest seenPlaceIds acc
      | None => pushOrganic rest seenPlaceIds acc
      end
  end.

Definition failedParsing (acc : list PlacePaginationData) (e : exn) : ParseOutput :=
  {| placesPaginationData := acc; error := Some (FailedParsingJsonResponse e) |}.

(** The body of the [try] block for a detail preview response. *)
Definition decodeDetailPreview (jsonObject : json) : ParseOutput :=
  match Js.get jsonObject 6 with
  | inl e => failedParsing [] e
  | inr v =>
      match parseJsonResult v false with
      | Some placeData => {| placesPaginationData := [placeData]; error := None |}
      | None => {| placesPaginationData := []; error := None |}
      end
  end.

(** The body of the [try] block for a search response. *)
Definition decodeSearchPage (jsonObject : json) : ParseOutput :=
  match locatePayload jsonObject with
  | inl e => failedParsing [] e
  | inr (inl err) => {| placesPaginationData := []; error := Some err |}
  | inr (inr data) =>
      match extractAds data [] with
      | (acc, Some e) => failedParsing acc e
      | (acc, None) =>
          let foundPlaceArrays := collectPlacesRecursively data 0 6 [] in
          if (length foundPlaceArrays =? 0)%nat
          then {| placesPaginationData := acc; error := None |}
          else {| placesPaginationData := pushOrganic foundPlaceArrays [] acc;
                  error := None |}
      end
  end.

Definition parseSearchPlacesResponseBody (responseBodyText : string)
  (isAllPacesNoSearch : bool) : ParseOutput :=
  match parseStage responseBodyText with
  | inl err => {| placesPaginationData := []; error := Some err |}
  | inr jsonObject =>
      if isAllPacesNoSearch then decodeDetailPreview jsonObject
      else decodeSearchPage jsonObject
  end.

End Decoder.

(** ** A reference JSON parser

    The theorems below hold for any [JSON_parse]. To evaluate the decoder on
    concrete response bodies, this is a parser of the JSON grammar restricted
    to code units below 256 (a [\u] escape above that is rejected). *)

Module RefParser.

Definition isJsonSpace (c : ascii) : bool :=
  let n := nat_of_ascii c in
  ((n =? 32) || (n =? 9) || (n =? 10) || (n =? 13))%nat.

Fixpoint skipWs (s : string) : string :=
  match s with
  | String c s' => if isJsonSpace c then skipWs s' else s
  | EmptyString => EmptyString
  end.

Definition digitOf (c : ascii) : option Z :=
  let n := nat_of_ascii c in
  if ((48 <=? n) && (n <=? 57))%nat then Some (Z.of_nat n - 48) else None.

Definition hexOf (c : ascii) : option nat :=
  let n := nat_of_ascii c in
  if ((48 <=? n) && (n <=? 57))%nat then Some (n - 48)%nat
  else if ((97 <=? n) && (n <=? 102))%nat then Some (n - 87)%nat
  else if ((65 <=? n) && (n <=? 70))%nat then Some (n - 55)%nat
  else None.

(** Reads digits: the value accumulated, how many were read, the rest. *)
Fixpoint digits (s : string) (acc : Z) (count : Z) : Z * Z * string :=
  match s with
  | String c s' =>
      match digitOf c with
      | Some d => digits s' (acc * 10 + d) (count + 1)
      | None => (acc, count, s)
      end
  | EmptyString => (acc, count, s)
  end.

Definition exponentPart (s : string) : option (Z * string) :=
  match s with
  | String c s' =>
      if Ascii.eqb c "e" || Ascii.eqb c "E" then
        let '(negative, s2) :=
          match s' with
          | String sg s'' =>
              if Ascii.eqb sg "-" then (true, s'')
              else if Ascii.eqb sg "+" then (false, s'') else (false, s')
          | EmptyString => (false, s')
          end in
        let '(e, n, rest) := digits s2 0 0 in
        if n =? 0 then None else Some (if negative then - e else e, rest)
      else Some (0, s)
  | EmptyString => Some (0, s)
  end.

(** A number: optional minus, integer part without a leading zero, optional
    fraction, optional exponent. *)
Definition number (s : string) : option (json * string) :=
  let '(negative, s1) :=
    match s with
    | String c s' => if Ascii.eqb c "-" then (true, s') else (false, s)
    | EmptyString => (false, s)
    end in
  let '(i, ni, s2) :=
    match s1 with
    | String c s' => if Ascii.eqb c "0" then (0, 1, s') else digits s1 0 0
    | EmptyString => (0, 0, s1)
    end in
  if ni =? 0 then None
  else
    let fraction :=
      match s2 with
      | String c s' =>
          if Ascii.eqb c "." then
            let '(m, nf, s3) := digits s' i 0 in
            if nf =? 0 then None else Some (m, nf, s3)
          else Some (i, 0, s2)
      | EmptyString => Some (i, 0, s2)
      end in
    match fraction with
    | None => None
    | Some (m, nf, s3) =>
        match exponentPart s3 with
        | None => None
        | Some (e, rest) => Some (JNum (if negative then - m else m) (e - nf), rest)
        end
    end.

(** The characters of a string literal after its opening quote. *)
Fixpoint stringBody (s : string) : option (string * string) :=
  match s with
  | EmptyString => None
  | String c s' =>
      if Ascii.eqb c Text.dquote then Some (EmptyString, s')
      else if Ascii.eqb c "\" then
        match s' with
        | String e s'' =>
            let plain (x : ascii) :=
              match stringBody s'' with
              | Some (t, rest) => Some (String x t, rest)
              | None => None
              end in
            if Ascii.eqb e Text.dquote then plain Text.dquote
            else if Ascii.eqb e "\" then plain "\"%char
            else if Ascii.eqb e "/" then plain "/"%char
            else if Ascii.eqb e "b" then plain (ascii_of_nat 8)
            else if Ascii.eqb e "f" then plain (ascii_of_nat 12)
            else if Ascii.eqb e "n" then plain (ascii_of_nat 10)
            else if Ascii.eqb e "r" then plain (ascii_of_nat 13)
            else if Ascii.eqb e "t" then plain (ascii_of_nat 9)
            else if Ascii.eqb e "u" then
              match s'' with
              | String h1 (String h2 (String h3 (String h4 s5))) =>
                  match hexOf h1, hexOf h2, hexOf h3, hexOf h4 with
                  | Some a, Some b, Some c', Some d =>
                      let code := (((a * 16 + b) * 16 + c') * 16 + d)%nat in
                      if (code <? 256)%nat then
                        match stringBody s5 with
                        | Some (t, rest) => Some (String (ascii_of_nat code) t, rest)
                        | None => None
                        end
                      else None
                  | _, _, _, _ => None
                  end
              | _ => None
              end
            else None
        | EmptyString => None
        end
      else if (nat_of_ascii c <? 32)%nat then None
      else
        match stringBody s' with
        | Some (t, rest) => Some (String c t, rest)
        | None => None
        end
  end.

Definition literal (word : string) (v : json) (s : string) : option (json * string) :=
  if Text.startsWith s word then Some (v, Text.drop (String.length word) s) else None.

Fixpoint value (fuel : nat) (s : string) {struct fuel} : option (json * string) :=
  match fuel with
  | O => None
  | S fuel' =>
      match skipWs s with
      | EmptyString => None
      | String c rest as s0 =>
          if Ascii.eqb c "[" then
            match skipWs rest with
            | String c2 rest2 =>
                if Ascii.eqb c2 "]" then Some (JArray [], rest2)
                else
                  match elements fuel' rest with
                  | Some (items, rest3) => Some (JArray items, rest3)
                  | None => None
                  end
            | EmptyString => None
            end
          else if Ascii.eqb c "{" then
            match skipWs rest with
            | String c2 rest2 =>
                if Ascii.eqb c2 "}" then Some (JObject [], rest2)
                else
                  match members fuel' rest with
                  | Some (fields, rest3) => Some (JObject fields, rest3)
                  | None => None
                  end
            | EmptyString => None
            end
          else if Ascii.eqb c Text.dquote then
            match stringBody rest with
            | Some (t, rest2) => Some (JString t, rest2)
            | None => None
            end
          else if Ascii.eqb c "t" then literal "true" (JBool true) s0
          else if Ascii.eqb c "f" then literal "false" (JBool false) s0
          else if Ascii.eqb c "n" then literal "null" JNull s0
          else number s0
      end
  end
with elements (fuel : nat) (s : string) {struct fuel} : option (list json * string) :=
  match fuel with
  | O => None
  | S fuel' =>
      match value fuel' s with
      | Some (v, rest) =>
          match skipWs rest with
          | String c rest2 =>
              if Ascii.eqb c "]" then Some ([v], rest2)
              else if Ascii.eqb c "," then
                match elements fuel' rest2 with
                | Some (vs, rest3) => Some (v :: vs, rest3)
                | None => None
                end
              else None
          | EmptyString => None
          end
      | None => None
      end
  end
with members (fuel : nat) (s : string) {struct fuel}
  : option (list (string * json) * string) :=
  match fuel with
  | O => None
  | S fuel' =>
      match skipWs s with
      | String q afterQuote =>
          if Ascii.eqb q Text.dquote then
            match stringBody afterQuote with
            | Some (k, rest) =>
                match skipWs rest with
                | String colon rest1 =>
                    if Ascii.eqb colon ":" then
                      match value fuel' rest1 with
                      | Some (v, rest2) =>
                          match skipWs rest2 with
                          | String c rest3 =>
                              if Ascii.eqb c "}" then Some ([(k, v)], rest3)
                              else if Ascii.eqb c "," then
                                match members fuel' rest3 with
                                | Some (kvs, rest4) => Some ((k, v) :: kvs, rest4)
                                | None => None
                                end
                              else None
                          | EmptyString => None
                          end
                      | None => None
                      end
                    else None
                | EmptyString => None
                end
            | None => None
            end
          else None
      | EmptyString => None
      end
  end.

Definition parse (s : string) : result json :=
  match value (2 * String.length s + 2) s with
  | Some (v, rest) =>
      if Text.is_empty (skipWs rest) then ret v
      else throw (SyntaxError "Unexpected non-whitespace character after JSON")
  | None => throw (SyntaxError "Unexpected token or end of JSON input")
  end.

(** Coordinates pass through when they are numbers and are null otherwise. *)
Definition numberOrNull (v : json) : json :=
  match v with
  | JNum _ _ => v
  | _ => JNull
  end.

End RefParser.

#[local] Instance refRuntime : Runtime :=
  {| JSON_parse := RefParser.parse; fixFloatNumber := RefParser.numberOrNull |}.

(** Building response bodies for the examples. *)
Module Sample.

Definition quoted (s : string) : string :=
  String Text.dquote s +:+ String Text.dquote EmptyString.

(** A quoted string as it appears inside another string literal. *)
Definition escapedQuoted (s : string) : string :=
  String "\" (String Text.dquote s) +:+ String "\" (String Text.dquote EmptyString).

Fixpoint commaSep (items : list string) : string :=
  match items with
  | [] => EmptyString
  | [x] => x
  | x :: rest => x +:+ "," +:+ commaSep rest
  end.

Definition arrayText (items : list string) : string := "[" +:+ commaSep items +:+ "]".

(** The text of a place-shaped array of 79 entries: coordinates at index 9,
    the id (already quoted) at index 78, null elsewhere. *)
Definition placeText (quotedId : string) : string :=
  arrayText (repeat "null" 9 ++ ["[null,null,50,14]"] ++ repeat "null" 68 ++ [quotedId]).

(** The text of an advertisement entry: the place at index 15. *)
Definition adText (place : string) : string :=
  arrayText (repeat "null" 15 ++ [place]).



(** A search payload whose only content is an advertisement, the place of
    which is an object with an id and not a place-shaped array. *)
Definition adOnlyBody : string :=
  arrayText ["null"; "null";
             arrayText ["null"; arrayText [arrayText [
               adText ("{" +:+ quoted "78" +:+ ":" +:+ quoted "ad1" +:+ "}")]]]].

(** The wrapper around an inner document given as the text of a string
    literal: an object with the fields c and d, d holding the guard, an
    escaped line feed and the document; followed by the trailing comment. *)
Definition wrap (escapedInner : string) : string :=
  "{" +:+ quoted "c" +:+ ":0," +:+ quoted "d" +:+ ":"
  +:+ quoted (Text.xssiGuard +:+ "\n" +:+ escapedInner) +:+ "}" +:+ Text.commentMarker.

(** An inner document with the guard in front, as a response body. *)
Definition guarded (inner : string) : string :=
  Text.xssiGuard +:+ String Text.newline inner.

(** A search payload with two places, wrapped and on its own. *)
Definition searchInner (q : string -> string) : string :=
  arrayText [placeText (q "id1"); placeText (q "id2")].

(** A detail preview payload: the place at index 6. *)
Definition previewInner (q : string -> string) : string :=
  arrayText (repeat "null" 6 ++ [placeText (q "id1")]).

(** The tree of a text the reference parser accepts. *)
Definition parsed (text : string) : json :=
  match RefParser.parse text with
  | inr v => v
  | inl _ => JUndefined
  end.

(** A search payload of five places. *)
Definition fivePlaces : string :=
  arrayText (map (fun id => placeText (quoted id)) ["a"; "b"; "c"; "d"; "e"]).

End Sample.

(** ** The crawl budget tracker *)

(** A JavaScript number used as an integer; [None] is [NaN], and in a rank
    also an infinity (see [Double]). *)
Definition jsint : Type := option Z.

Definition jsAdd (a b : jsint) : jsint :=
  match a, b with
  | Some x, Some y => Some (x + y)
  | _, _ => None
  end.

Module Tracker.

(** Modelled from the spec: the class [MaxCrawledPlacesTracker]
    (helper-classes/max-crawled-places.js) is not among the sources. Its state
    is the BudgetState of the data model: a count per search key, a global
    count and the two limits, either of which may be unbounded ([None]). The
    fields keep the names under which the response handler reads and writes
    them. A count per search key is a JavaScript number, so that the
    handler's decrement of a missing entry can store [NaN]. *)
Record t := {
  maxCrawledPlaces : option Z;
  maxCrawledPlacesPerSearch : option Z;
  enqueuedTotal : Z;
  enqueuedPerSearch : gmap string jsint;
}.

Definition below (limit : option Z) (count : jsint) : bool :=
  match limit, count with
  | _, None => false
  | None, Some _ => true
  | Some l, Some n => n <? l
  end.

(** The count of a key that was never reserved is zero. *)
Definition countOf (key : string) (tr : t) : jsint :=
  default (Some 0) (enqueuedPerSearch tr !! key).

(** Modelled from the spec: [canReserveMore], the read-only check of
    section 4.4, which the controller calls as [canEnqueueMore]. *)
Definition canEnqueueMore (key : string) (tr : t) : bool :=
  below (maxCrawledPlacesPerSearch tr) (countOf key tr)
  && below (maxCrawledPlaces tr) (Some (enqueuedTotal tr)).

(** Modelled from the spec: [tryReserve] of section 4.4, which the handler
    calls as [setEnqueued]: if both counts are below their limits both are
    incremented and the answer is true, else nothing changes. *)
Definition setEnqueued (key : string) (tr : t) : t * bool :=
  if canEnqueueMore key tr then
    ({| maxCrawledPlaces := maxCrawledPlaces tr;
        maxCrawledPlacesPerSearch := maxCrawledPlacesPerSearch tr;
        enqueuedTotal := enqueuedTotal tr + 1;
        enqueuedPerSearch :=
          <[key := jsAdd (countOf key tr) (Some 1)]> (enqueuedPerSearch tr) |}, true)
  else (tr, false).

(** The two statements of the handler after a duplicate report:
    [enqueuedTotal--] and [enqueuedPerSearch[searchKey]--]. Decrementing a
    missing entry stores [NaN]. *)
Definition decrementEnqueued (key : string) (tr : t) : t :=
  {| maxCrawledPlaces := maxCrawledPlaces tr;
     maxCrawledPlacesPerSearch := maxCrawledPlacesPerSearch tr;
     enqueuedTotal := enqueuedTotal tr - 1;
     enqueuedPerSearch :=
       <[key := jsAdd (default None (enqueuedPerSearch tr !! key)) (Some (-1))]>
         (enqueuedPerSearch tr) |}.

(** The sum of the counts of a map. *)
Definition sumOf (m : gmap string jsint) : jsint :=
  map_fold (fun _ v acc => jsAdd v acc) (Some 0) m.

(** The sum of the counts per search key. *)
Definition sumPerSearch (tr : t) : jsint := sumOf (enqueuedPerSearch tr).

(** The invariant of the BudgetState. *)
Definition consistent (tr : t) : Prop :=
  sumPerSearch tr = Some (enqueuedTotal tr).

Definition unlimited : t :=
  {| maxCrawledPlaces := None; maxCrawledPlacesPerSearch := None;
     enqueuedTotal := 0; enqueuedPerSearch := ∅ |}.

End Tracker.

(** ** Requests, effects and collaborators of the controller *)

Module Req.

(** The address of a place: the template built around a place id, or the
    link found in the page. *)
Inductive Url : Type :=
| PlaceIdUrl (placeId : json)
| PlainUrl (url : string).

Record UserData := {
  searchString : option string;
  rank : jsint;
  searchPageUrl : string;
  coords : option Coords;
  addressParsed : option AddressParsed;
  isAdvertisement : option bool;
  categories : option json;
}.

Record t := {
  url : Url;
  uniqueKey : json;
  userData : UserData;
  forefront : bool;
}.

End Req.

(** Calls to collaborators that return nothing the controller reads. Storage
    keys made of the clock or of a random number are left out. *)
Inductive Effect : Type :=
| SaveRawResponse (body : string)
| AddLocation (placeId : json) (coordinates : Coords) (searchString : option string)
| OutOfPolygon (url : Req.Url) (searchPageUrl : string) (coordinates : Coords)
| AbortRunIfReachedMaxPlaces
| PushData (url : Req.Url)
| AddRequest (request : Req.t) (wasAlreadyPresent : bool)
| SaveScreenshot
| SaveDomPlaces
| SaveErrorSnapshot (responseBody : string)
| MouseMove (x y : Z)
| MouseWheel (deltaY : Z)
| Delay (ms : Z).

(** The collaborators of the controller: the geofence predicate
    (utils/polygon.js), the request queue, the export deduper and the push
    side of the budget tracker, whose sources are not part of the controller.
    [addRequest] answers [wasAlreadyPresent], [testDuplicateAndAdd] answers
    whether the id was a duplicate, as the handler reads it. *)
Class Collaborators := {
  Geolocation : Type;
  checkInPolygon : option Geolocation -> Coords -> bool;
  Queue : Type;
  addRequest : Queue -> Req.t -> Queue * bool;
  Deduper : Type;
  testDuplicateAndAdd : Deduper -> json -> Deduper * bool;
  PushBudget : Type;
  canScrapeMore : PushBudget -> option string -> bool;
  setScraped : PushBudget -> PushBudget;
}.

Module PageStats.

Record Failure := {
  message : ParseError;
  responseStatus : Z;
  responseBody : string;
}.

Record t := {
  error : option Failure;
  isDataPage : bool;
  enqueued : Z;
  pushed : Z;
  totalEnqueued : Z;
  totalPushed : Z;
  found : Z;
  totalFound : Z;
  pageNum : Z;
}.

Definition initial : t :=
  {| error := None; isDataPage := false; enqueued := 0; pushed := 0;
     totalEnqueued := 0; totalPushed := 0; found := 0; totalFound := 0;
     pageNum := 1 |}.

End PageStats.

(** A response as the transport hands it over: which endpoint patterns its
    address matches, its status and body, the integer that its query
    parameter [ech] writes ([None] when [parseInt] finds none and gives
    [NaN]), and the address of the page when it is handled. *)
Record Response := {
  isSearchPage : bool;
  isDetailPreviewPage : bool;
  status : Z;
  body : string;
  pageNumber : jsint;
  pageUrlAtArrival : string;
}.

Record DomPlace := {
  domPlaceId : option string;
  href : string;
  title : string;
}.

(** [responseBody.substring(0, 50000)], what is saved of a raw response. *)
Definition savedPrefix (responseBody : string) : string :=
  String.substring 0 (50 * 1000) responseBody.
Arguments savedPrefix : simpl never.

(** ** Integers in the numbers of the language

    A number is an IEEE 754 double. Every integer of magnitude up to 2^53 is
    a number; a larger integer is one only if 53 significant bits hold it.
    The result of an addition, subtraction or multiplication is the number
    nearest to the exact result, the one with the even significand when two
    are equally near. A result whose magnitude reaches 2^1024 is an infinity,
    which is [None] here as [NaN] is: an operand that is no finite number
    gives a result that is none, and both are written null in the JSON of a
    request. *)
Module Double.

Definition round (z : Z) : jsint :=
  let a := Z.abs z in
  if a <=? 2 ^ 53 then Some z
  else
    let ulp := 2 ^ (Z.log2 a - 52) in
    let q := a / ulp in
    let r := a mod ulp in
    let half := ulp / 2 in
    let q' := if r <? half then q
              else if half <? r then q + 1
              else if Z.even q then q else q + 1 in
    if q' * ulp <? 2 ^ 1024 then Some (Z.sgn z * (q' * ulp)) else None.

(** The number that [parseInt] gives for the decimal integer it reads, of up
    to twenty significant digits. *)
Definition number (a : jsint) : jsint :=
  match a with
  | Some z => round z
  | None => None
  end.

Definition lift (f : Z -> Z -> Z) (a b : jsint) : jsint :=
  match a, b with
  | Some x, Some y => round (f x y)
  | _, _ => None
  end.

Definition add : jsint -> jsint -> jsint := lift Z.add.
Definition sub : jsint -> jsint -> jsint := lift Z.sub.
Definition mul : jsint -> jsint -> jsint := lift Z.mul.

End Double.

(** [((pageNumber - 1) * 20) + (index + 1)], computed in numbers: each of the
    four operations rounds. *)
Definition rankOf (pageNumber : jsint) (index : Z) : jsint :=
  Double.add (Double.mul (Double.sub (Double.number pageNumber) (Some 1)) (Some 20))
             (Double.add (Double.number (Some index)) (Some 1)).

(** ** The response handler: [enqueuePlacesFromResponse] *)

Section Controller.
Context `{Runtime} `{Collaborators}.

(** The options of one search session. *)
Record Options := {
  searchString : option string;
  requestUrl : string;
  exportPlaceUrls : bool;
  geolocation : option Geolocation;
  maxAutomaticZoomOut : option Z;
  startZoom : Z;
  MAX_PLACES_PER_PAGE : Z;
}.

(** The objects shared between the handler and the scrolling loop, with the
    log of effects, oldest first. *)
Record Shared := {
  tracker : Tracker.t;
  pushBudget : PushBudget;
  requestQueue : Queue;
  exportUrlsDeduper : option Deduper;
  effects : list Effect;
}.

Definition withTracker (tr : Tracker.t) (s : Shared) : Shared :=
  {| tracker := tr; pushBudget := pushBudget s; requestQueue := requestQueue s;
     exportUrlsDeduper := exportUrlsDeduper s; effects := effects s |}.

Definition withPushBudget (b : PushBudget) (s : Shared) : Shared :=
  {| tracker := tracker s; pushBudget := b; requestQueue := requestQueue s;
     exportUrlsDeduper := exportUrlsDeduper s; effects := effects s |}.

Definition withQueue (q : Queue) (s : Shared) : Shared :=
  {| tracker := tracker s; pushBudget := pushBudget s; requestQueue := q;
     exportUrlsDeduper := exportUrlsDeduper s; effects := effects s |}.

Definition withDeduper (d : option Deduper) (s : Shared) : Shared :=
  {| tracker := tracker s; pushBudget := pushBudget s; requestQueue := requestQueue s;
     exportUrlsDeduper := d; effects := effects s |}.

Definition emit (e : Effect) (s : Shared) : Shared :=
  {| tracker := tracker s; pushBudget := pushBudget s; requestQueue := requestQueue s;
     exportUrlsDeduper := exportUrlsDeduper s; effects := effects s ++ [e] |}.

(** [searchString || request.url]. *)
Definition searchKeyOf (o : Options) : string :=
  match searchString o with
  | Some s => if Text.is_empty s then requestUrl o else s
  | None => requestUrl o
  end.

(** The local variables of the handler's loop over the decoded places. *)
Record Progress := {
  shared : Shared;
  enqueuedNow : Z;
  pushedNow : Z;
}.

Inductive Flow : Type := Next | Break.

(** The request the handler submits for a decoded place. *)
Definition placeRequest (o : Options) (rank : jsint) (searchPageUrl : string)
  (p : PlacePaginationData) : Req.t :=
  {| Req.url := Req.PlaceIdUrl (placeId p);
     Req.uniqueKey := placeId p;
     Req.userData :=
       {| Req.searchString := searchString o;
          Req.rank := rank;
          Req.searchPageUrl := searchPageUrl;
          Req.coords := Some (coords p);
          Req.addressParsed := Some (addressParsed p);
          Req.isAdvertisement := Some (isAdvertisement p);
          Req.categories := Some (categories p) |};
     Req.forefront := true |}.

(** One turn of the handler's loop, for the place at position [index]. The
    coordinates of a decoded place are an object, hence truthy, so the cache
    is not consulted for them. *)
Definition handlePlace (o : Options) (pageNumber : jsint) (searchPageUrl : string)
  (index : Z) (p : PlacePaginationData) (g : Progress) : Progress * Flow :=
  let rank := rankOf pageNumber index in
  let coordinates := coords p in
  let placeUrl := Req.PlaceIdUrl (placeId p) in
  let s := emit (AddLocation (placeId p) coordinates (searchString o)) (shared g) in
  if negb (checkInPolygon (geolocation o) coordinates) then
    ({| shared := emit (OutOfPolygon placeUrl searchPageUrl coordinates) s;
        enqueuedNow := enqueuedNow g; pushedNow := pushedNow g |}, Next)
  else if exportPlaceUrls o then
    if negb (canScrapeMore (pushBudget s) None) then
      ({| shared := emit AbortRunIfReachedMaxPlaces s;
          enqueuedNow := enqueuedNow g; pushedNow := pushedNow g |}, Break)
    else if negb (canScrapeMore (pushBudget s) (searchString o)) then
      ({| shared := s; enqueuedNow := enqueuedNow g; pushedNow := pushedNow g |}, Break)
    else
      let '(s1, wasAlreadyPushed) :=
        match exportUrlsDeduper s with
        | Some d =>
            let '(d', dup) := testDuplicateAndAdd d (placeId p) in
            (withDeduper (Some d') s, dup)
        | None => (s, false)
        end in
      let '(s2, pushed) :=
        if negb wasAlreadyPushed
        then (emit (PushData placeUrl) (withPushBudget (setScraped (pushBudget s1)) s1),
              pushedNow g + 1)
        else (s1, pushedNow g) in
      if negb (canScrapeMore (pushBudget s2) None) then
        ({| shared := emit AbortRunIfReachedMaxPlaces s2;
            enqueuedNow := enqueuedNow g; pushedNow := pushed |}, Break)
      else ({| shared := s2; enqueuedNow := enqueuedNow g; pushedNow := pushed |}, Next)
  else
    let searchKey := searchKeyOf o in
    let '(tr, reserved) := Tracker.setEnqueued searchKey (tracker s) in
    if negb reserved then
      ({| shared := s; enqueuedNow := enqueuedNow g; pushedNow := pushedNow g |}, Break)
    else
      let s1 := withTracker tr s in
      let request := placeRequest o rank searchPageUrl p in
      let '(q, wasAlreadyPresent) := addRequest (requestQueue s1) request in
      let s2 := emit (AddRequest request wasAlreadyPresent) (withQueue q s1) in
      if negb wasAlreadyPresent then
        ({| shared := s2; enqueuedNow := enqueuedNow g + 1; pushedNow := pushedNow g |}, Next)
      else
        ({| shared := withTracker (Tracker.decrementEnqueued searchKey (tracker s2)) s2;
            enqueuedNow := enqueuedNow g; pushedNow := pushedNow g |}, Next).

(** The loop over the decoded places; [index] is the value of the variable
    before the turn increments it. *)
Fixpoint handlePlaces (o : Options) (pageNumber : jsint) (searchPageUrl : string)
  (index : Z) (places : list PlacePaginationData) (g : Progress) : Progress :=
  match places with
  | [] => g
  | p :: rest =>
      let index := index + 1 in
      match handlePlace o pageNumber searchPageUrl index p g with
      | (g', Next) => handlePlaces o pageNumber searchPageUrl index rest g'
      | (g', Break) => g'
      end
  end.

(** The handler applied to one response. No collaborator throws in this
    model, so the handler's own [catch] is never entered. *)
Definition responseHandler (o : Options) (response : Response)
  (st : PageStats.t * Shared) : PageStats.t * Shared :=
  let '(ps, s) := st in
  if negb (isSearchPage response) && negb (isDetailPreviewPage response) then st
  else
    let s := emit (SaveRawResponse (savedPrefix (body response))) s in
    let parsed := parseSearchPlacesResponseBody (body response) (isDetailPreviewPage response) in
    let failure :=
      match error parsed with
      | Some err =>
          Some {| PageStats.message := err;
                  PageStats.responseStatus := status response;
                  PageStats.responseBody := body response |}
      | None => PageStats.error ps
      end in
    let g := handlePlaces o (pageNumber response) (pageUrlAtArrival response) (-1)
               (placesPaginationData parsed)
               {| shared := s; enqueuedNow := 0; pushedNow := 0 |} in
    let found := Z.of_nat (length (placesPaginationData parsed)) in
    ({| PageStats.error := failure;
        PageStats.isDataPage := true;
        PageStats.enqueued := enqueuedNow g;
        PageStats.pushed := pushedNow g;
        PageStats.totalEnqueued := PageStats.totalEnqueued ps + enqueuedNow g;
        PageStats.totalPushed := PageStats.totalPushed ps + pushedNow g;
        PageStats.found := found;
        PageStats.totalFound := PageStats.totalFound ps + found;
        PageStats.pageNum := PageStats.pageNum ps |}, shared g).

(** The responses that arrive while the loop waits, handled one at a time. *)
Definition handleResponses (o : Options) (responses : list Response)
  (st : PageStats.t * Shared) : PageStats.t * Shared :=
  fold_left (fun acc r => responseHandler o r acc) responses st.

(** ** The scrolling loop of [enqueueAllPlaceDetails] *)

(** What the page and the transport supply during one turn of the loop: the
    responses handled since the previous turn, what [extractPlacesFromDOM]
    finds, the responses handled while the end of the list is probed, the
    result of that probe, the zoom and address of the page, and
    [Math.ceil(1000 * Math.random())]. *)
Record Tick := {
  arrivedBefore : list Response;
  domPlaces : list DomPlace;
  arrivedWhileProbing : list Response;
  noMoreResults : bool;
  actualZoom : Z;
  pageUrl : string;
  jitter : Z;
}.

Record Session := {
  pageStats : PageStats.t;
  world : Shared;
  numberOfEmptyScrolls : Z;
  lastNumberOfResultsLoadedTotally : Z;
  useDOMFallback : bool;
}.

(** How the loop ends: the seven returns and the throw of the stop checks, in
    the order of the source, and the return of the DOM fallback. The text
    thrown is built from the message of the pending error. *)
Inductive Outcome : Type :=
| DomFallbackEnqueued
| ReachedAllResults
| ScrollingYieldsNoMore
| RetryPage (message : ParseError)
| CannotEnqueueMore
| ZoomedOutTooFar
| FoundMaximum
| OnlyKnownPlaces.

Definition withPageNum (n : Z) (ps : PageStats.t) : PageStats.t :=
  {| PageStats.error := PageStats.error ps;
     PageStats.isDataPage := PageStats.isDataPage ps;
     PageStats.enqueued := PageStats.enqueued ps;
     PageStats.pushed := PageStats.pushed ps;
     PageStats.totalEnqueued := PageStats.totalEnqueued ps;
     PageStats.totalPushed := PageStats.totalPushed ps;
     PageStats.found := PageStats.found ps;
     PageStats.totalFound := PageStats.totalFound ps;
     PageStats.pageNum := n |}.

Definition countEnqueued (ps : PageStats.t) : PageStats.t :=
  {| PageStats.error := PageStats.error ps;
     PageStats.isDataPage := PageStats.isDataPage ps;
     PageStats.enqueued := PageStats.enqueued ps + 1;
     PageStats.pushed := PageStats.pushed ps;
     PageStats.totalEnqueued := PageStats.totalEnqueued ps + 1;
     PageStats.totalPushed := PageStats.totalPushed ps;
     PageStats.found := PageStats.found ps;
     PageStats.totalFound := PageStats.totalFound ps;
     PageStats.pageNum := PageStats.pageNum ps |}.

(** The address the fallback enqueues for a link of the page. *)
Definition domPlaceUrl (d : DomPlace) : string :=
  if Text.startsWith (href d) "http" then href d
  else "https://www.google.com" +:+ href d.

(** [domPlace.placeId || placeUrl]. *)
Definition domUniqueKey (d : DomPlace) : string :=
  match domPlaceId d with
  | Some id => if Text.is_empty id then domPlaceUrl d else id
  | None => domPlaceUrl d
  end.

Definition domRequest (o : Options) (ps : PageStats.t) (pageUrl : string)
  (d : DomPlace) : Req.t :=
  {| Req.url := Req.PlainUrl (domPlaceUrl d);
     Req.uniqueKey := JString (domUniqueKey d);
     Req.userData :=
       {| Req.searchString := searchString o;
          Req.rank := Some (PageStats.totalEnqueued ps + 1);
          Req.searchPageUrl := pageUrl;
          Req.coords := None;
          Req.addressParsed := None;
          Req.isAdvertisement := None;
          Req.categories := None |};
     Req.forefront := true |}.

(** The loop of the fallback over the places found in the page. *)
Fixpoint enqueueDomPlaces (o : Options) (pageUrl : string) (places : list DomPlace)
  (st : PageStats.t * Shared) : PageStats.t * Shared :=
  match places with
  | [] => st
  | d :: rest =>
      let '(ps, s) := st in
      let '(tr, reserved) := Tracker.setEnqueued (searchKeyOf o) (tracker s) in
      if negb reserved then st
      else
        let s1 := withTracker tr s in
        let request := domRequest o ps pageUrl d in
        let '(q, wasAlreadyPresent) := addRequest (requestQueue s1) request in
        let s2 := emit (AddRequest request wasAlreadyPresent) (withQueue q s1) in
        enqueueDomPlaces o pageUrl rest
          (if negb wasAlreadyPresent then countEnqueued ps else ps, s2)
  end.

(** The snapshot the stop checks read, after the probe for the end of the
    list. *)
Record Snapshot := {
  stats : PageStats.t;
  budget : Tracker.t;
  emptyScrolls : Z;
  probe : bool;
  zoom : Z;
}.

(** The counter of scrolls that loaded nothing, as updated by this turn. *)
Definition nextEmptyScrolls (lastTotal : Z) (empties : Z) (ps : PageStats.t) : Z :=
  if lastTotal =? PageStats.totalFound ps then empties + 1 else 0.

Definition finishBecauseAutoZoom (o : Options) (actualZoom : Z) : bool :=
  match maxAutomaticZoomOut o with
  | Some limit => limit <? startZoom o - actualZoom
  | None => false
  end.

(** The stop checks of one turn, in the order of the source; [None] when the
    loop goes on to scroll. [emptyScrolls] is the counter as this turn updates
    it, which the source does once the probe has not ended the turn. *)
Definition stopChecks (o : Options) (v : Snapshot) : option Outcome :=
  if probe v then Some ReachedAllResults
  else if 10 <=? emptyScrolls v then Some ScrollingYieldsNoMore
  else
    match PageStats.error (stats v) with
    | Some failure => Some (RetryPage (PageStats.message failure))
    | None =>
        if negb (Tracker.canEnqueueMore (searchKeyOf o) (budget v))
        then Some CannotEnqueueMore
        else if finishBecauseAutoZoom o (zoom v) then Some ZoomedOutTooFar
        else if MAX_PLACES_PER_PAGE o <=? PageStats.totalFound (stats v)
        then Some FoundMaximum
        else if (0 <? PageStats.found (stats v))
                && (PageStats.enqueued (stats v) + PageStats.pushed (stats v) =? 0)
        then Some OnlyKnownPlaces
        else None
    end.

(** The effects of the scroll action and of the settle delay. *)
Definition scrollEffects (jitter : Z) : list Effect :=
  [MouseMove 10 300; Delay 100; MouseWheel 800; Delay (2000 + jitter)].

(** One turn of the loop. *)
Definition iteration (o : Options) (t : Tick) (st : Session) : Session * option Outcome :=
  let '(ps, s) := handleResponses o (arrivedBefore t) (pageStats st, world st) in
  let fallback := (2 <? PageStats.pageNum ps) && (PageStats.totalFound ps =? 0) in
  let useDOMFallback := if fallback then true else useDOMFallback st in
  let s := if fallback then emit SaveScreenshot s else s in
  if fallback && (0 <? length (domPlaces t))%nat then
    let '(ps', s') := enqueueDomPlaces o (pageUrl t) (domPlaces t) (ps, emit SaveDomPlaces s) in
    ({| pageStats := ps'; world := s';
        numberOfEmptyScrolls := numberOfEmptyScrolls st;
        lastNumberOfResultsLoadedTotally := lastNumberOfResultsLoadedTotally st;
        useDOMFallback := useDOMFallback |}, Some DomFallbackEnqueued)
  else
    let '(ps, s) := handleResponses o (arrivedWhileProbing t) (ps, s) in
    let empties :=
      nextEmptyScrolls (lastNumberOfResultsLoadedTotally st) (numberOfEmptyScrolls st) ps in
    let verdict :=
      stopChecks o {| stats := ps; budget := tracker s; emptyScrolls := empties;
                      probe := noMoreResults t; zoom := actualZoom t |} in
    match verdict with
    | Some ReachedAllResults =>
        ({| pageStats := ps; world := s;
            numberOfEmptyScrolls := numberOfEmptyScrolls st;
            lastNumberOfResultsLoadedTotally := lastNumberOfResultsLoadedTotally st;
            useDOMFallback := useDOMFallback |}, verdict)
    | Some (RetryPage _) =>
        ({| pageStats := ps;
            world :=
              match PageStats.error ps with
              | Some failure => emit (SaveErrorSnapshot (PageStats.responseBody failure)) s
              | None => s
              end;
            numberOfEmptyScrolls := empties;
            lastNumberOfResultsLoadedTotally := PageStats.totalFound ps;
            useDOMFallback := useDOMFallback |}, verdict)
    | Some _ =>
        ({| pageStats := ps; world := s;
            numberOfEmptyScrolls := empties;
            lastNumberOfResultsLoadedTotally := PageStats.totalFound ps;
            useDOMFallback := useDOMFallback |}, verdict)
    | None =>
        ({| pageStats := withPageNum (PageStats.pageNum ps + 1) ps;
            world := {| tracker := tracker s; pushBudget := pushBudget s;
                        requestQueue := requestQueue s;
                        exportUrlsDeduper := exportUrlsDeduper s;
                        effects := effects s ++ scrollEffects (jitter t) |};
            numberOfEmptyScrolls := empties;
            lastNumberOfResultsLoadedTotally := PageStats.totalFound ps;
            useDOMFallback := useDOMFallback |}, None)
    end.

(** The loop over the turns the page supplies; [None] when they run out
    before a stop check fires. *)
Fixpoint scrollingLoop (o : Options) (ticks : list Tick) (st : Session)
  : Session * option Outcome :=
  match ticks with
  | [] => (st, None)
  | t :: rest =>
      match iteration o t st with
      | (st', None) => scrollingLoop o rest st'
      | stopped => stopped
      end
  end.

Definition initialSession (s : Shared) : Session :=
  {| pageStats := PageStats.initial; world := s;
     numberOfEmptyScrolls := 0; lastNumberOfResultsLoadedTotally := 0;
     useDOMFallback := false |}.

End Controller.

(** ** Collaborators for the examples

    A request queue and an export deduper that remember the keys they were
    given, no geofence, and no limit on pushes. *)

Module Simple.

Definition keyKnown (keys : list json) (k : json) : bool := existsb (prim_eqb k) keys.

Definition remember (keys : list json) (k : json) : list json * bool :=
  if keyKnown keys k then (keys, true) else (keys ++ [k], false).

#[local] Instance collaborators : Collaborators :=
  {| Geolocation := unit;
     checkInPolygon := fun _ _ => true;
     Queue := list json;
     addRequest := fun q r => remember q (Req.uniqueKey r);
     Deduper := list json;
     testDuplicateAndAdd := remember;
     PushBudget := unit;
     canScrapeMore := fun _ _ => true;
     setScraped := fun b => b |}.

Definition emptyWorld : Shared :=
  {| tracker := Tracker.unlimited; pushBudget := tt; requestQueue := [];
     exportUrlsDeduper := None; effects := [] |}.

Definition options : Options :=
  {| searchString := Some "cafe"; requestUrl := "https://www.google.com/maps/search/cafe";
     exportPlaceUrls := false; geolocation := None; maxAutomaticZoomOut := None;
     startZoom := 15; MAX_PLACES_PER_PAGE := 120 |}.

Definition searchResponse (page : Z) (text : string) : Response :=
  {| isSearchPage := true; isDetailPreviewPage := false; status := 200; body := text;
     pageNumber := Some page; pageUrlAtArrival := "https://www.google.com/maps/search/cafe" |}.

(** A turn of the loop during which the given responses arrive and the page
    shows neither the end of the list nor links for the fallback. *)
Definition quietTick (arrived : list Response) : Tick :=
  {| arrivedBefore := arrived; domPlaces := []; arrivedWhileProbing := [];
     noMoreResults := false; actualZoom := 15;
     pageUrl := "https://www.google.com/maps/search/cafe"; jitter := 500 |}.

End Simple.

(** ** Notions used to state the properties *)

(** The requests submitted to the queue, in the order of the effect log. *)
Fixpoint requestsOf (log : list Effect) : list Req.t :=
  match log with
  | [] => []
  | AddRequest r _ :: rest => r :: requestsOf rest
  | _ :: rest => requestsOf rest
  end.

Section Notions.
Context `{Runtime}.

(** What a candidate found by the structural search contributes: its id key
    and its record, if its id is truthy. *)
Definition organicEntry (c : list nat * json) : option (IdKey * PlacePaginationData) :=
  match parseJsonResult (snd c) false with
  | Some placeData =>
      if Js.truthy (placeId placeData)
      then Some (idKeyOf (fst c) (placeId placeData), placeData)
      else None
  | None => None
  end.

(** Deduplication in the words of the specification: a candidate yields a
    record exactly when no candidate before it has the same id. [earlier]
    holds the ids of all the candidates before the current one. *)
Fixpoint firstSeenFrom (earlier : list IdKey) (entries : list (IdKey * PlacePaginationData))
  : list PlacePaginationData :=
  match entries with
  | [] => []
  | (k, p) :: rest =>
      (if setHas earlier k then [] else [p]) ++ firstSeenFrom (earlier ++ [k]) rest
  end.

Definition firstSeen (entries : list (IdKey * PlacePaginationData))
  : list PlacePaginationData := firstSeenFrom [] entries.





(** The body passes the parse stage, its payload [data] is located and the
    advertisements [ads] are extracted from it without an exception. *)
Definition searchDecodes (body : string) (data : json) (ads : list PlacePaginationData)
  : Prop :=
  exists jsonObject,
    parseStage body = inr jsonObject
    /\ locatePayload jsonObject = inr (inr data)
    /\ extractAds data [] = (ads, None).

(** The organic candidates of a payload, as entries for the deduplication. *)
Definition organicEntries (data : json) : list (IdKey * PlacePaginationData) :=
  omap organicEntry (collectPlacesRecursively data 0 6 []).

End Notions.

(** The stop conditions of the specification, numbered as there. *)
Section StopConditions.
Context `{Collaborators}.

(** A condition that holds names the outcome with which it ends the session. *)
Definition holds (b : bool) (outcome : Outcome) : option Outcome :=
  if b then Some outcome else None.

Definition stopConditions (o : Options) (v : Snapshot) : list (option Outcome) :=
  [ holds (probe v) ReachedAllResults;
    holds (bool_decide (emptyScrolls v >= 10)) ScrollingYieldsNoMore;
    RetryPage <$> (PageStats.message <$> PageStats.error (stats v));
    holds (negb (Tracker.canEnqueueMore (searchKeyOf o) (budget v))) CannotEnqueueMore;
    holds (match maxAutomaticZoomOut o with
           | Some limit => bool_decide (startZoom o - zoom v > limit)
           | None => false
           end) ZoomedOutTooFar;
    holds (bool_decide (PageStats.totalFound (stats v) >= MAX_PLACES_PER_PAGE o))
      FoundMaximum;
    holds (bool_decide (PageStats.found (stats v) > 0
                        /\ PageStats.enqueued (stats v) + PageStats.pushed (stats v) = 0))
      OnlyKnownPlaces ].

(** The outcome of the first condition of a list that holds. *)
Fixpoint firstHolding (conditions : list (option Outcome)) : option Outcome :=
  match conditions with
  | [] => None
  | Some outcome :: _ => Some outcome
  | None :: rest => firstHolding rest
  end.

End StopConditions.

(** The state of a turn at the points where the source reads it. *)
Section Turn.
Context `{Runtime} `{Collaborators}.

(** The statistics and shared objects when the turn begins, the responses
    that arrived since the previous turn being handled. *)
Definition atTurnStart (o : Options) (t : Tick) (st : Session) : PageStats.t * Shared :=
  handleResponses o (arrivedBefore t) (pageStats st, world st).

(** The test that opens the DOM fallback. *)
Definition fallbackDue (ps : PageStats.t) : bool :=
  (2 <? PageStats.pageNum ps) && (PageStats.totalFound ps =? 0).

(** The fallback ends the turn, and the session, when it finds a place. *)
Definition fallbackEnds (o : Options) (t : Tick) (st : Session) : bool :=
  fallbackDue (fst (atTurnStart o t st)) && (0 <? length (domPlaces t))%nat.

(** The statistics and shared objects when the stop checks run. *)
Definition atChecks (o : Options) (t : Tick) (st : Session) : PageStats.t * Shared :=
  let '(ps, s) := atTurnStart o t st in
  handleResponses o (arrivedWhileProbing t)
    (ps, if fallbackDue ps then emit SaveScreenshot s else s).

(** What the stop checks of the turn read. *)
Definition snapshotOf (o : Options) (t : Tick) (st : Session) : Snapshot :=
  {| stats := fst (atChecks o t st);
     budget := tracker (snd (atChecks o t st));
     emptyScrolls :=
       nextEmptyScrolls (lastNumberOfResultsLoadedTotally st) (numberOfEmptyScrolls st)
         (fst (atChecks o t st));
     probe := noMoreResults t;
     zoom := actualZoom t |}.

(** The elements of a list with their offsets, the first at offset [k]. *)
Fixpoint offsetsFrom {A} (k : nat) (l : list A) : list (nat * A) :=
  match l with
  | [] => []
  | x :: rest => (k, x) :: offsetsFrom (S k) rest
  end.

(** The requests of the handler for records given with their offsets: one
    for each record inside the geofence, in their order, with the rank
    [rank offset]. *)
Definition rankedRequests (o : Options) (rank : nat -> jsint) (url : string)
  (records : list (nat * PlacePaginationData)) : list Req.t :=
  map (fun x => placeRequest o (rank (fst x)) url (snd x))
    (List.filter (fun x => checkInPolygon (geolocation o) (coords (snd x))) records).

(** Ranks that are finite and strictly increasing. *)
Definition ascending (ranks : list jsint) : Prop :=
  StronglySorted (fun a b => exists x y, a = Some x /\ b = Some y /\ x < y) ranks.

(** A request as the DOM fallback builds them: for a place of the page, in
    front of the queue, with the id or the address of the place as key and
    without coordinates, address, advertisement flag or categories. *)
Definition domShaped (o : Options) (url : string) (places : list DomPlace) (r : Req.t)
  : Prop :=
  exists d n,
    d ∈ places
    /\ r = {| Req.url := Req.PlainUrl (domPlaceUrl d);
              Req.uniqueKey := JString (domUniqueKey d);
              Req.userData :=
                {| Req.searchString := searchString o;
                   Req.rank := Some n;
                   Req.searchPageUrl := url;
                   Req.coords := None;
                   Req.addressParsed := None;
                   Req.isAdvertisement := None;
                   Req.categories := None |};
              Req.forefront := true |}.

End Turn.

(** The scenario of a page that answers every scroll with the same places. *)
Module Scenario.
#[local] Existing Instance Simple.collaborators.

(** The tracker has no limit and a count for the search of the scenario. *)
Definition unbounded (s : Shared) : Prop :=
  Tracker.maxCrawledPlaces (tracker s) = None
  /\ Tracker.maxCrawledPlacesPerSearch (tracker s) = None
  /\ exists c, Tracker.countOf "cafe" (tracker s) = Some c.


Section WithRuntime.
Context `{Runtime}.

(** The turns of a session in which the body [text] arrives before each of
    [n] turns. *)
Definition sameBodyTurns (text : string) (n : nat) : list Tick :=
  map (fun k => Simple.quietTick [Simple.searchResponse (Z.of_nat k) text]) (seq 1 n).

Definition run (ticks : list Tick) : Session * option Outcome :=
  scrollingLoop Simple.options ticks (initialSession Simple.emptyWorld).

End WithRuntime.

(** Three turns without any response, then a turn before which the five
    places arrive. *)
Definition lateResponseTurns : list Tick :=
  [Simple.quietTick []; Simple.quietTick []; Simple.quietTick [];
   Simple.quietTick [Simple.searchResponse 4 Sample.fivePlaces]].

(** What identifies a submitted request in the examples: its key, its rank
    and whether it carries categories. *)
Definition summary (r : Req.t) : json * jsint * bool :=
  (Req.uniqueKey r, Req.rank (Req.userData r),
   match Req.categories (Req.userData r) with Some _ => true | None => false end).

(** A decoded place with the id [id]. *)
Definition place (id : string) : PlacePaginationData :=
  {| placeId := JString id;
     coords := {| lat := JNum 50 0; lng := JNum 14 0 |};
     addressParsed :=
       {| neighborhood := JUndefined; street := JUndefined; city := JUndefined;
          postalCode := JUndefined; state := JUndefined; countryCode := JUndefined |};
     isAdvertisement := false;
     website := JNull;
     categories := JUndefined |}.

Definition freshProgress : Progress :=
  {| shared := Simple.emptyWorld; enqueuedNow := 0; pushedNow := 0 |}.

(** The session after two turns without any response: page number 3 and
    nothing found. *)
Definition thirdTurnSession : Session :=
  fst (run [Simple.quietTick []; Simple.quietTick []]).

(** A turn in which the page shows one place link. *)
Definition domTick : Tick :=
  {| arrivedBefore := [];
     domPlaces := [{| domPlaceId := Some "ChIJ0"; href := "/maps/place/ChIJ0";
                      title := "Cafe" |}];
     arrivedWhileProbing := []; noMoreResults := false; actualZoom := 15;
     pageUrl := "https://www.google.com/maps/search/cafe"; jitter := 500 |}.

(** A turn before which an HTML page arrives as the search response, while
    the page shows one place link. *)
Definition blockedDomTick : Tick :=
  {| arrivedBefore := [Simple.searchResponse 3 "<html>blocked</html>"];
     domPlaces := domPlaces domTick;
     arrivedWhileProbing := []; noMoreResults := false; actualZoom := 15;
     pageUrl := "https://www.google.com/maps/search/cafe"; jitter := 500 |}.

(** A turn before which an HTML page arrives as the search response, while
    the page shows the end of the list and no place link. *)
Definition blockedEndTick : Tick :=
  {| arrivedBefore := [Simple.searchResponse 1 "<html>blocked</html>"];
     domPlaces := [];
     arrivedWhileProbing := []; noMoreResults := true; actualZoom := 15;
     pageUrl := "https://www.google.com/maps/search/cafe"; jitter := 500 |}.

(** A turn in which the page shows three place links, two of them to the
    same place. *)
Definition repeatedLinkTick : Tick :=
  {| arrivedBefore := [];
     domPlaces := [{| domPlaceId := Some "ChIJ0"; href := "/maps/place/ChIJ0";
                      title := "Cafe" |};
                   {| domPlaceId := Some "ChIJ0"; href := "/maps/place/ChIJ0";
                      title := "Cafe" |};
                   {| domPlaceId := Some "ChIJ1"; href := "/maps/place/ChIJ1";
                      title := "Bar" |}];
     arrivedWhileProbing := []; noMoreResults := false; actualZoom := 15;
     pageUrl := "https://www.google.com/maps/search/cafe"; jitter := 500 |}.

End Scenario.

(** ** Place details read from the page data: [place-extractors/general.js]

    [extractPopularTimes], [extractHotelAmenitiesFromJson],
    [extractAdditionalInfoBasicFromJson], [extractAdditionalInfoFromJson] and
    [extractAdditionalInfo]. An object that the code fills under computed
    keys and reads back by key is a finite map; the order of its properties
    is not modelled. *)

(** Conversions of the language that depend on the printing of numbers and on
    the methods of objects, taken from the engine: ToPropertyKey of a value
    that is no string, and the comparison [v == 1] of a string, an array or an
    object [v] with the number one. Either can throw. *)
Class Coercions := {
  keyOfOther : json -> result string;
  coercedEqualsOne : json -> result bool;
}.

Module Details.

(** [typeof v === 'number'] and [v === s] for a string [s]. *)
Definition isNumber (v : json) : bool :=
  match v with JNum _ _ => true | _ => false end.

Definition isTheString (v : json) (s : string) : bool :=
  match v with JString t => String.eqb t s | _ => false end.

(** [a || null]. *)
Definition orNull (v : json) : json := if Js.truthy v then v else JNull.

(** *** Popular times *)

Record HourOutput := { hour : json; occupancyPercent : json }.

Record PopularTimesOutput := {
  popularTimesLiveText : json;
  popularTimesLivePercent : json;
  popularTimesHistogram : gmap string (list HourOutput);
}.

Definition DAYS : list string := ["Su"; "Mo"; "Tu"; "We"; "Th"; "Fr"; "Sa"].

(** The property key that [DAYS[i]] names: past the end of the array the read
    gives [undefined], whose key is its name. *)
Definition dayKey (i : nat) : string := nth i DAYS "undefined".

(** The loop over the hours of a day. *)
Fixpoint hoursOf (hoursData : list json) : result (list HourOutput) :=
  match hoursData with
  | [] => ret []
  | hourData :: rest =>
      bind (Js.get hourData 0) (fun h =>
      bind (Js.get hourData 1) (fun p =>
      bind (hoursOf rest) (fun l =>
      ret ({| hour := h; occupancyPercent := p |} :: l))))
  end.

(** [daysData.forEach], from the day at position [i] on. *)
Fixpoint daysFrom (daysData : list json) (i : nat)
  (histogram : gmap string (list HourOutput)) : result (gmap string (list HourOutput)) :=
  match daysData with
  | [] => ret histogram
  | dayData :: rest =>
      let histogram := <[dayKey i := []]> histogram in
      bind (Js.get dayData 1) (fun hoursData =>
      match hoursData with
      | JArray items =>
          bind (hoursOf items) (fun hours =>
          daysFrom rest (S i) (<[dayKey i := hours]> histogram))
      | _ => daysFrom rest (S i) histogram
      end)
  end.

(** [None] is the empty object the function returns when the page data has
    no popular times. *)
Definition extractPopularTimes (jsonData : json) : result (option PopularTimesOutput) :=
  if negb (Js.truthy jsonData) then ret None
  else
    let popularTimesData := Js.idx jsonData 84 in
    if negb (Js.truthy popularTimesData) then ret None
    else
      match Js.idx popularTimesData 0 with
      | JArray daysData =>
          bind (daysFrom daysData 0 ∅) (fun histogram =>
          ret (Some {| popularTimesLiveText := orNull (Js.idx popularTimesData 6);
                       popularTimesLivePercent :=
                         orNull (Js.optGet (Js.idx popularTimesData 7) 1);
                       popularTimesHistogram := histogram |}))
      | _ => throw (TypeError "daysData.forEach is not a function")
      end.

(** *** Additional info *)

(** An object with one property, [{ [name]: value }], and an object whose
    properties hold arrays of them. *)
Abbreviation Flag := (string * bool)%type.

Abbreviation AdditionalInfo := (gmap string (list Flag)).

Definition creditCardTypes : string :=
  "/geo/type/establishment_poi/pay_credit_card_types_accepted".

Definition wifi : string := "/geo/type/establishment_poi/wi_fi".

(** [wifiOptions.map]. *)
Fixpoint wifiEntries (wifiOptions : list json) : result (list Flag) :=
  match wifiOptions with
  | [] => ret []
  | wifiOption :: rest =>
      match Js.optGet wifiOption 2 with
      | JString name => bind (wifiEntries rest) (fun l => ret ((name, true) :: l))
      | _ => throw (TypeError "wrong format for wifi option")
      end
  end.

(** The callback of [flatMap]: what one option of a section contributes. *)
Definition optionEntries (opt : json) : result (list Flag) :=
  match Js.optGet opt 1 with
  | JString name =>
      match Js.optGet (Js.optGet (Js.optGet opt 2) 2) 0 with
      | JNum m e => ret [(name, num_eqb m e 1 0)]
      | _ =>
          if isTheString (Js.optGet opt 0) creditCardTypes then
            match Js.optGet (Js.optGet (Js.optGet (Js.optGet (Js.optGet opt 2) 4) 1) 0) 0 with
            | JArray acceptedCards =>
                let firstCard := nth 0 acceptedCards JUndefined in
                ret [(name, Js.isArray firstCard && (4 <=? Js.arrayLength firstCard)%nat)]
            | _ => throw (TypeError (name +:+ ": wrong format for accepted cards"))
            end
          else if isTheString (Js.optGet opt 0) wifi then
            if Js.isArray (Js.optGet (Js.optGet opt 2) 3) then
              match Js.optGet opt 2 with
              | JArray items => wifiEntries (skipn 3 items)
              | _ => throw (TypeError "option[2].slice is not a function")
              end
            else throw (TypeError "wrong format for wifi options")
          else throw (TypeError (name +:+ ": wrong format for option value"))
      end
  | _ => throw (TypeError "wrong format for option name")
  end.

(** [section[2].flatMap]: the callback returns one object or, for Wi-Fi, an
    array of them, which [flatMap] flattens. *)
Fixpoint flatMapOptions (options : list json) : result (list Flag) :=
  match options with
  | [] => ret []
  | opt :: rest =>
      bind (optionEntries opt) (fun l =>
      bind (flatMapOptions rest) (fun l' => ret (l ++ l')))
  end.

(** [result[key] = value] for an array [value]: under the key [__proto__]
    the assignment sets the prototype and adds no property. *)
Definition assign (key : string) (value : list Flag) (acc : AdditionalInfo)
  : AdditionalInfo :=
  if String.eqb key "__proto__" then acc else <[key := value]> acc.

Section WithCoercions.
Context `{Coercions}.

(** ToPropertyKey. *)
Definition toPropertyKey (v : json) : result string :=
  match v with
  | JString s => ret s
  | _ => keyOfOther v
  end.

(** [v == 1]. *)
Definition looseEqualsOne (v : json) : result bool :=
  match v with
  | JUndefined | JNull => ret false
  | JBool b => ret b
  | JNum m e => ret (num_eqb m e 1 0)
  | _ => coercedEqualsOne v
  end.

(** The loop over the sections: the key of a section is read, its options
    are mapped, and the key is converted when the property is assigned. *)
Fixpoint sectionsFrom (sections : list json) (acc : AdditionalInfo)
  : result AdditionalInfo :=
  match sections with
  | [] => ret acc
  | section :: rest =>
      bind (Js.get section 1) (fun k =>
      match Js.idx section 2 with
      | JArray options =>
          bind (flatMapOptions options) (fun values =>
          bind (toPropertyKey k) (fun key =>
          sectionsFrom rest (assign key values acc)))
      | _ => throw (TypeError "section[2].flatMap is not a function")
      end)
  end.

(** [None] is [undefined]. *)
Definition extractAdditionalInfoBasicFromJson (jsonData : json)
  : result (option AdditionalInfo) :=
  let info := Js.optGet jsonData 100 in
  if negb (Js.truthy info) then ret None
  else
    let sections := Js.idx info 1 in
    let first := Js.optGet sections 0 in
    if negb (Js.truthy (Js.optGet first 1)) || negb (Js.isArray (Js.optGet first 2))
    then throw (TypeError "wrong format")
    else
      match sections with
      | JArray items => bind (sectionsFrom items ∅) (fun r => ret (Some r))
      | _ => throw (TypeError "jsonData[100][1] is not iterable")
      end.

(** [jsonData[64][2].map]: the key of the object is computed before its
    value. *)
Fixpoint amenitiesOf (options : list json) : result (list Flag) :=
  match options with
  | [] => ret []
  | opt :: rest =>
      bind (Js.get opt 2) (fun k =>
      bind (toPropertyKey k) (fun name =>
      bind (looseEqualsOne (Js.idx opt 3)) (fun value =>
      bind (amenitiesOf rest) (fun l => ret ((name, value) :: l)))))
  end.

Definition extractHotelAmenitiesFromJson (jsonData : json)
  : result (option AdditionalInfo) :=
  let first := Js.optGet (Js.optGet (Js.optGet jsonData 64) 2) 0 in
  if negb (Js.truthy first) then ret None
  else if negb (Js.truthy (Js.idx first 2)) || negb (isNumber (Js.idx first 3))
  then throw (TypeError "wrong format for hotel amenities")
  else
    match Js.idx (Js.idx jsonData 64) 2 with
    | JArray options =>
        bind (amenitiesOf options) (fun l => ret (Some {[ "Amenities" := l ]}))
    | _ => throw (TypeError "jsonData[64][2].map is not a function")
    end.

Definition extractAdditionalInfoFromJson (jsonData : json)
  : result (option AdditionalInfo) :=
  bind (extractAdditionalInfoBasicFromJson jsonData) (fun resultBasic =>
  bind (extractHotelAmenitiesFromJson jsonData) (fun resultHotel =>
  match resultBasic, resultHotel with
  | Some basic, Some hotel =>
      match basic !! "Amenities" with
      | Some amenities =>
          match hotel !! "Amenities" with
          | Some more => ret (Some (<["Amenities" := amenities ++ more]> basic))
          | None => throw (TypeError "resultHotel.Amenities is not iterable")
          end
      | None => ret (Some (hotel ∪ basic))
      end
  | Some basic, None => ret (Some basic)
  | None, _ => ret resultHotel
  end)).

(** What the page answers to [extractAdditionalInfo], each call of the page
    either returning or throwing: [page.$] for the button that expands the
    attributes, whether it is found; what clicking it, waiting for the panel
    and reading its regions gives, the object read or the exception of the
    step that fails; [navigateBack] (utils/misc-utils.js, not among the
    sources); and the two calls of [page.$$eval], the texts of the available
    and of the disabled hotel amenities. The wait for the button before
    [page.$] has its rejection caught and gives nothing that is read. *)
Record InfoPage := {
  expandButton : result bool;
  expandedInfo : result AdditionalInfo;
  navigateBack : result unit;
  hotel_avail_amenities : result (list string);
  hotel_disabled_amenities : result (list string);
}.

(** The [try] around the page data catches; [page.$] and the two calls of
    [page.$$eval] are awaited outside any [try]; the [try] around the click
    and the reading catches, and its [finally] awaits [navigateBack]. *)
Definition extractAdditionalInfo (page : InfoPage) (jsonData : json)
  : result (option AdditionalInfo) :=
  let fromJson :=
    match extractAdditionalInfoFromJson jsonData with
    | inr r => r
    | inl _ => None
    end in
  match fromJson with
  | Some r => ret (Some r)
  | None =>
      bind (expandButton page) (fun button =>
      if button : bool then
        let fromPage :=
          match expandedInfo page with
          | inr r => Some r
          | inl _ => None
          end in
        bind (navigateBack page) (fun _ => ret fromPage)
      else
        bind (hotel_avail_amenities page) (fun avail =>
        bind (hotel_disabled_amenities page) (fun disabled =>
        if (0 <? length avail)%nat then
          ret (Some {[ "Amenities" :=
                         map (fun name => (name, true)) avail
                         ++ map (fun name => (name, false)) disabled ]})
        else ret None)))
  end.

End WithCoercions.

End Details.

(** ** Waiting for the outcome of a search: [waitForSearchResults] *)

Module Wait.

(** The object the function returns has one flag set. *)
Inductive SearchResultOutcome : Type :=
| NoOutcomeLoaded
| IsBadQuery
| HasNoResults
| IsPlaceDetail
| HasResults.

(** The selectors tried for search results. *)
Inductive ResultSelector : Type :=
| HfpxzcLinks
| FeedArticles
| ArticleCards
| PlaceLinks.

Definition searchResultSelectors : list ResultSelector :=
  [HfpxzcLinks; FeedArticles; ArticleCards; PlaceLinks].

(** What one turn of the polling loop observes: the clock when the turn
    begins, whether an element of a bad query is found, the number of nodes
    of the no-results path, whether the title of a place is found, and the
    number of elements each result selector matches. *)
Record Probe := {
  now : Z;
  isBadQuery : bool;
  hasNoResults : nat;
  isPlaceDetail : bool;
  hasSearchResults : ResultSelector -> nat;
}.

Definition SEARCH_WAIT_TIME_MS : Z := 30000.

Definition CHECK_LOAD_OUTCOMES_EVERY_MS : Z := 500.

(** The turn decides nothing: it is in time and the page shows none of the
    outcomes. *)
Definition undecided (start : Z) (p : Probe) : bool :=
  negb (SEARCH_WAIT_TIME_MS <? now p - start)
  && negb (isBadQuery p)
  && negb (0 <? hasNoResults p)%nat
  && negb (isPlaceDetail p)
  && negb (existsb (fun selector => (0 <? hasSearchResults p selector)%nat)
             searchResultSelectors).

(** The polling loop over the turns the page supplies; [None] when they run
    out before an outcome is seen. *)
Fixpoint waitForSearchResults (start : Z) (probes : list Probe)
  : option SearchResultOutcome :=
  match probes with
  | [] => None
  | p :: rest =>
      if SEARCH_WAIT_TIME_MS <? now p - start then Some NoOutcomeLoaded
      else if isBadQuery p then Some IsBadQuery
      else if (0 <? hasNoResults p)%nat then Some HasNoResults
      else if isPlaceDetail p then Some IsPlaceDetail
      else if existsb (fun selector => (0 <? hasSearchResults p selector)%nat)
                searchResultSelectors
      then Some HasResults
      else waitForSearchResults start rest
  end.

(** The clock of the turns: the first turn begins no earlier than [start],
    and each later turn at least the polling delay after the one before. *)
Fixpoint clockAdvances (previous : Z) (probes : list Probe) : Prop :=
  match probes with
  | [] => True
  | p :: rest => previous <= now p /\ clockAdvances (now p + CHECK_LOAD_OUTCOMES_EVERY_MS) rest
  end.

End Wait.

(** ** Reading places from the page: [extractPlacesFromDOM] *)

Module Dom.

(** The selectors tried for the links of places. *)
Inductive LinkSelector : Type :=
| HfpxzcLink
| PlaceHrefLink
| ArticleMapsLink
| FeedPlaceLink.

Definition selectors : list LinkSelector :=
  [HfpxzcLink; PlaceHrefLink; ArticleMapsLink; FeedPlaceLink].

(** What the function reads of a link: its attributes [href] and
    [aria-label], the text of the heading inside it, and the text of the
    heading of the article around it; [None] where there is none. *)
Record Link := {
  hrefAttribute : option string;
  ariaLabel : option string;
  headingText : option string;
  articleHeadingText : option string;
}.

(** [a || b] for strings that may be missing. *)
Definition orElse (a : option string) (b : string) : string :=
  match a with
  | Some s => if Text.is_empty s then b else s
  | None => b
  end.

(** The longest prefix whose characters satisfy [p]. *)
Fixpoint takeWhile (p : ascii -> bool) (s : string) : string :=
  match s with
  | EmptyString => EmptyString
  | String c s' => if p c then String c (takeWhile p s') else EmptyString
  end.

(** A group [(x+)] at the end of a pattern, for the class [p]: the longest
    run, which must not be empty. *)
Definition capture (p : ascii -> bool) (s : string) : option string :=
  match takeWhile p s with
  | EmptyString => None
  | run => Some run
  end.

Definition isNot (x : ascii) (c : ascii) : bool := negb (Ascii.eqb x c).

(** The class of the first pattern: neither an ampersand nor a slash. *)
Definition idChar (c : ascii) : bool := isNot "&" c && isNot "/" c.

(** A line terminator, which the dot of a pattern does not match. *)
Definition lineTerminator (c : ascii) : bool :=
  (nat_of_ascii c =? 10)%nat || (nat_of_ascii c =? 13)%nat.

(** The first group of the leftmost match of [place_id], an equals sign or a
    colon, and a run of [idChar]. *)
Fixpoint matchPlaceIdParameter (s : string) : option string :=
  match
    (if Text.startsWith s "place_id" then
       match Text.drop 8 s with
       | String separator rest =>
           if Ascii.eqb separator "=" || Ascii.eqb separator ":"
           then capture idChar rest else None
       | EmptyString => None
       end
     else None)
  with
  | Some id => Some id
  | None =>
      match s with
      | EmptyString => None
      | String _ s' => matchPlaceIdParameter s'
      end
  end.

(** After [data=]: the dot-star is greedy, so the group starts after the last
    [!1s] that a character other than an exclamation mark follows and that no
    line terminator separates from [data=]. *)
Fixpoint matchLastMarker (s : string) : option string :=
  match s with
  | EmptyString => None
  | String c s' =>
      match (if lineTerminator c then None else matchLastMarker s') with
      | Some id => Some id
      | None =>
          if Text.startsWith s "!1s" then capture (isNot "!") (Text.drop 3 s) else None
      end
  end.

(** The first group of the leftmost match of [data=], any characters of one
    line, [!1s] and a run without an exclamation mark. *)
Fixpoint matchDataParameter (s : string) : option string :=
  match
    (if Text.startsWith s "data=" then matchLastMarker (Text.drop 5 s) else None)
  with
  | Some id => Some id
  | None =>
      match s with
      | EmptyString => None
      | String _ s' => matchDataParameter s'
      end
  end.

(** The first group of the leftmost match of [/maps/place/], a run without a
    slash, a slash, and a second run without a slash. *)
Fixpoint matchPlacePath (s : string) : option string :=
  match
    (if Text.startsWith s "/maps/place/" then
       let rest := Text.drop 12 s in
       let name := takeWhile (isNot "/") rest in
       if Text.is_empty name then None
       else
         match Text.drop (String.length name) rest with
         | String c after => if Ascii.eqb c "/" then capture (isNot "/") after else None
         | EmptyString => None
         end
     else None)
  with
  | Some id => Some id
  | None =>
      match s with
      | EmptyString => None
      | String _ s' => matchPlacePath s'
      end
  end.

(** The place id read from the address of a link: the three patterns in
    turn. *)
Definition placeIdOf (address : string) : option string :=
  match matchPlaceIdParameter address with
  | Some id => Some id
  | None =>
      match matchDataParameter address with
      | Some id => Some id
      | None => matchPlacePath address
      end
  end.

Definition titleOf (link : Link) : string :=
  Text.trim
    (orElse (ariaLabel link)
       (orElse (headingText link) (orElse (articleHeadingText link) EmptyString))).

(** The links of the first selector that matches any; none when no selector
    does. *)
Fixpoint firstMatching (page : LinkSelector -> list Link) (tried : list LinkSelector)
  : list Link :=
  match tried with
  | [] => []
  | selector :: rest =>
      match page selector with
      | [] => firstMatching page rest
      | links => links
      end
  end.

(** The callback of [links.forEach]: a link without an address is left
    out. *)
Definition placeOf (link : Link) : option DomPlace :=
  let address := orElse (hrefAttribute link) EmptyString in
  if Text.is_empty address then None
  else Some {| domPlaceId := placeIdOf address; href := address; title := titleOf link |}.

Definition extractPlacesFromDOM (page : LinkSelector -> list Link) : list DomPlace :=
  omap placeOf (firstMatching page selectors).

End Dom.

(** ** Notions used to state the further properties *)

(** A payload inside the artifacts of the envelope: white space, the guard,
    white space, the payload, the trailing comment, white space. *)
Definition enveloped (before between after payload : string) : string :=
  before +:+ Text.xssiGuard +:+ between +:+ payload +:+ Text.commentMarker +:+ after.

(** The comment marker without its last character. *)
Definition markerBody : string :=
  String "/" (String "*" (String Text.dquote (String Text.dquote (String "*" EmptyString)))).

(** The node of a tree at a path of indices. *)
Definition subtree (data : json) (path : list nat) : json := fold_left Js.idx path data.

(** A record that is no advertisement has a truthy id. *)
Definition identified (r : PlacePaginationData) : Prop :=
  isAdvertisement r = false -> Js.truthy (placeId r) = true.

(** Effects counted in the log: requests the queue took as new, pushes to the
    dataset, turns of the mouse wheel. *)
Definition isAccepted (e : Effect) : bool :=
  match e with AddRequest _ false => true | _ => false end.

Definition isPush (e : Effect) : bool :=
  match e with PushData _ => true | _ => false end.

Definition isScroll (e : Effect) : bool :=
  match e with MouseWheel _ => true | _ => false end.

Fixpoint tally (f : Effect -> bool) (log : list Effect) : Z :=
  match log with
  | [] => 0
  | e :: rest => (if f e then 1 else 0) + tally f rest
  end.

(** The addresses pushed to the dataset, in the order of the effect log. *)
Fixpoint pushesOf (log : list Effect) : list Req.Url :=
  match log with
  | [] => []
  | PushData u :: rest => u :: pushesOf rest
  | _ :: rest => pushesOf rest
  end.

(** The requests submitted, each with the answer of the queue, in the order
    of the effect log. *)
Fixpoint answersOf (log : list Effect) : list (Req.t * bool) :=
  match log with
  | [] => []
  | AddRequest r present :: rest => (r, present) :: answersOf rest
  | _ :: rest => answersOf rest
  end.

(** The ranks of submitted requests continue the count [n]: each request has
    the rank after [n], and [n] grows when the queue takes the request as
    new. *)
Fixpoint ranksFrom (n : Z) (answers : list (Req.t * bool)) : Prop :=
  match answers with
  | [] => True
  | (r, present) :: rest =>
      Req.rank (Req.userData r) = Some (n + 1)
      /\ ranksFrom (if present then n else n + 1) rest
  end.

Section SessionNotions.
Context `{Runtime} `{Collaborators}.

(** What the counters of the handler's loop owe to the effect log. *)
Definition balanced (g g' : Progress) : Prop :=
  enqueuedNow g' - enqueuedNow g
  = tally isAccepted (effects (shared g')) - tally isAccepted (effects (shared g))
  /\ pushedNow g' - pushedNow g
     = tally isPush (effects (shared g')) - tally isPush (effects (shared g))
  /\ tally isScroll (effects (shared g')) = tally isScroll (effects (shared g)).

(** What the totals of the statistics and the page number owe to the effect
    log. *)
Definition ledger (ps : PageStats.t) (s : Shared) : Z * Z * Z :=
  (PageStats.totalEnqueued ps - tally isAccepted (effects s),
   PageStats.totalPushed ps - tally isPush (effects s),
   PageStats.pageNum ps - tally isScroll (effects s)).

(** The handler's loop left the queue side, or the export side, as it was. *)
Definition queueUntouched (g g' : Progress) : Prop :=
  enqueuedNow g' = enqueuedNow g
  /\ tracker (shared g') = tracker (shared g)
  /\ requestQueue (shared g') = requestQueue (shared g)
  /\ requestsOf (effects (shared g')) = requestsOf (effects (shared g)).

Definition exportUntouched (g g' : Progress) : Prop :=
  pushedNow g' = pushedNow g
  /\ pushBudget (shared g') = pushBudget (shared g)
  /\ exportUrlsDeduper (shared g') = exportUrlsDeduper (shared g)
  /\ pushesOf (effects (shared g')) = pushesOf (effects (shared g)).


(** A turn during which no response arrives. *)
Definition quiet (t : Tick) : Prop := arrivedBefore t = [] /\ arrivedWhileProbing t = [].

End SessionNotions.

(** What [extractPopularTimes] files for one day, and the days it reads
    without an exception. *)
Definition hourOutput (hourData : json) : Details.HourOutput :=
  {| Details.hour := Js.idx hourData 0; Details.occupancyPercent := Js.idx hourData 1 |}.

Definition hoursOutput (dayData : json) : list Details.HourOutput :=
  match Js.idx dayData 1 with
  | JArray items => map hourOutput items
  | _ => []
  end.

Definition wellFormedDay (dayData : json) : bool :=
  negb (Js.nullish dayData)
  && match Js.idx dayData 1 with
     | JArray items => forallb (fun hourData => negb (Js.nullish hourData)) items
     | _ => true
     end.

(** The last of the days from position [i] on that is filed under [key]. *)
Fixpoint lastDay (key : string) (daysData : list json) (i : nat) : option json :=
  match daysData with
  | [] => None
  | dayData :: rest =>
      match lastDay key rest (S i) with
      | Some later => Some later
      | None => if String.eqb (Details.dayKey i) key then Some dayData else None
      end
  end.

(** An option that the callback of [flatMap] treats as a list of Wi-Fi
    entries. *)
Definition isWifiOption (opt : json) : bool :=
  negb (Details.isNumber (Js.optGet (Js.optGet (Js.optGet opt 2) 2) 0))
  && negb (Details.isTheString (Js.optGet opt 0) Details.creditCardTypes)
  && Details.isTheString (Js.optGet opt 0) Details.wifi.

Fixpoint allChars (p : ascii -> bool) (s : string) : bool :=
  match s with
  | EmptyString => true
  | String c s' => if p c then allChars p s' else false
  end.

(** The address the handler builds for a place id. *)
Definition placeIdAddress (id : string) : string :=
  "https://www.google.com/maps/place/?q=place_id:" +:+ id.

(** ** Data for the further examples *)

(** Collaborators like [Simple.collaborators], with a geofence that no place
    is inside of. *)
Module Fenced.

#[local] Instance collaborators : Collaborators :=
  {| Geolocation := unit;
     checkInPolygon := fun fence _ => match fence with Some _ => false | None => true end;
     Queue := list json;
     addRequest := fun q r => Simple.remember q (Req.uniqueKey r);
     Deduper := list json;
     testDuplicateAndAdd := Simple.remember;
     PushBudget := unit;
     canScrapeMore := fun _ _ => true;
     setScraped := fun b => b |}.

Definition emptyWorld : Shared :=
  {| tracker := Tracker.unlimited; pushBudget := tt; requestQueue := [];
     exportUrlsDeduper := None; effects := [] |}.

Definition options : Options :=
  {| searchString := Some "cafe"; requestUrl := "https://www.google.com/maps/search/cafe";
     exportPlaceUrls := false; geolocation := Some tt; maxAutomaticZoomOut := None;
     startZoom := 15; MAX_PLACES_PER_PAGE := 120 |}.

Definition searchResponse (text : string) : Response :=
  {| isSearchPage := true; isDetailPreviewPage := false; status := 200; body := text;
     pageNumber := Some 1; pageUrlAtArrival := "https://www.google.com/maps/search/cafe" |}.

End Fenced.

Module Exporting.
#[local] Existing Instance Simple.collaborators.

(** The options of [Simple.options] in export mode, and a world with an
    export deduper. *)
Definition options : Options :=
  {| searchString := Some "cafe"; requestUrl := "https://www.google.com/maps/search/cafe";
     exportPlaceUrls := true; geolocation := None; maxAutomaticZoomOut := None;
     startZoom := 15; MAX_PLACES_PER_PAGE := 120 |}.

Definition emptyWorld : Shared :=
  {| tracker := Tracker.unlimited; pushBudget := tt; requestQueue := [];
     exportUrlsDeduper := Some []; effects := [] |}.

End Exporting.

Module SampleDetails.

Definition num (n : Z) : json := JNum n 0.

(** Page data: an array with [v] at index [i] and null before it. *)
Definition at_ (i : nat) (v : json) : json := JArray (repeat JNull i ++ [v]).

Definition hourEntry (h percent : Z) : json := JArray [num h; num percent].

Definition day (n : Z) (hours : list json) : json := JArray [num n; JArray hours].

(** Nine days, the last two past the week; the second has no hours. *)
Definition nineDays : list json :=
  [ day 7 [hourEntry 6 0; hourEntry 7 12]; JArray [num 1; JNull];
    day 2 [hourEntry 6 5]; day 3 []; day 4 []; day 5 []; day 6 [];
    day 8 [hourEntry 1 1]; day 9 [hourEntry 2 2] ].

Definition withPopularTimes (days : list json) : json :=
  at_ 84 (JArray [JArray days; JNull; JNull; JNull; JNull; JNull; JString "Busy"]).

(** The output for the sample of nine days. *)
Definition nineDaysOutput : Details.PopularTimesOutput :=
  match Details.extractPopularTimes (withPopularTimes nineDays) with
  | inr (Some out) => out
  | _ => {| Details.popularTimesLiveText := JNull; Details.popularTimesLivePercent := JNull;
            Details.popularTimesHistogram := ∅ |}
  end.

(** An option with a numeric flag, and the options of a section. *)
Definition flagged (name : string) (flag : Z) : json :=
  JArray [JString "/geo/type/establishment_poi/x"; JString name;
          JArray [JNull; JNull; JArray [num flag]]].

Definition accessibility : list json :=
  [flagged "Wheelchair accessible entrance" 1; flagged "Wheelchair accessible seating" 0].

(** A Wi-Fi option with two entries from index 3 on. *)
Definition wifiOption : json :=
  JArray [JString Details.wifi; JString "Wi-Fi";
          JArray [JNull; JNull; JNull;
                  JArray [JNull; JNull; JString "Free Wi-Fi"];
                  JArray [JNull; JNull; JString "Paid Wi-Fi"]]].

(** Page data with one section of basic info at index 100 and two hotel
    amenities at index 64. *)
Definition hotelOption (name : string) (flag : Z) : json :=
  JArray [JNull; JNull; JString name; num flag].

Definition basicAndHotel : json :=
  JArray (repeat JNull 64
          ++ [JArray [JNull; JNull; JArray [hotelOption "Pool" 1; hotelOption "Spa" 0]]]
          ++ repeat JNull 35
          ++ [JArray [JNull; JArray [JArray [JNull; JString "Amenities";
                                             JArray (accessibility ++ [wifiOption])]]]]).

(** A probe that shows none of the outcomes, and sixty-two of them half a
    second apart. *)
Definition loading (t : Z) : Wait.Probe :=
  {| Wait.now := t; Wait.isBadQuery := false; Wait.hasNoResults := 0;
     Wait.isPlaceDetail := false; Wait.hasSearchResults := fun _ => 0%nat |}.

Definition neverLoads : list Wait.Probe :=
  map (fun k => loading (1000 + 500 * Z.of_nat k)) (seq 0 62).

(** Two probes that show nothing, then one that shows three place links. *)
Definition loadsOnThirdProbe : list Wait.Probe :=
  [ loading 1000; loading 1500;
    {| Wait.now := 2001; Wait.isBadQuery := false; Wait.hasNoResults := 0;
       Wait.isPlaceDetail := false;
       Wait.hasSearchResults :=
         fun selector => match selector with Wait.PlaceLinks => 3%nat | _ => 0%nat end |} ].

(** A page whose first selector matches nothing and whose second matches
    three links: one with a place id in its data parameter, one without an
    address, one with a relative address and a heading. *)
Definition links : list Dom.Link :=
  [ {| Dom.hrefAttribute :=
         Some "https://www.google.com/maps/place/Cafe+X/data=!4m7!3m6!1s0x47:0x99!8m2!3d50";
       Dom.ariaLabel := Some " Cafe X "; Dom.headingText := None;
       Dom.articleHeadingText := None |};
    {| Dom.hrefAttribute := None; Dom.ariaLabel := Some "Nowhere";
       Dom.headingText := None; Dom.articleHeadingText := None |};
    {| Dom.hrefAttribute := Some "/maps/place/Cafe+Y"; Dom.ariaLabel := None;
       Dom.headingText := Some EmptyString; Dom.articleHeadingText := Some "Cafe Y" |} ].

Definition page (selector : Dom.LinkSelector) : list Dom.Link :=
  match selector with
  | Dom.PlaceHrefLink => links
  | _ => []
  end.

End SampleDetails.

(** * Properties *)

(** ** Text lemmas *)

Module TextFacts.
Import Text.

Lemma startsWith_step c p d s :
  startsWith (String d s) (String c p)
  = if Ascii.eqb c d then startsWith s p else false.
Proof. reflexivity. Qed.

Lemma startsWith_cons c p d s :
  startsWith (String d s) (String c p) = true -> c = d /\ startsWith s p = true.
Proof.
  rewrite startsWith_step. destruct (Ascii.eqb c d) eqn:E1; [| discriminate].
  apply Ascii.eqb_eq in E1. auto.
Qed.

Lemma startsWith_cons_same c p s :
  startsWith s p = true -> startsWith (String c s) (String c p) = true.
Proof.
  rewrite startsWith_step, Ascii.eqb_refl. auto.
Qed.

Lemma startsWith_nil s : startsWith s EmptyString = true.
Proof. destruct s; reflexivity. Qed.

Lemma startsWith_marker_slash c s :
  Ascii.eqb "/" c = false -> startsWith (String c s) commentMarker = false.
Proof.
  intros Hc. unfold commentMarker. rewrite startsWith_step, Hc. reflexivity.
Qed.

Lemma trimEnd_keeps p : forall s,
  plain p = true -> startsWith s p = true -> startsWith (trimEnd s) p = true.
Proof.
  induction p as [| c p IH]; intros s Hp Hs.
  - apply startsWith_nil.
  - destruct s as [| d s]; [discriminate |].
    apply startsWith_cons in Hs as [<- Hs].
    simpl in Hp. apply andb_true_iff in Hp as [Hc Hp].
    apply andb_true_iff in Hc as [Hsp _].
    simpl. destruct (is_space c); [discriminate |]. simpl.
    apply startsWith_cons_same, IH; assumption.
Qed.

Lemma stripTrailingComment_keeps p : forall s,
  plain p = true -> startsWith s p = true ->
  startsWith (stripTrailingComment s) p = true.
Proof.
  induction p as [| c p IH]; intros s Hp Hs.
  - apply startsWith_nil.
  - destruct s as [| d s]; [discriminate |].
    apply startsWith_cons in Hs as [<- Hs].
    simpl in Hp. apply andb_true_iff in Hp as [Hc Hp].
    apply andb_true_iff in Hc as [_ Hsl].
    apply negb_true_iff in Hsl.
    cbn [stripTrailingComment]. rewrite (startsWith_marker_slash _ _ Hsl). simpl.
    apply startsWith_cons_same, IH; assumption.
Qed.

Lemma trimStart_unchanged c s : is_space c = false -> trimStart (String c s) = String c s.
Proof. intros Hc; simpl; rewrite Hc; reflexivity. Qed.

Lemma stripLeadingGuard_unchanged c s :
  Ascii.eqb ")" c = false -> stripLeadingGuard (String c s) = String c s.
Proof.
  intros Hc. unfold stripLeadingGuard, xssiGuard. rewrite startsWith_step, Hc. reflexivity.
Qed.

End TextFacts.

Section DecoderFacts.
Context `{Runtime}.

(** A marker of an HTML document survives the cleaning of the body. *)
Lemma clean_keeps_marker (p body : string) c p' :
  p = String c p' -> Text.plain p = true -> Ascii.eqb ")" c = false ->
  Text.startsWith body p = true ->
  Text.startsWith (cleanGoogleResponse body) p = true.
Proof.
  intros -> Hp Hc Hs. unfold cleanGoogleResponse, Text.trim.
  destruct body as [| d body]; [discriminate |].
  pose proof (TextFacts.startsWith_cons _ _ _ _ Hs) as [<- _].
  assert (Hsp : Text.is_space c = false).
  { simpl in Hp. destruct (Text.is_space c); [discriminate | reflexivity]. }
  rewrite (TextFacts.trimStart_unchanged _ _ Hsp).
  pose proof (TextFacts.trimEnd_keeps _ _ Hp Hs) as H1.
  pose proof (TextFacts.stripTrailingComment_keeps _ _ Hp H1) as H2.
  destruct (Text.stripTrailingComment (Text.trimEnd (String c body))) as [| e rest] eqn:E;
    [discriminate |].
  pose proof (TextFacts.startsWith_cons _ _ _ _ H2) as [<- _].
  rewrite (TextFacts.stripLeadingGuard_unchanged _ _ Hc). exact H2.
Qed.

Lemma looksLikeHtml_clean body :
  looksLikeHtml body = true -> looksLikeHtml (cleanGoogleResponse body) = true.
Proof.
  unfold looksLikeHtml. intros Hb.
  apply orb_true_iff in Hb as [Hb | Hb]; [apply orb_true_iff in Hb as [Hb | Hb] |].
  - rewrite (clean_keeps_marker "<!DOCTYPE" body _ _ eq_refl eq_refl eq_refl Hb).
    reflexivity.
  - rewrite (clean_keeps_marker "<html" body _ _ eq_refl eq_refl eq_refl Hb).
    rewrite orb_true_r. reflexivity.
  - rewrite (clean_keeps_marker "<HTML" body _ _ eq_refl eq_refl eq_refl Hb).
    rewrite orb_true_r. reflexivity.
Qed.

Lemma looksLikeHtml_not_empty s : looksLikeHtml s = true -> Text.is_empty s = false.
Proof. destruct s; [discriminate | reflexivity]. Qed.

(** What the decoder classifies before it parses. Decoding a body that is
    empty once the envelope artifacts are stripped yields no record and the
    error for an empty body; decoding a body that begins with one of the
    three prefixes that [looksLikeHtml] compares yields no record and the
    error for HTML instead of JSON; either result has an error, which an
    empty successful result has not. This holds for both kinds of
    response. *)
Lemma empty_and_html_bodies_are_hard_errors (body : string) (kind : bool) :
  (cleanGoogleResponse body = EmptyString ->
   parseSearchPlacesResponseBody body kind
   = {| placesPaginationData := []; error := Some ResponseBodyIsEmpty |})
  /\ (looksLikeHtml body = true ->
      parseSearchPlacesResponseBody body kind
      = {| placesPaginationData := []; error := Some ResponseBodyIsHtml |})
  /\ (cleanGoogleResponse body = EmptyString \/ looksLikeHtml body = true ->
      error (parseSearchPlacesResponseBody body kind) <> None).
Proof.
  assert (Hempty : cleanGoogleResponse body = EmptyString ->
    parseSearchPlacesResponseBody body kind
    = {| placesPaginationData := []; error := Some ResponseBodyIsEmpty |}).
  { intros E. unfold parseSearchPlacesResponseBody, parseStage. rewrite E. reflexivity. }
  assert (Hhtml : looksLikeHtml body = true ->
    parseSearchPlacesResponseBody body kind
    = {| placesPaginationData := []; error := Some ResponseBodyIsHtml |}).
  { intros E. apply looksLikeHtml_clean in E.
    unfold parseSearchPlacesResponseBody, parseStage.
    rewrite (looksLikeHtml_not_empty _ E), E. reflexivity. }
  split; [exact Hempty | split; [exact Hhtml |]].
  intros [E | E]; [rewrite (Hempty E) | rewrite (Hhtml E)]; discriminate.
Qed.

End DecoderFacts.

(** The empty body, a body made of a guard and a trailing comment only, and
    an HTML page whose doctype is written in capitals. *)
Lemma empty_and_html_bodies_witness :
  parseSearchPlacesResponseBody EmptyString false
  = {| placesPaginationData := []; error := Some ResponseBodyIsEmpty |}
  /\ parseSearchPlacesResponseBody (" )]}'  " +:+ Text.commentMarker +:+ " ") false
     = {| placesPaginationData := []; error := Some ResponseBodyIsEmpty |}
  /\ parseSearchPlacesResponseBody "<!DOCTYPE html><html><body>Sorry</body></html>" true
     = {| placesPaginationData := []; error := Some ResponseBodyIsHtml |}.
Proof.
  split; [| split].
  - apply (empty_and_html_bodies_are_hard_errors EmptyString false). reflexivity.
  - apply (empty_and_html_bodies_are_hard_errors _ false). reflexivity.
  - apply (empty_and_html_bodies_are_hard_errors _ true). reflexivity.
Defined.

(** C6, the code on HTML documents in other spellings. The test for an
    HTML document compares three prefixes letter by letter, [<!DOCTYPE],
    [<html] and [<HTML]. A document that begins with the doctype in small
    letters, or with the tag written [<Html>], passes the test unrecognised
    and goes on to the JSON parser: the decoder yields no record and the
    error of a body that is no valid JSON, not the error for HTML instead of
    JSON, for both kinds of response. The same document with the doctype in
    capitals is classified as HTML. *)
Theorem html_in_other_spellings_is_not_classified :
  let lower := "<!doctype html><html><body>Sorry</body></html>" in
  let mixed := "<Html><body>Sorry</body></Html>" in
  let upper := "<!DOCTYPE html><html><body>Sorry</body></html>" in
  looksLikeHtml (cleanGoogleResponse lower) = false
  /\ looksLikeHtml (cleanGoogleResponse mixed) = false
  /\ (forall kind, exists e2,
        parseSearchPlacesResponseBody lower kind
        = {| placesPaginationData := []; error := Some (NotValidJson e2) |})
  /\ (forall kind, exists e2,
        parseSearchPlacesResponseBody mixed kind
        = {| placesPaginationData := []; error := Some (NotValidJson e2) |})
  /\ (forall kind,
        error (parseSearchPlacesResponseBody lower kind) <> Some ResponseBodyIsHtml
        /\ error (parseSearchPlacesResponseBody mixed kind) <> Some ResponseBodyIsHtml)
  /\ (forall kind,
        parseSearchPlacesResponseBody upper kind
        = {| placesPaginationData := []; error := Some ResponseBodyIsHtml |}).
Proof.
  cbv zeta. split; [reflexivity | split; [reflexivity |]].
  split; [intros [|]; eexists; vm_compute; reflexivity |].
  split; [intros [|]; eexists; vm_compute; reflexivity |].
  split; [intros [|]; split; vm_compute; discriminate |].
  intros [|]; vm_compute; reflexivity.
Qed.

(** ** Identity of place ids *)

Lemma prim_eqb_trans a b c :
  prim_eqb a b = true -> prim_eqb b c = true -> prim_eqb a c = true.
Proof.
  destruct a, b; simpl; try discriminate; destruct c; simpl; try discriminate; auto.
  - intros E1 E2. apply Bool.eqb_prop in E1, E2. subst. apply Bool.eqb_reflx.
  - unfold num_eqb. rewrite !Qeq_bool_iff. intros E1 E2. rewrite E1. exact E2.
  - intros E1 E2. apply String.eqb_eq in E1, E2. subst. apply String.eqb_refl.
Qed.

Lemma key_eqb_trans a b c :
  key_eqb a b = true -> key_eqb b c = true -> key_eqb a c = true.
Proof.
  destruct a, b; simpl; try discriminate; destruct c; simpl; try discriminate.
  - apply prim_eqb_trans.
  - intros E1 E2. apply bool_decide_eq_true in E1, E2. subst.
    apply bool_decide_eq_true. reflexivity.
Qed.

Lemma setHas_app seen more k : setHas (seen ++ more) k = setHas seen k || setHas more k.
Proof. unfold setHas. apply existsb_app. Qed.

Lemma setHas_trans seen k k' :
  key_eqb k' k = true -> setHas seen k = true -> setHas seen k' = true.
Proof.
  unfold setHas. rewrite !existsb_exists. intros E [x [Hin Hx]].
  exists x. split; [exact Hin | eapply key_eqb_trans; eassumption].
Qed.


Lemma key_eqb_string_r i k :
  key_eqb k (KeyPrim (JString i)) = true -> k = KeyPrim (JString i).
Proof.
  destruct k as [v | p]; simpl; [| discriminate].
  destruct v; simpl; try discriminate.
  intros E. apply String.eqb_eq in E. subst. reflexivity.
Qed.

Lemma key_eqb_string_refl i : key_eqb (KeyPrim (JString i)) (KeyPrim (JString i)) = true.
Proof. simpl. apply String.eqb_refl. Qed.


Section DedupFacts.
Context `{Runtime}.




(** The loop of the decoder keeps a set of the ids it pushed; the
    specification compares with every earlier id. The two agree. *)
Lemma pushOrganic_firstSeenFrom found : forall seen earlier acc,
  (forall k, setHas seen k = setHas earlier k) ->
  pushOrganic found seen acc = acc ++ firstSeenFrom earlier (omap organicEntry found).
Proof.
  induction found as [| [path node] found IH]; intros seen earlier acc Hsame.
  - simpl. rewrite app_nil_r. reflexivity.
  - cbn [pushOrganic omap list_omap]. unfold organicEntry at 1. cbn [fst snd].
    destruct (parseJsonResult node false) as [p |]; [| apply IH; exact Hsame].
    destruct (Js.truthy (placeId p)); [| apply IH; exact Hsame].
    cbn [firstSeenFrom]. rewrite <- Hsame.
    destruct (setHas seen (idKeyOf path (placeId p))) eqn:Eseen.
    + simpl. apply IH. intros k. rewrite setHas_app, <- Hsame.
      destruct (setHas seen k) eqn:Ek; [reflexivity |]. simpl. unfold setHas; simpl.
      rewrite orb_false_r.
      destruct (key_eqb k (idKeyOf path (placeId p))) eqn:Ekk; [| reflexivity].
      rewrite (setHas_trans _ _ _ Ekk Eseen) in Ek. discriminate.
    + rewrite (IH (idKeyOf path (placeId p) :: seen)
                 (earlier ++ [idKeyOf path (placeId p)]) (acc ++ [p])).
      * rewrite <- app_assoc. reflexivity.
      * intros k. rewrite setHas_app, <- Hsame. unfold setHas; simpl.
        rewrite orb_false_r. apply orb_comm.
Qed.




(** The wrapper pattern: the search pushes the candidate inside a pair of
    null and candidate, then meets it again among the children of the pair. *)
Lemma wrapper_is_found_twice c depth path :
  isPlaceDataCandidate c = true -> (depth < 6)%nat ->
  collectPlacesRecursively (JArray [JNull; c]) depth 6 path
  = [(path ++ [1%nat], c); (path ++ [1%nat], c)].
Proof.
  intros Hc Hd. destruct c; try discriminate.
  cbn [collectPlacesRecursively].
  assert (H1 : (6 <? depth)%nat = false) by (apply Nat.ltb_ge; lia).
  assert (H2 : (6 <? S depth)%nat = false) by (apply Nat.ltb_ge; lia).
  rewrite H1, H2, Hc. cbn [Js.isArray negb orb].
  change (isPlaceDataCandidate (JArray [JNull; JArray items])) with false.
  cbn [Js.arrayLength length Nat.leb Js.idx nth andb].
  rewrite Hc. reflexivity.
Qed.

(** A wrapped candidate with a truthy id gives one record. *)
Lemma wrapped_candidate_gives_one_record c p acc :
  isPlaceDataCandidate c = true ->
  parseJsonResult c false = Some p ->
  Js.truthy (placeId p) = true ->
  pushOrganic (collectPlacesRecursively (JArray [JNull; c]) 0 6 []) [] acc = acc ++ [p].
Proof.
  intros Hc Hp Ht. rewrite (wrapper_is_found_twice c 0 [] Hc) by lia.
  cbn [pushOrganic]. rewrite Hp, Ht. cbn [setHas existsb].
  assert (Hsame : key_eqb (idKeyOf ([] ++ [1%nat]) (placeId p))
                    (idKeyOf ([] ++ [1%nat]) (placeId p)) = true).
  { destruct (placeId p); try discriminate; simpl; try reflexivity.
    - apply Bool.eqb_reflx.
    - unfold num_eqb. apply Qeq_bool_iff. reflexivity.
    - apply String.eqb_refl. }
  rewrite Hsame. reflexivity.
Qed.

End DedupFacts.

(** ** The decoder on a search response *)

Section SearchFacts.
Context `{Runtime}.

Lemma search_output body data ads :
  searchDecodes body data ads ->
  parseSearchPlacesResponseBody body false
  = {| placesPaginationData := ads ++ firstSeen (organicEntries data); error := None |}.
Proof.
  intros [jo [Hstage [Hlocate Hads]]].
  unfold parseSearchPlacesResponseBody, decodeSearchPage, organicEntries, firstSeen.
  rewrite Hstage, Hlocate, Hads.
  destruct (collectPlacesRecursively data 0 6 []) as [| c found] eqn:Efound.
  - simpl. rewrite app_nil_r. reflexivity.
  - cbn [length Nat.eqb]. f_equal. apply pushOrganic_firstSeenFrom. reflexivity.
Qed.

Lemma parseJsonResult_flag v flag p :
  parseJsonResult v flag = Some p -> isAdvertisement p = flag.
Proof.
  unfold parseJsonResult. destruct (negb (Js.truthy v)); [discriminate |].
  intros [= <-]. reflexivity.
Qed.

Lemma pushAds_are_ads ads : forall acc acc' e,
  Forall (fun r => isAdvertisement r = true) acc ->
  pushAds ads acc = (acc', e) ->
  Forall (fun r => isAdvertisement r = true) acc'.
Proof.
  induction ads as [| ad ads IH]; intros acc acc' e Hacc; simpl.
  - intros [= <- _]. exact Hacc.
  - destruct (Js.get ad 15) as [ex | v]; [intros [= <- _]; exact Hacc |].
    destruct (parseJsonResult v true) as [p |] eqn:Ep.
    + apply IH. apply Forall_app. split; [exact Hacc |].
      constructor; [eapply parseJsonResult_flag; eassumption | constructor].
    + apply IH. exact Hacc.
Qed.

Lemma extractAds_are_ads data ads e :
  extractAds data [] = (ads, e) -> Forall (fun r => isAdvertisement r = true) ads.
Proof.
  unfold extractAds. destruct (adsOf data) as [ex | v].
  - intros [= <- _]. constructor.
  - destruct v; try (intros [= <- _]; constructor).
    apply pushAds_are_ads. constructor.
Qed.







(** A search response decodes without an error exactly when the three steps
    before the structural search succeed. *)
Lemma search_error_free body :
  error (parseSearchPlacesResponseBody body false) = None
  <-> exists data ads, searchDecodes body data ads.
Proof.
  split.
  - unfold parseSearchPlacesResponseBody, decodeSearchPage, searchDecodes.
    destruct (parseStage body) as [err | jo]; [discriminate |].
    destruct (locatePayload jo) as [e | [err | data]] eqn:El; try discriminate.
    destruct (extractAds data []) as [ads [e |]] eqn:Eads; [discriminate |].
    intros _. exists data, ads, jo. auto.
  - intros [data [ads Hd]]. rewrite (search_output _ _ _ Hd). reflexivity.
Qed.

(** C7, as the code has it. For a search response that passes the parse
    stage, whose payload is located and whose advertisements are extracted
    without an exception, a structural search that finds no candidate gives
    the advertisement records, which may be none, and no error. For a detail
    preview response that passes the parse stage to a tree other than null,
    a value at index 6 that is not truthy gives no record and no error. A
    search response has an error exactly when the parse stage, the locating
    of the payload or the extraction of the advertisements fails. *)
Theorem zero_candidates_keep_the_advertisements (body : string) :
  (forall data ads,
     searchDecodes body data ads ->
     collectPlacesRecursively data 0 6 [] = [] ->
     parseSearchPlacesResponseBody body false
     = {| placesPaginationData := ads; error := None |})
  /\ (forall jsonObject v,
        parseStage body = inr jsonObject ->
        Js.get jsonObject 6 = inr v ->
        Js.truthy v = false ->
        parseSearchPlacesResponseBody body true
        = {| placesPaginationData := []; error := None |})
  /\ (error (parseSearchPlacesResponseBody body false) = None
      <-> exists data ads, searchDecodes body data ads).
Proof.
  split; [| split; [| apply search_error_free]].
  - intros data ads Hd Hnone. rewrite (search_output _ _ _ Hd).
    unfold organicEntries. rewrite Hnone. simpl. rewrite app_nil_r. reflexivity.
  - intros jo v Hstage Hget Hfalsy.
    unfold parseSearchPlacesResponseBody, decodeDetailPreview.
    rewrite Hstage, Hget. unfold parseJsonResult. rewrite Hfalsy. reflexivity.
Qed.

(** C3, as the code has it. For a search response: when the wrapped body
    parses to a tree whose field d is a truthy value that unstringifies to
    the document [inner], the unwrapped body parses to the same [inner], and
    [inner] has no truthy field d of its own, both bodies decode to the same
    records and the same error. *)
Theorem wrapped_search_payload_decodes_like_inner
  (wrapped unwrapped : string) (outer d inner notWrapper : json) :
  parseStage wrapped = inr outer ->
  Js.field outer "d" = inr d ->
  Js.truthy d = true ->
  unstringifyGoogleXrhResponse d = inr inner ->
  parseStage unwrapped = inr inner ->
  Js.field inner "d" = inr notWrapper ->
  Js.truthy notWrapper = false ->
  parseSearchPlacesResponseBody wrapped false
  = parseSearchPlacesResponseBody unwrapped false.
Proof.
  intros Hw Hd Ht Hu Hi Hn Hf.
  unfold parseSearchPlacesResponseBody, decodeSearchPage. rewrite Hw, Hi.
  assert (Hl1 : locatePayload outer = inr (inr inner)).
  { unfold locatePayload. rewrite Hd. simpl. rewrite Ht, Hu. reflexivity. }
  assert (Hl2 : locatePayload inner = inr (inr inner)).
  { unfold locatePayload. rewrite Hn. simpl. rewrite Hf. reflexivity. }
  rewrite Hl1, Hl2. reflexivity.
Qed.

End SearchFacts.

(** ** The decoder on the sample bodies *)

Lemma sample_searchDecodes (text : string) :
  parseStage text = inr (Sample.parsed text) ->
  locatePayload (Sample.parsed text) = inr (inr (Sample.parsed text)) ->
  snd (extractAds (Sample.parsed text) []) = None ->
  searchDecodes text (Sample.parsed text) (fst (extractAds (Sample.parsed text) [])).
Proof.
  intros Hs Hl He. exists (Sample.parsed text). split; [exact Hs | split; [exact Hl |]].
  destruct (extractAds (Sample.parsed text) []) as [ads e]. simpl in *. subst. reflexivity.
Defined.




(** [Sample.adOnlyBody] parses, its structural search finds no candidate,
    and yet the decoder outputs a record, the advertisement; the body null
    parses, has no candidate, and the decoder reports an error. *)
Lemma zero_candidates_counterexample :
  let data := Sample.parsed Sample.adOnlyBody in
  (parseStage Sample.adOnlyBody = inr data
   /\ locatePayload data = inr (inr data)
   /\ collectPlacesRecursively data 0 6 [] = []
   /\ map placeId (placesPaginationData
                     (parseSearchPlacesResponseBody Sample.adOnlyBody false))
      = [JString "ad1"])
  /\ (parseStage "null" = inr JNull
      /\ collectPlacesRecursively JNull 0 6 [] = []
      /\ parseSearchPlacesResponseBody "null" false
         = {| placesPaginationData := [];
              error := Some (FailedParsingJsonResponse
                               (TypeError "Cannot read properties of null or undefined")) |}).
Proof. vm_compute. repeat split; reflexivity. Qed.

Lemma zero_candidates_witness :
  parseSearchPlacesResponseBody Sample.adOnlyBody false
  = {| placesPaginationData := fst (extractAds (Sample.parsed Sample.adOnlyBody) []);
       error := None |}
  /\ parseSearchPlacesResponseBody "[1,2,3]" true
     = {| placesPaginationData := []; error := None |}.
Proof.
  split.
  - apply (proj1 (zero_candidates_keep_the_advertisements Sample.adOnlyBody)
             (Sample.parsed Sample.adOnlyBody)).
    + apply (sample_searchDecodes Sample.adOnlyBody); vm_compute; reflexivity.
    + vm_compute. reflexivity.
  - apply (proj1 (proj2 (zero_candidates_keep_the_advertisements "[1,2,3]"))
             (Sample.parsed "[1,2,3]") JUndefined); vm_compute; reflexivity.
Defined.

(** A detail preview payload in the wrapper: the wrapped body is a valid
    two-layer payload of the document that the unwrapped body holds, and yet
    the wrapped body decodes to no record and the unwrapped body to one. *)
Lemma wrapped_preview_counterexample :
  let wrapped := Sample.wrap (Sample.previewInner Sample.escapedQuoted) in
  let unwrapped := Sample.guarded (Sample.previewInner Sample.quoted) in
  let inner := Sample.parsed (Sample.previewInner Sample.quoted) in
  (exists outer d,
     parseStage wrapped = inr outer
     /\ Js.field outer "d" = inr d
     /\ Js.truthy d = true
     /\ unstringifyGoogleXrhResponse d = inr inner
     /\ parseStage unwrapped = inr inner
     /\ Js.field inner "d" = inr JUndefined)
  /\ parseSearchPlacesResponseBody wrapped true
     = {| placesPaginationData := []; error := None |}
  /\ map placeId (placesPaginationData (parseSearchPlacesResponseBody unwrapped true))
     = [JString "id1"].
Proof.
  intros wrapped unwrapped inner. split; [| split; vm_compute; reflexivity].
  exists (Sample.parsed (cleanGoogleResponse wrapped)).
  exists (JString (Sample.guarded (Sample.previewInner Sample.quoted))).
  repeat split; vm_compute; reflexivity.
Qed.

Lemma wrapped_search_payload_witness :
  parseSearchPlacesResponseBody (Sample.wrap (Sample.searchInner Sample.escapedQuoted)) false
  = parseSearchPlacesResponseBody (Sample.guarded (Sample.searchInner Sample.quoted)) false
  /\ map placeId (placesPaginationData
       (parseSearchPlacesResponseBody (Sample.wrap (Sample.searchInner Sample.escapedQuoted)) false))
     = [JString "id1"; JString "id2"].
Proof.
  split; [| vm_compute; reflexivity].
  apply (wrapped_search_payload_decodes_like_inner
           (Sample.wrap (Sample.searchInner Sample.escapedQuoted))
           (Sample.guarded (Sample.searchInner Sample.quoted))
           (Sample.parsed (cleanGoogleResponse (Sample.wrap (Sample.searchInner Sample.escapedQuoted))))
           (JString (Sample.guarded (Sample.searchInner Sample.quoted)))
           (Sample.parsed (Sample.searchInner Sample.quoted))
           JUndefined); vm_compute; reflexivity.
Defined.

(** ** The budget tracker keeps its counts consistent *)

Module TrackerFacts.
Import Tracker.

Lemma jsAdd_swap a b c : jsAdd a (jsAdd b c) = jsAdd b (jsAdd a c).
Proof. destruct a, b, c; simpl; try reflexivity. f_equal. lia. Qed.

Lemma sumOf_insert_fresh (m : gmap string jsint) k v :
  m !! k = None -> sumOf (<[k := v]> m) = jsAdd v (sumOf m).
Proof.
  intros Hk. unfold sumOf. apply map_fold_insert_L; [| exact Hk].
  intros. apply jsAdd_swap.
Qed.

Lemma sumOf_present (m : gmap string jsint) k x :
  m !! k = Some x -> sumOf m = jsAdd x (sumOf (delete k m)).
Proof.
  intros Hk. unfold sumOf.
  refine (map_fold_delete_L (fun _ (v acc : jsint) => jsAdd v acc) (Some 0) k x m _ Hk).
  intros. apply jsAdd_swap.
Qed.

Lemma sumOf_insert_present (m : gmap string jsint) k x v :
  m !! k = Some x -> sumOf (<[k := v]> m) = jsAdd v (sumOf (delete k m)).
Proof.
  intros Hk. rewrite <- insert_delete_eq. apply sumOf_insert_fresh, lookup_delete_eq.
Qed.

Lemma below_number limit count : below limit count = true -> exists c, count = Some c.
Proof. destruct limit, count; simpl; try discriminate; eauto. Qed.

(** A successful reservation adds one to both counts. *)
Lemma setEnqueued_true key tr tr' :
  setEnqueued key tr = (tr', true) ->
  exists c, countOf key tr = Some c
            /\ enqueuedPerSearch tr' = <[key := Some (c + 1)]> (enqueuedPerSearch tr)
            /\ enqueuedTotal tr' = enqueuedTotal tr + 1
            /\ maxCrawledPlaces tr' = maxCrawledPlaces tr
            /\ maxCrawledPlacesPerSearch tr' = maxCrawledPlacesPerSearch tr.
Proof.
  unfold setEnqueued. destruct (canEnqueueMore key tr) eqn:Ecan; [| discriminate].
  intros [= <-]. unfold canEnqueueMore in Ecan. apply andb_true_iff in Ecan as [Eper _].
  apply below_number in Eper as [c Ec]. exists c. rewrite Ec. simpl. auto.
Qed.

(** A refused reservation changes nothing. *)
Lemma setEnqueued_false key tr tr' : setEnqueued key tr = (tr', false) -> tr' = tr.
Proof.
  unfold setEnqueued. destruct (canEnqueueMore key tr); [discriminate |].
  intros [= <-]. reflexivity.
Qed.

Lemma setEnqueued_consistent key tr tr' ok :
  consistent tr -> setEnqueued key tr = (tr', ok) -> consistent tr'.
Proof.
  intros Hc Hset. destruct ok; [| apply setEnqueued_false in Hset; subst; exact Hc].
  apply setEnqueued_true in Hset as [c [Hcount [Hmap [Htotal _]]]].
  unfold consistent, sumPerSearch in *. fold (sumOf (enqueuedPerSearch tr)) in Hc.
  fold (sumOf (enqueuedPerSearch tr')). rewrite Hmap, Htotal.
  unfold countOf in Hcount.
  destruct (enqueuedPerSearch tr !! key) as [x |] eqn:Ek; simpl in Hcount.
  - subst x. rewrite (sumOf_insert_present _ _ _ _ Ek).
    rewrite (sumOf_present _ _ _ Ek) in Hc.
    destruct (sumOf (delete key (enqueuedPerSearch tr))) as [r |]; simpl in *;
      [| discriminate].
    injection Hc as Hc. f_equal. lia.
  - injection Hcount as <-. rewrite (sumOf_insert_fresh _ _ _ Ek), Hc. simpl.
    f_equal. lia.
Qed.

(** The decrement after a duplicate report undoes a reservation. *)
Lemma decrementEnqueued_consistent key tr c :
  consistent tr -> enqueuedPerSearch tr !! key = Some (Some c) ->
  consistent (decrementEnqueued key tr).
Proof.
  intros Hc Ek. unfold consistent, sumPerSearch, decrementEnqueued in *. simpl.
  fold (sumOf (enqueuedPerSearch tr)) in Hc.
  fold (sumOf (<[key := jsAdd (default None (enqueuedPerSearch tr !! key)) (Some (-1))]>
                 (enqueuedPerSearch tr))).
  rewrite (sumOf_insert_present _ _ _ _ Ek), Ek. simpl.
  rewrite (sumOf_present _ _ _ Ek) in Hc.
  destruct (sumOf (delete key (enqueuedPerSearch tr))) as [r |]; simpl in *;
    [| discriminate].
  injection Hc as Hc. f_equal. lia.
Qed.

Lemma decrement_after_reservation key tr tr' :
  setEnqueued key tr = (tr', true) ->
  enqueuedTotal (decrementEnqueued key tr') = enqueuedTotal tr
  /\ countOf key (decrementEnqueued key tr') = countOf key tr.
Proof.
  intros Hset. apply setEnqueued_true in Hset as [c [Hcount [Hmap [Htotal _]]]].
  unfold decrementEnqueued, countOf. simpl. rewrite Hmap, Htotal.
  rewrite !lookup_insert_eq. simpl. unfold countOf in Hcount. rewrite Hcount.
  split; [lia | f_equal; lia].
Qed.

Lemma unlimited_consistent : consistent unlimited.
Proof. unfold consistent, sumPerSearch, unlimited. simpl. apply map_fold_empty. Qed.

End TrackerFacts.

(** ** The response handler *)

Lemma requestsOf_app l1 l2 : requestsOf (l1 ++ l2) = requestsOf l1 ++ requestsOf l2.
Proof.
  induction l1 as [| e l1 IH]; [reflexivity |].
  destruct e; simpl; rewrite ?IH; reflexivity.
Qed.

Section HandlerFacts.
Context `{Runtime} `{Collaborators}.

(** C8. In queue mode, for a record inside the geofence: the handler first
    asks the tracker for a reservation, which on success has incremented the
    global count and the count of the search before the request is submitted;
    a refused reservation ends the loop with nothing changed. [enqueued]
    grows by one only if the queue reports the key as new; if it reports the
    key as present both counts are decremented by one, which restores them.
    If the global count equals the sum of the counts per search before the
    record is handled, it does so after. *)
Theorem speculative_reservation_is_compensated
  (o : Options) (pn : jsint) (url : string) (index : Z)
  (p : PlacePaginationData) (g : Progress) :
  exportPlaceUrls o = false ->
  checkInPolygon (geolocation o) (coords p) = true ->
  let key := searchKeyOf o in
  let before := tracker (shared g) in
  let request := placeRequest o (rankOf pn index) url p in
  let g' := fst (handlePlace o pn url index p g) in
  let after := tracker (shared g') in
  match Tracker.setEnqueued key before with
  | (_, false) =>
      snd (handlePlace o pn url index p g) = Break
      /\ after = before
      /\ enqueuedNow g' = enqueuedNow g
      /\ requestsOf (effects (shared g')) = requestsOf (effects (shared g))
  | (reserved, true) =>
      Tracker.enqueuedTotal reserved = Tracker.enqueuedTotal before + 1
      /\ Tracker.countOf key reserved = jsAdd (Tracker.countOf key before) (Some 1)
      /\ requestsOf (effects (shared g')) = requestsOf (effects (shared g)) ++ [request]
      /\ match addRequest (requestQueue (shared g)) request with
         | (_, false) => after = reserved /\ enqueuedNow g' = enqueuedNow g + 1
         | (_, true) =>
             after = Tracker.decrementEnqueued key reserved
             /\ enqueuedNow g' = enqueuedNow g
             /\ Tracker.enqueuedTotal after = Tracker.enqueuedTotal before
             /\ Tracker.countOf key after = Tracker.countOf key before
         end
  end
  /\ (Tracker.consistent before -> Tracker.consistent after).
Proof.
  intros Hmode Hgeo key before request g' after.
  subst g' after. unfold handlePlace. rewrite Hgeo, Hmode. cbn [negb].
  change (tracker (emit _ (shared g))) with before.
  fold key. destruct (Tracker.setEnqueued key before) as [reserved ok] eqn:Eset.
  destruct ok; cbn [negb].
  - pose proof (TrackerFacts.setEnqueued_true _ _ _ Eset) as [c [Hc [Hmap [Htot _]]]].
    change (requestQueue (withTracker reserved (emit _ (shared g))))
      with (requestQueue (shared g)).
    fold request.
    destruct (addRequest (requestQueue (shared g)) request) as [q present] eqn:Eadd.
    assert (Hcount : Tracker.countOf key reserved = jsAdd (Tracker.countOf key before) (Some 1)).
    { unfold Tracker.countOf at 1. rewrite Hmap, lookup_insert_eq, Hc. reflexivity. }
    destruct present; cbn [negb fst snd shared enqueuedNow tracker withTracker emit
                           withQueue effects].
    + pose proof (TrackerFacts.decrement_after_reservation _ _ _ Eset) as [Ht Hk].
      split.
      * split; [exact Htot | split; [exact Hcount | split]].
        -- rewrite !requestsOf_app. simpl. rewrite app_nil_r. reflexivity.
        -- auto.
      * intros Hcons.
        apply (TrackerFacts.decrementEnqueued_consistent key reserved (c + 1)).
        -- eapply TrackerFacts.setEnqueued_consistent; eassumption.
        -- rewrite Hmap. apply lookup_insert_eq.
    + split.
      * split; [exact Htot | split; [exact Hcount | split]].
        -- rewrite !requestsOf_app. simpl. rewrite app_nil_r. reflexivity.
        -- auto.
      * intros Hcons. eapply TrackerFacts.setEnqueued_consistent; eassumption.
  - pose proof (TrackerFacts.setEnqueued_false _ _ _ Eset) as ->.
    cbn [fst snd shared enqueuedNow tracker emit effects].
    split; [| auto]. repeat split.
    rewrite requestsOf_app. simpl. rewrite app_nil_r. reflexivity.
Qed.

(** Handling a record keeps the counts of the tracker consistent, in either
    mode and whatever the geofence says. *)
Lemma handlePlace_consistent o pn url index p g :
  Tracker.consistent (tracker (shared g)) ->
  Tracker.consistent (tracker (shared (fst (handlePlace o pn url index p g)))).
Proof.
  intros Hcons. unfold handlePlace.
  destruct (negb (checkInPolygon (geolocation o) (coords p))); [exact Hcons |].
  destruct (exportPlaceUrls o).
  - destruct (exportUrlsDeduper (emit (AddLocation (placeId p) (coords p) (searchString o))
                                   (shared g))) as [d |].
    + destruct (testDuplicateAndAdd d (placeId p)) as [d' dup].
      destruct dup;
        repeat match goal with
               | |- context [if ?b then _ else _] => destruct b
               end; exact Hcons.
    + repeat match goal with
             | |- context [if ?b then _ else _] => destruct b
             end; exact Hcons.
  - change (tracker (emit (AddLocation (placeId p) (coords p) (searchString o)) (shared g)))
      with (tracker (shared g)).
    destruct (Tracker.setEnqueued (searchKeyOf o) (tracker (shared g)))
      as [tr reserved] eqn:Eset.
    pose proof (TrackerFacts.setEnqueued_consistent _ _ _ _ Hcons Eset) as Hres.
    destruct reserved; cbn [negb]; [| exact Hcons].
    match goal with
    | |- context [addRequest ?q ?r] => destruct (addRequest q r) as [q' present]
    end.
    destruct present; cbn [negb fst shared tracker emit withTracker withQueue];
      [| exact Hres].
    pose proof (TrackerFacts.setEnqueued_true _ _ _ Eset) as [c [_ [Hmap _]]].
    apply (TrackerFacts.decrementEnqueued_consistent _ _ (c + 1) Hres).
    rewrite Hmap. apply lookup_insert_eq.
Qed.

Lemma handlePlaces_consistent o pn url places : forall index g,
  Tracker.consistent (tracker (shared g)) ->
  Tracker.consistent (tracker (shared (handlePlaces o pn url index places g))).
Proof.
  induction places as [| p places IH]; intros index g Hcons; [exact Hcons |].
  cbn [handlePlaces].
  pose proof (handlePlace_consistent o pn url (index + 1) p g Hcons) as Hstep.
  destruct (handlePlace o pn url (index + 1) p g) as [g1 flow].
  destruct flow; [apply IH |]; exact Hstep.
Qed.

Lemma responseHandler_consistent o response ps s :
  Tracker.consistent (tracker s) ->
  Tracker.consistent (tracker (snd (responseHandler o response (ps, s)))).
Proof.
  intros Hcons. unfold responseHandler.
  destruct (negb (isSearchPage response) && negb (isDetailPreviewPage response));
    [exact Hcons |].
  cbn [snd]. apply handlePlaces_consistent. exact Hcons.
Qed.

Lemma handleResponses_consistent o responses : forall st,
  Tracker.consistent (tracker (snd st)) ->
  Tracker.consistent (tracker (snd (handleResponses o responses st))).
Proof.
  unfold handleResponses.
  induction responses as [| r responses IH]; intros [ps s] Hcons; [exact Hcons |].
  cbn [fold_left]. apply IH.
  pose proof (responseHandler_consistent o r ps s Hcons) as Hstep.
  destruct (responseHandler o r (ps, s)). exact Hstep.
Qed.

Lemma enqueueDomPlaces_consistent o url places : forall st,
  Tracker.consistent (tracker (snd st)) ->
  Tracker.consistent (tracker (snd (enqueueDomPlaces o url places st))).
Proof.
  induction places as [| d places IH]; intros [ps s] Hcons; [exact Hcons |].
  cbn [enqueueDomPlaces].
  destruct (Tracker.setEnqueued (searchKeyOf o) (tracker s)) as [tr reserved] eqn:Eset.
  pose proof (TrackerFacts.setEnqueued_consistent _ _ _ _ Hcons Eset) as Hres.
  destruct reserved; cbn [negb]; [| exact Hcons].
  destruct (addRequest (requestQueue (withTracker tr s)) (domRequest o ps url d))
    as [q present].
  apply IH. exact Hres.
Qed.

(** The scrolling loop keeps the counts of the tracker consistent: after any
    sequence of reservations and decrements the global count is the sum of
    the counts per search. *)
Lemma iteration_consistent o t st :
  Tracker.consistent (tracker (world st)) ->
  Tracker.consistent (tracker (world (fst (iteration o t st)))).
Proof.
  intros Hcons. unfold iteration.
  pose proof (handleResponses_consistent o (arrivedBefore t) (pageStats st, world st) Hcons)
    as H1.
  destruct (handleResponses o (arrivedBefore t) (pageStats st, world st)) as [ps s].
  cbn [snd] in H1.
  set (fallback := (2 <? PageStats.pageNum ps) && (PageStats.totalFound ps =? 0)).
  assert (H2 : Tracker.consistent (tracker (if fallback then emit SaveScreenshot s else s)))
    by (destruct fallback; exact H1).
  destruct (fallback && (0 <? length (domPlaces t))%nat).
  - pose proof (enqueueDomPlaces_consistent o (pageUrl t) (domPlaces t)
                  (ps, emit SaveDomPlaces (if fallback then emit SaveScreenshot s else s)) H2)
      as H3.
    destruct (enqueueDomPlaces _ _ _ _) as [ps' s']. exact H3.
  - pose proof (handleResponses_consistent o (arrivedWhileProbing t)
                  (ps, if fallback then emit SaveScreenshot s else s) H2) as H3.
    destruct (handleResponses o (arrivedWhileProbing t) _) as [ps2 s2].
    cbn [snd] in H3.
    destruct (stopChecks o _) as [[| | | message | | | |] |]; try exact H3.
    cbn [fst world]. destruct (PageStats.error ps2); exact H3.
Qed.

Lemma scrollingLoop_consistent o ticks : forall st,
  Tracker.consistent (tracker (world st)) ->
  Tracker.consistent (tracker (world (fst (scrollingLoop o ticks st)))).
Proof.
  induction ticks as [| t ticks IH]; intros st Hcons; [exact Hcons |].
  cbn [scrollingLoop].
  pose proof (iteration_consistent o t st Hcons) as Hstep.
  destruct (iteration o t st) as [st' [out |]]; [exact Hstep | apply IH; exact Hstep].
Qed.

(** What one turn of the handler's loop submits to the queue. In export
    mode nothing; in queue mode nothing for a record outside the geofence,
    and for a record inside it the request with the rank of its position if
    the budget has room for a reservation, else nothing, the loop ending
    with the tracker as it was. *)
Lemma handlePlace_requests o pn url index p g :
  let g' := fst (handlePlace o pn url index p g) in
  let flow := snd (handlePlace o pn url index p g) in
  let same := requestsOf (effects (shared g')) = requestsOf (effects (shared g)) in
  if exportPlaceUrls o then same
  else if checkInPolygon (geolocation o) (coords p) then
    if Tracker.canEnqueueMore (searchKeyOf o) (tracker (shared g)) then
      flow = Next
      /\ requestsOf (effects (shared g'))
         = requestsOf (effects (shared g)) ++ [placeRequest o (rankOf pn index) url p]
    else flow = Break /\ same /\ tracker (shared g') = tracker (shared g)
  else flow = Next /\ same.
Proof.
  cbv zeta. unfold handlePlace.
  destruct (exportPlaceUrls o).
  - destruct (negb (checkInPolygon (geolocation o) (coords p))).
    { cbn [fst shared effects emit]. rewrite !requestsOf_app. simpl.
      rewrite !app_nil_r. reflexivity. }
    destruct (exportUrlsDeduper (emit (AddLocation (placeId p) (coords p) (searchString o))
                                   (shared g))) as [d |].
    + destruct (testDuplicateAndAdd d (placeId p)) as [d' dup].
      destruct dup;
        repeat match goal with
               | |- context [if ?b then _ else _] => destruct b
               end;
        cbn [fst shared effects emit withDeduper withPushBudget];
        rewrite ?requestsOf_app; simpl; rewrite ?app_nil_r; reflexivity.
    + repeat match goal with
             | |- context [if ?b then _ else _] => destruct b
             end;
        cbn [fst shared effects emit withDeduper withPushBudget];
        rewrite ?requestsOf_app; simpl; rewrite ?app_nil_r; reflexivity.
  - destruct (checkInPolygon (geolocation o) (coords p)); cbn [negb].
    + change (tracker (emit (AddLocation (placeId p) (coords p) (searchString o)) (shared g)))
        with (tracker (shared g)).
      unfold Tracker.setEnqueued.
      destruct (Tracker.canEnqueueMore (searchKeyOf o) (tracker (shared g))); cbn [negb].
      * match goal with
        | |- context [addRequest ?q ?r] => destruct (addRequest q r) as [q' present]
        end.
        destruct present; cbn [negb fst snd shared effects emit withTracker withQueue];
          rewrite ?requestsOf_app; simpl; rewrite ?app_nil_r; auto.
      * cbn [fst snd shared effects emit tracker]. rewrite ?requestsOf_app. simpl.
        rewrite ?app_nil_r. auto.
    + cbn [fst snd shared effects emit]. rewrite !requestsOf_app. simpl.
      rewrite !app_nil_r. auto.
Qed.

(** The loop over the places in export mode submits nothing. *)
Lemma handlePlaces_requests_export o pn url places : forall index g,
  exportPlaceUrls o = true ->
  requestsOf (effects (shared (handlePlaces o pn url index places g)))
  = requestsOf (effects (shared g)).
Proof.
  induction places as [| p places IH]; intros index g Hmode; [reflexivity |].
  cbn [handlePlaces].
  pose proof (handlePlace_requests o pn url (index + 1) p g) as Hstep.
  cbv zeta in Hstep. rewrite Hmode in Hstep.
  destruct (handlePlace o pn url (index + 1) p g) as [g1 flow]. cbn [fst] in Hstep.
  destruct flow; [rewrite IH by exact Hmode |]; exact Hstep.
Qed.

(** The loop over the places in queue mode, which starts at offset [k]: it
    handles the records before some offset [stop], submits for each of them
    that is inside the geofence the request with the rank of its offset, and
    ends before the record at [stop] only if that record is inside the
    geofence and the budget has no room for it. *)
Lemma handlePlaces_requests o pn url places : forall (k : nat) g,
  exportPlaceUrls o = false ->
  let g' := handlePlaces o pn url (Z.of_nat k - 1) places g in
  exists stop,
    (stop <= length places)%nat
    /\ requestsOf (effects (shared g'))
       = requestsOf (effects (shared g))
         ++ rankedRequests o (fun j => rankOf pn (Z.of_nat j)) url
              (offsetsFrom k (take stop places))
    /\ ((stop < length places)%nat ->
        Tracker.canEnqueueMore (searchKeyOf o) (tracker (shared g')) = false
        /\ exists p, places !! stop = Some p
                     /\ checkInPolygon (geolocation o) (coords p) = true).
Proof.
  induction places as [| p places IH]; intros k g Hmode; cbv zeta.
  - exists 0%nat. cbn [handlePlaces take offsetsFrom length]. unfold rankedRequests.
    cbn [List.filter map]. rewrite app_nil_r.
    split; [lia | split; [reflexivity |]]. intros Hlt. inversion Hlt.
  - cbn [handlePlaces].
    replace (Z.of_nat k - 1 + 1) with (Z.of_nat k) by lia.
    pose proof (handlePlace_requests o pn url (Z.of_nat k) p g) as Hstep.
    cbv zeta in Hstep. rewrite Hmode in Hstep.
    destruct (handlePlace o pn url (Z.of_nat k) p g) as [g1 flow]. cbn [fst snd] in Hstep.
    assert (Hnext : forall sub,
      requestsOf (effects (shared g1)) = requestsOf (effects (shared g)) ++ sub ->
      rankedRequests o (fun j => rankOf pn (Z.of_nat j)) url [(k, p)] = sub ->
      exists stop,
        (stop <= length (p :: places))%nat
        /\ requestsOf (effects (shared (handlePlaces o pn url (Z.of_nat k) places g1)))
           = requestsOf (effects (shared g))
             ++ rankedRequests o (fun j => rankOf pn (Z.of_nat j)) url
                  (offsetsFrom k (take stop (p :: places)))
        /\ ((stop < length (p :: places))%nat ->
            Tracker.canEnqueueMore (searchKeyOf o)
              (tracker (shared (handlePlaces o pn url (Z.of_nat k) places g1))) = false
            /\ exists q, (p :: places) !! stop = Some q
                         /\ checkInPolygon (geolocation o) (coords q) = true)).
    { intros sub Hsub Hone.
      pose proof (IH (S k) g1 Hmode) as Hrest. cbv zeta in Hrest.
      replace (Z.of_nat (S k) - 1) with (Z.of_nat k) in Hrest by lia.
      destruct Hrest as [stop [Hle [Hreq Hstop]]].
      exists (S stop). cbn [length take offsetsFrom].
      split; [lia | split].
      - rewrite Hreq, Hsub, <- Hone, <- app_assoc. f_equal.
        unfold rankedRequests. cbn [List.filter].
        destruct (checkInPolygon (geolocation o) (coords (snd (k, p)))); reflexivity.
      - intros Hlt. apply Hstop. lia. }
    destruct (checkInPolygon (geolocation o) (coords p)) eqn:Hgeo.
    + destruct (Tracker.canEnqueueMore (searchKeyOf o) (tracker (shared g))) eqn:Hroom.
      * destruct Hstep as [-> Hreq]. apply (Hnext _ Hreq).
        unfold rankedRequests. cbn [List.filter snd fst map]. rewrite Hgeo. reflexivity.
      * destruct Hstep as [-> [Hreq Htr]].
        exists 0%nat. cbn [take offsetsFrom length]. unfold rankedRequests. cbn.
        rewrite app_nil_r, Htr.
        split; [lia | split; [exact Hreq |]].
        intros _. split; [exact Hroom |]. exists p. auto.
    + destruct Hstep as [-> Hreq]. apply (Hnext []).
      * rewrite app_nil_r. exact Hreq.
      * unfold rankedRequests. cbn [List.filter snd fst map]. rewrite Hgeo. reflexivity.
Qed.

(** Integers of magnitude up to 2^53 are numbers. *)
Lemma round_exact z : Z.abs z <= 2 ^ 53 -> Double.round z = Some z.
Proof.
  intros Hz. unfold Double.round.
  destruct (Z.leb_spec (Z.abs z) (2 ^ 53)) as [_ | Hgt]; [reflexivity |].
  exfalso. apply (Z.lt_irrefl (2 ^ 53)). eapply Z.lt_le_trans; eassumption.
Qed.

(** The rank computed for a page number and an offset, when the arithmetic
    is exact. *)
Lemma rankOf_number n offset :
  Z.abs (n - 1) * 20 + Z.of_nat offset + 1 <= 2 ^ 53 ->
  rankOf (Some n) (Z.of_nat offset) = Some ((n - 1) * 20 + Z.of_nat offset + 1).
Proof.
  intros Hb. unfold rankOf, Double.add, Double.sub, Double.mul, Double.number, Double.lift.
  assert (H53 : 2 ^ 53 = 9007199254740992) by reflexivity.
  rewrite (round_exact n) by lia.
  rewrite (round_exact (n - 1)) by lia.
  rewrite (round_exact ((n - 1) * 20)) by lia.
  rewrite (round_exact (Z.of_nat offset)) by lia.
  rewrite (round_exact (Z.of_nat offset + 1)) by lia.
  rewrite round_exact by lia. f_equal. lia.
Qed.

Lemma offsetsFrom_bounds {A} (l : list A) : forall k,
  Forall (fun x => (k <= fst x < k + length l)%nat) (offsetsFrom k l).
Proof.
  induction l as [| a l IH]; intros k; cbn [offsetsFrom length]; constructor.
  - cbn [fst]. lia.
  - eapply Forall_impl; [apply (IH (S k)) |]. cbn beta. intros x Hx. lia.
Qed.

Lemma offsetsFrom_lookup {A} (l : list A) : forall k x,
  List.In x (offsetsFrom k l) <-> (k <= fst x)%nat /\ l !! (fst x - k)%nat = Some (snd x).
Proof.
  induction l as [| a l IH]; intros k [j b]; cbn [offsetsFrom fst snd List.In].
  - split; [contradiction | intros [_ Hl]; discriminate].
  - rewrite (IH (S k) (j, b)). cbn [fst snd]. split.
    + intros [[= <- <-] | [Hle Hl]].
      * rewrite Nat.sub_diag. split; [lia | reflexivity].
      * split; [lia |]. replace (j - k)%nat with (S (j - S k)) by lia. exact Hl.
    + intros [Hle Hl]. destruct (decide (j = k)) as [-> | Hne].
      * rewrite Nat.sub_diag in Hl. injection Hl as <-. left. reflexivity.
      * right. split; [lia |].
        replace (j - k)%nat with (S (j - S k)) in Hl by lia. exact Hl.
Qed.

Lemma rankedRequests_ext o (f f' : nat -> jsint) url records :
  Forall (fun x => f (fst x) = f' (fst x)) records ->
  rankedRequests o f url records = rankedRequests o f' url records.
Proof.
  unfold rankedRequests. induction 1 as [| x records Hx _ IH]; [reflexivity |].
  cbn [List.filter]. destruct (checkInPolygon _ _); [| exact IH].
  cbn [map]. rewrite Hx, IH. reflexivity.
Qed.

(** Ranks that grow with the offset are ascending along records in the order
    of their offsets. *)
Lemma rankedRequests_ascending o (c : Z) url (l : list PlacePaginationData) : forall k,
  ascending (map (fun r => Req.rank (Req.userData r))
               (rankedRequests o (fun j => Some (c + Z.of_nat j + 1)) url (offsetsFrom k l))).
Proof.
  unfold ascending, rankedRequests.
  induction l as [| p l IH]; intros k; cbn [offsetsFrom List.filter]; [constructor |].
  destruct (checkInPolygon _ _); [| apply IH].
  cbn [map]. constructor; [apply IH |].
  pose proof (offsetsFrom_bounds l (S k)) as Hb.
  rewrite List.Forall_forall in *. intros rk Hin.
  apply in_map_iff in Hin as [r [<- Hin]].
  apply in_map_iff in Hin as [[j q] [<- Hin]].
  apply List.filter_In in Hin as [Hin _]. specialize (Hb _ Hin).
  cbn [fst snd placeRequest Req.rank Req.userData] in *.
  eexists _, _. split; [reflexivity | split; [reflexivity | lia]].
Qed.

(** C1, for page numbers whose ranks are computed exactly. For a response
    that the handler takes, whose address carries the page number [n], with
    [|n - 1| * 20] plus the number of decoded records at most 2^53: in queue
    mode the handler goes through the decoded records up to some offset
    [stop] and submits, in their order, exactly one request for each of them
    that is inside the geofence, with rank [(n - 1) * 20 + offset + 1]; it
    ends before the record at [stop] only if that record is inside the
    geofence and the budget has no room for it. So every record before
    [stop] and inside the geofence has its request with that rank, and the
    ranks submitted are strictly increasing. In export mode no request is
    submitted. *)
Theorem rank_follows_page_and_offset
  (o : Options) (response : Response) (ps : PageStats.t) (s : Shared) (n : Z) :
  isSearchPage response = true \/ isDetailPreviewPage response = true ->
  pageNumber response = Some n ->
  let places :=
    placesPaginationData
      (parseSearchPlacesResponseBody (body response) (isDetailPreviewPage response)) in
  Z.abs (n - 1) * 20 + Z.of_nat (length places) <= 2 ^ 53 ->
  let s' := snd (responseHandler o response (ps, s)) in
  let rank (offset : nat) := Some ((n - 1) * 20 + Z.of_nat offset + 1) in
  let inside (p : PlacePaginationData) := checkInPolygon (geolocation o) (coords p) in
  exists stop,
    (stop <= length places)%nat
    /\ requestsOf (effects s')
       = requestsOf (effects s)
         ++ (if exportPlaceUrls o then []
             else rankedRequests o rank (pageUrlAtArrival response)
                    (offsetsFrom 0 (take stop places)))
    /\ (exportPlaceUrls o = false -> (stop < length places)%nat ->
        Tracker.canEnqueueMore (searchKeyOf o) (tracker s') = false
        /\ exists p, places !! stop = Some p /\ inside p = true)
    /\ (forall offset p,
          (offset < stop)%nat -> places !! offset = Some p -> inside p = true ->
          List.In (placeRequest o (rank offset) (pageUrlAtArrival response) p)
            (rankedRequests o rank (pageUrlAtArrival response)
               (offsetsFrom 0 (take stop places)))
          /\ Req.rank (Req.userData
                         (placeRequest o (rank offset) (pageUrlAtArrival response) p))
             = Some ((n - 1) * 20 + Z.of_nat offset + 1))
    /\ ascending (map (fun r => Req.rank (Req.userData r))
                    (rankedRequests o rank (pageUrlAtArrival response)
                       (offsetsFrom 0 (take stop places)))).
Proof.
  intros Htaken Hn places Hbound s' rank inside. subst s'. unfold responseHandler.
  assert (Hskip : negb (isSearchPage response) && negb (isDetailPreviewPage response) = false).
  { destruct Htaken as [-> | ->]; [reflexivity | apply andb_false_r]. }
  rewrite Hskip. cbn [snd]. fold places. rewrite Hn.
  assert (Hfacts : forall stop,
    (forall offset p,
       (offset < stop)%nat -> places !! offset = Some p -> inside p = true ->
       List.In (placeRequest o (rank offset) (pageUrlAtArrival response) p)
         (rankedRequests o rank (pageUrlAtArrival response)
            (offsetsFrom 0 (take stop places)))
       /\ Req.rank (Req.userData
                      (placeRequest o (rank offset) (pageUrlAtArrival response) p))
          = Some ((n - 1) * 20 + Z.of_nat offset + 1))
    /\ ascending (map (fun r => Req.rank (Req.userData r))
                    (rankedRequests o rank (pageUrlAtArrival response)
                       (offsetsFrom 0 (take stop places))))).
  { intros stop. split.
    - intros offset p Hlt Hp Hin. split; [| reflexivity].
      unfold rankedRequests. apply in_map_iff. exists (offset, p).
      split; [reflexivity |]. apply List.filter_In. split; [| exact Hin].
      apply offsetsFrom_lookup. cbn [fst snd]. split; [lia |].
      rewrite Nat.sub_0_r, lookup_take_lt by exact Hlt. exact Hp.
    - apply (rankedRequests_ascending o ((n - 1) * 20)). }
  destruct (exportPlaceUrls o) eqn:Hmode.
  - exists (length places).
    rewrite handlePlaces_requests_export by exact Hmode.
    cbn [shared effects emit]. rewrite requestsOf_app. simpl. rewrite !app_nil_r.
    split; [lia | split; [reflexivity | split; [discriminate | apply Hfacts]]].
  - destruct (handlePlaces_requests o (Some n) (pageUrlAtArrival response) places 0
                {| shared := emit (SaveRawResponse (savedPrefix (body response))) s;
                   enqueuedNow := 0; pushedNow := 0 |} Hmode)
      as [stop [Hle [Hreq Hstop]]].
    change (Z.of_nat 0 - 1) with (-1) in Hreq, Hstop.
    exists stop. rewrite Hreq. cbn [shared effects emit].
    rewrite requestsOf_app. simpl. rewrite app_nil_r.
    split; [exact Hle | split; [| split; [intros _; exact Hstop | apply Hfacts]]].
    f_equal. apply rankedRequests_ext.
    pose proof (offsetsFrom_bounds (take stop places) 0) as Hb.
    eapply Forall_impl; [exact Hb |]. cbn beta. intros x Hx.
    apply rankOf_number.
    assert (length (take stop places) <= length places)%nat
      by (rewrite length_take; lia).
    lia.
Qed.

End HandlerFacts.

(** ** The stop checks of the scrolling loop *)

Lemma firstHolding_none (conditions : list (option Outcome)) :
  firstHolding conditions = None <-> Forall (fun c => c = None) conditions.
Proof.
  induction conditions as [| [out |] rest IH]; simpl.
  - split; [constructor | reflexivity].
  - split; [discriminate |]. intros Hall. inversion Hall; subst. discriminate.
  - split.
    + intros Hrest. constructor; [reflexivity | apply IH, Hrest].
    + intros Hall. inversion Hall; subst. apply IH. assumption.
Qed.

Section LoopFacts.
Context `{Runtime} `{Collaborators}.

Lemma ltb_decide (a b : Z) : (a <? b) = bool_decide (b > a).
Proof.
  destruct (Z.ltb_spec a b); symmetry;
    [apply bool_decide_eq_true | apply bool_decide_eq_false]; lia.
Qed.

Lemma leb_decide (a b : Z) : (a <=? b) = bool_decide (b >= a).
Proof.
  destruct (Z.leb_spec a b); symmetry;
    [apply bool_decide_eq_true | apply bool_decide_eq_false]; lia.
Qed.

Lemma only_known_decide (f e p : Z) :
  (0 <? f) && (e + p =? 0) = bool_decide (f > 0 /\ e + p = 0).
Proof.
  destruct (Z.ltb_spec 0 f), (Z.eqb_spec (e + p) 0); simpl; symmetry;
    try (apply bool_decide_eq_true; lia); apply bool_decide_eq_false; lia.
Qed.

(** The checks of the source are the first of the seven conditions of the
    specification that holds. *)
Lemma stopChecks_firstHolding o v : stopChecks o v = firstHolding (stopConditions o v).
Proof.
  unfold stopChecks, stopConditions, holds. cbn [firstHolding].
  destruct (probe v); [reflexivity |].
  rewrite leb_decide.
  destruct (bool_decide (emptyScrolls v >= 10)); [reflexivity |].
  destruct (PageStats.error (stats v)) as [failure |]; [reflexivity |].
  cbn [fmap option_fmap option_map].
  destruct (negb (Tracker.canEnqueueMore (searchKeyOf o) (budget v))); [reflexivity |].
  unfold finishBecauseAutoZoom.
  rewrite leb_decide, only_known_decide.
  destruct (maxAutomaticZoomOut o) as [limit |].
  - rewrite ltb_decide.
    destruct (bool_decide (startZoom o - zoom v > limit)); [reflexivity |].
    destruct (bool_decide (PageStats.totalFound (stats v) >= MAX_PLACES_PER_PAGE o));
      [reflexivity |].
    destruct (bool_decide _); reflexivity.
  - destruct (bool_decide (PageStats.totalFound (stats v) >= MAX_PLACES_PER_PAGE o));
      [reflexivity |].
    destruct (bool_decide _); reflexivity.
Qed.

Lemma stopChecks_retry o v message :
  stopChecks o v = Some (RetryPage message) ->
  exists failure,
    PageStats.error (stats v) = Some failure /\ PageStats.message failure = message.
Proof.
  unfold stopChecks.
  destruct (probe v); [discriminate |].
  destruct (10 <=? emptyScrolls v); [discriminate |].
  destruct (PageStats.error (stats v)) as [f |]; [intros [= <-]; eauto |].
  repeat match goal with
         | |- context [if ?b then _ else _] => destruct b
         end; discriminate.
Qed.

(** A turn that the DOM fallback does not end: its outcome is that of the
    stop checks on the snapshot of the turn, and it scrolls only without an
    outcome. *)
Lemma iteration_without_fallback o t st :
  fallbackEnds o t st = false ->
  let v := snapshotOf o t st in
  let before := effects (snd (atChecks o t st)) in
  let st' := fst (iteration o t st) in
  let out := snd (iteration o t st) in
  out = stopChecks o v
  /\ PageStats.totalFound (pageStats st') = PageStats.totalFound (stats v)
  /\ useDOMFallback st'
     = (if fallbackDue (fst (atTurnStart o t st)) then true else useDOMFallback st)
  /\ match out with
     | None =>
         PageStats.pageNum (pageStats st') = PageStats.pageNum (stats v) + 1
         /\ effects (world st') = before ++ scrollEffects (jitter t)
     | Some (RetryPage message) =>
         exists failure,
           PageStats.error (stats v) = Some failure
           /\ PageStats.message failure = message
           /\ PageStats.pageNum (pageStats st') = PageStats.pageNum (stats v)
           /\ effects (world st')
              = before ++ [SaveErrorSnapshot (PageStats.responseBody failure)]
     | Some _ =>
         PageStats.pageNum (pageStats st') = PageStats.pageNum (stats v)
         /\ effects (world st') = before
     end.
Proof.
  intros Hfb v before st' out. subst v before st' out.
  unfold iteration, snapshotOf, atChecks, fallbackEnds, atTurnStart in *.
  destruct (handleResponses o (arrivedBefore t) (pageStats st, world st)) as [ps s].
  cbn [fst] in Hfb. cbn [fst]. unfold fallbackDue in *. rewrite Hfb.
  destruct (handleResponses o (arrivedWhileProbing t)
              (ps, if (2 <? PageStats.pageNum ps) && (PageStats.totalFound ps =? 0)
                   then emit SaveScreenshot s else s)) as [ps2 s2].
  cbn [fst snd].
  destruct (stopChecks o _) as [[| | | message | | | |] |] eqn:Echeck;
    cbn [fst snd pageStats world effects emit withPageNum PageStats.pageNum
         PageStats.totalFound useDOMFallback];
    auto.
  apply stopChecks_retry in Echeck as [failure [Herr Hmsg]]. cbn [stats] in Herr.
  rewrite Herr. cbn [effects emit].
  split; [reflexivity | split; [reflexivity | split; [reflexivity |]]].
  exists failure. auto.
Qed.

Lemma enqueueDomPlaces_pageNum o url places : forall st,
  PageStats.pageNum (fst (enqueueDomPlaces o url places st)) = PageStats.pageNum (fst st).
Proof.
  induction places as [| d places IH]; intros [ps s]; [reflexivity |].
  cbn [enqueueDomPlaces].
  destruct (Tracker.setEnqueued (searchKeyOf o) (tracker s)) as [tr reserved].
  destruct reserved; cbn [negb]; [| reflexivity].
  destruct (addRequest (requestQueue (withTracker tr s)) (domRequest o ps url d))
    as [q present].
  rewrite IH. destruct present; reflexivity.
Qed.

(** A turn that the DOM fallback ends: it returns before the stop checks,
    without a scroll. *)
Lemma iteration_with_fallback o t st :
  fallbackEnds o t st = true ->
  snd (iteration o t st) = Some DomFallbackEnqueued
  /\ PageStats.pageNum (pageStats (fst (iteration o t st)))
     = PageStats.pageNum (fst (atTurnStart o t st)).
Proof.
  unfold fallbackEnds, fallbackDue, iteration, atTurnStart.
  destruct (handleResponses o (arrivedBefore t) (pageStats st, world st)) as [ps s].
  cbn [fst]. intros Hfb. rewrite Hfb.
  pose proof (enqueueDomPlaces_pageNum o (pageUrl t) (domPlaces t)
                (ps, emit SaveDomPlaces
                       (if (2 <? PageStats.pageNum ps) && (PageStats.totalFound ps =? 0)
                        then emit SaveScreenshot s else s))) as Hpage.
  destruct (enqueueDomPlaces _ _ _ _) as [ps' s']. cbn [fst snd pageStats] in *.
  split; [reflexivity | exact Hpage].
Qed.

(** C4, with the turn that the DOM fallback ends. A turn of the scrolling
    loop begins with the test of the fallback: when the page number is above
    2, nothing was found and the page shows a place link, the turn ends
    there, before any stop condition is evaluated, and does not scroll. In
    every other turn the outcome is that of the first condition that holds
    among, in this order: the end of the results is shown; ten scrolls in a
    row loaded nothing; a decode error is pending, which is thrown for a
    retry of the page after its raw body is stored; the budget is reached;
    the zoom drifted further than allowed from the zoom at the start; the
    total found reached the cap of a page; the step found places and none
    was new. Such a turn scrolls if and only if none holds: it then moves the
    mouse, turns the wheel, increments the page number and waits 2000 ms
    plus the random part. A turn that stops does none of this. *)
Theorem stop_conditions_checked_in_order (o : Options) (t : Tick) (st : Session) :
  let start := fst (atTurnStart o t st) in
  let v := snapshotOf o t st in
  let before := effects (snd (atChecks o t st)) in
  let st' := fst (iteration o t st) in
  let out := snd (iteration o t st) in
  (fallbackEnds o t st = true
   <-> 2 < PageStats.pageNum start /\ PageStats.totalFound start = 0 /\ domPlaces t <> [])
  /\ if fallbackEnds o t st then
       out = Some DomFallbackEnqueued
       /\ PageStats.pageNum (pageStats st') = PageStats.pageNum start
     else
       out = firstHolding (stopConditions o v)
       /\ (out = None <-> Forall (fun c => c = None) (stopConditions o v))
       /\ match out with
          | None =>
              PageStats.pageNum (pageStats st') = PageStats.pageNum (stats v) + 1
              /\ effects (world st')
                 = before ++ [MouseMove 10 300; Delay 100; MouseWheel 800;
                              Delay (2000 + jitter t)]
              /\ (0 <= jitter t <= 1000 -> 2000 <= 2000 + jitter t <= 3000)
          | Some (RetryPage message) =>
              exists failure,
                PageStats.error (stats v) = Some failure
                /\ PageStats.message failure = message
                /\ PageStats.pageNum (pageStats st') = PageStats.pageNum (stats v)
                /\ effects (world st')
                   = before ++ [SaveErrorSnapshot (PageStats.responseBody failure)]
          | Some _ =>
              PageStats.pageNum (pageStats st') = PageStats.pageNum (stats v)
              /\ effects (world st') = before
          end.
Proof.
  intros start v before st' out. split.
  - unfold fallbackEnds, fallbackDue. fold start.
    rewrite !andb_true_iff, Z.ltb_lt, Z.eqb_eq, Nat.ltb_lt.
    destruct (domPlaces t); cbn [length]; split.
    + intros [_ Hlt]. inversion Hlt.
    + intros [_ [_ Hne]]. congruence.
    + intros [[Hp Hf] _]. repeat split; [exact Hp | exact Hf | discriminate].
    + intros [Hp [Hf _]]. repeat split; [exact Hp | exact Hf | lia].
  - destruct (fallbackEnds o t st) eqn:Hfb.
    + apply iteration_with_fallback. exact Hfb.
    + destruct (iteration_without_fallback o t st Hfb) as [Hout [_ [_ Hshape]]].
      fold v before st' out in Hout, Hshape.
      split; [rewrite Hout; apply stopChecks_firstHolding |].
      split; [rewrite Hout, stopChecks_firstHolding; apply firstHolding_none |].
      destruct out as [[| | | message | | | |] |]; try exact Hshape.
      destruct Hshape as [Hp He]. split; [exact Hp | split; [exact He | lia]].
Qed.

End LoopFacts.

(** ** A page that answers every scroll with the same places *)

Module ScenarioFacts.
Import Scenario.
#[local] Existing Instance Simple.collaborators.

Lemma keyKnown_app q k k' :
  Simple.keyKnown (q ++ [k]) k' = Simple.keyKnown q k' || prim_eqb k' k.
Proof.
  unfold Simple.keyKnown. rewrite existsb_app. simpl. rewrite orb_false_r. reflexivity.
Qed.

Lemma unbounded_canEnqueueMore s :
  unbounded s -> Tracker.canEnqueueMore "cafe" (tracker s) = true.
Proof.
  intros [Hg [Hp [c Hc]]]. unfold Tracker.canEnqueueMore. rewrite Hg, Hp, Hc. reflexivity.
Qed.

Lemma unbounded_setEnqueued s :
  unbounded s ->
  exists tr, Tracker.setEnqueued "cafe" (tracker s) = (tr, true)
    /\ Tracker.maxCrawledPlaces tr = None
    /\ Tracker.maxCrawledPlacesPerSearch tr = None
    /\ (exists c, Tracker.countOf "cafe" tr = Some c)
    /\ (exists c, Tracker.countOf "cafe" (Tracker.decrementEnqueued "cafe" tr) = Some c).
Proof.
  intros Hs. pose proof Hs as [Hg [Hp [c Hc]]].
  unfold Tracker.setEnqueued. rewrite (unbounded_canEnqueueMore _ Hs).
  eexists. split; [reflexivity |]. cbn [Tracker.maxCrawledPlaces Tracker.maxCrawledPlacesPerSearch].
  split; [exact Hg | split; [exact Hp |]].
  unfold Tracker.countOf, Tracker.decrementEnqueued.
  cbn [Tracker.enqueuedPerSearch]. rewrite !lookup_insert_eq. fold (Tracker.countOf "cafe" (tracker s)).
  rewrite Hc. simpl. eauto.
Qed.

Section WithRuntime.
Context `{Runtime}.

(** A place with a new id is enqueued and the loop goes on. *)
Lemma handlePlace_fresh pn url index p i g :
  placeId p = JString i ->
  Simple.keyKnown (requestQueue (shared g)) (JString i) = false ->
  unbounded (shared g) ->
  exists g',
    handlePlace Simple.options pn url index p g = (g', Next)
    /\ enqueuedNow g' = enqueuedNow g + 1
    /\ pushedNow g' = pushedNow g
    /\ requestQueue (shared g') = requestQueue (shared g) ++ [JString i]
    /\ unbounded (shared g').
Proof.
  intros Hid Hnew Hs. unfold handlePlace.
  cbn [checkInPolygon Simple.collaborators negb exportPlaceUrls Simple.options geolocation].
  change (searchKeyOf Simple.options) with "cafe".
  change (tracker (emit _ (shared g))) with (tracker (shared g)).
  destruct (unbounded_setEnqueued _ Hs) as [tr [-> [Hg [Hp [Hc _]]]]].
  cbn [negb addRequest Simple.collaborators placeRequest Req.uniqueKey
       requestQueue withTracker emit].
  rewrite Hid. unfold Simple.remember. rewrite Hnew. cbn [negb].
  eexists. split; [reflexivity |].
  cbn [enqueuedNow pushedNow shared requestQueue emit withQueue withTracker tracker].
  refine (conj eq_refl (conj eq_refl (conj eq_refl (conj Hg (conj Hp Hc))))).
Qed.

(** A place whose id the queue knows is not enqueued; the reservation is
    given back and the loop goes on. *)
Lemma handlePlace_known pn url index p i g :
  placeId p = JString i ->
  Simple.keyKnown (requestQueue (shared g)) (JString i) = true ->
  unbounded (shared g) ->
  exists g',
    handlePlace Simple.options pn url index p g = (g', Next)
    /\ enqueuedNow g' = enqueuedNow g
    /\ pushedNow g' = pushedNow g
    /\ requestQueue (shared g') = requestQueue (shared g)
    /\ unbounded (shared g').
Proof.
  intros Hid Hnew Hs. unfold handlePlace.
  cbn [checkInPolygon Simple.collaborators negb exportPlaceUrls Simple.options geolocation].
  change (searchKeyOf Simple.options) with "cafe".
  change (tracker (emit _ (shared g))) with (tracker (shared g)).
  destruct (unbounded_setEnqueued _ Hs) as [tr [-> [Hg [Hp [_ Hc]]]]].
  cbn [negb addRequest Simple.collaborators placeRequest Req.uniqueKey
       requestQueue withTracker emit].
  rewrite Hid. unfold Simple.remember. rewrite Hnew. cbn [negb].
  eexists. split; [reflexivity |].
  cbn [enqueuedNow pushedNow shared requestQueue emit withQueue withTracker tracker].
  refine (conj eq_refl (conj eq_refl (conj eq_refl (conj Hg (conj Hp Hc))))).
Qed.

Lemma handlePlaces_fresh pn url places : forall ids index g,
  map placeId places = map JString ids ->
  NoDup ids ->
  Forall (fun i => Simple.keyKnown (requestQueue (shared g)) (JString i) = false) ids ->
  unbounded (shared g) ->
  let g' := handlePlaces Simple.options pn url index places g in
  enqueuedNow g' = enqueuedNow g + Z.of_nat (length places)
  /\ pushedNow g' = pushedNow g
  /\ requestQueue (shared g') = requestQueue (shared g) ++ map JString ids
  /\ unbounded (shared g').
Proof.
  induction places as [| p places IH]; intros ids index g Hids Hnodup Hnew Hs.
  - destruct ids; [| discriminate]. simpl. rewrite app_nil_r.
    refine (conj _ (conj eq_refl (conj eq_refl Hs))). lia.
  - destruct ids as [| i ids]; [discriminate |]. injection Hids as Hid Hids.
    apply NoDup_cons in Hnodup as [Hnotin Hnodup].
    inversion Hnew as [| ? ? Hi Hrest]; subst.
    cbn [handlePlaces].
    destruct (handlePlace_fresh pn url (index + 1) p i g Hid Hi Hs)
      as [g1 [-> [He [Hp [Hq Hu]]]]].
    specialize (IH ids (index + 1) g1 Hids Hnodup).
    destruct IH as [He' [Hp' [Hq' Hu']]]; [| exact Hu |].
    + rewrite Hq. rewrite Forall_forall in *. intros j Hj.
      rewrite keyKnown_app, (Hrest j Hj). simpl.
      apply String.eqb_neq. intros ->. contradiction.
    + cbn zeta. rewrite He', Hp', Hq', He, Hp, Hq, <- app_assoc.
      refine (conj _ (conj eq_refl (conj eq_refl Hu'))). rewrite length_cons. lia.
Qed.

Lemma handlePlaces_known pn url places : forall ids index g,
  map placeId places = map JString ids ->
  Forall (fun i => Simple.keyKnown (requestQueue (shared g)) (JString i) = true) ids ->
  unbounded (shared g) ->
  let g' := handlePlaces Simple.options pn url index places g in
  enqueuedNow g' = enqueuedNow g
  /\ pushedNow g' = pushedNow g
  /\ requestQueue (shared g') = requestQueue (shared g)
  /\ unbounded (shared g').
Proof.
  induction places as [| p places IH]; intros ids index g Hids Hknown Hs.
  - simpl. auto.
  - destruct ids as [| i ids]; [discriminate |]. injection Hids as Hid Hids.
    inversion Hknown as [| ? ? Hi Hrest]; subst.
    cbn [handlePlaces].
    destruct (handlePlace_known pn url (index + 1) p i g Hid Hi Hs)
      as [g1 [-> [He [Hp [Hq Hu]]]]].
    specialize (IH ids (index + 1) g1 Hids).
    destruct IH as [He' [Hp' [Hq' Hu']]]; [rewrite Hq; exact Hrest | exact Hu |].
    cbn zeta. rewrite He', Hp', Hq', He, Hp, Hq. auto.
Qed.

(** The handler on a search response of the scenario whose body decodes
    without an error. *)
Lemma handled_response k text places ps s :
  parseSearchPlacesResponseBody text false
  = {| placesPaginationData := places; error := None |} ->
  let g := handlePlaces Simple.options (Some k) "https://www.google.com/maps/search/cafe"
             (-1) places
             {| shared := emit (SaveRawResponse (savedPrefix text)) s;
                enqueuedNow := 0; pushedNow := 0 |} in
  responseHandler Simple.options (Simple.searchResponse k text) (ps, s)
  = ({| PageStats.error := PageStats.error ps;
        PageStats.isDataPage := true;
        PageStats.enqueued := enqueuedNow g;
        PageStats.pushed := pushedNow g;
        PageStats.totalEnqueued := PageStats.totalEnqueued ps + enqueuedNow g;
        PageStats.totalPushed := PageStats.totalPushed ps + pushedNow g;
        PageStats.found := Z.of_nat (length places);
        PageStats.totalFound := PageStats.totalFound ps + Z.of_nat (length places);
        PageStats.pageNum := PageStats.pageNum ps |}, shared g).
Proof.
  intros Hparse g. unfold responseHandler.
  cbn [isSearchPage isDetailPreviewPage Simple.searchResponse negb andb body pageNumber
       pageUrlAtArrival status].
  rewrite Hparse. reflexivity.
Qed.

(** One turn of the scenario before which a response arrives: with no error
    pending, no limit reached and a total that moved, only the last stop
    check can fire. *)
Lemma turn_with_response k text places st :
  parseSearchPlacesResponseBody text false
  = {| placesPaginationData := places; error := None |} ->
  let g := handlePlaces Simple.options (Some k) "https://www.google.com/maps/search/cafe"
             (-1) places
             {| shared := emit (SaveRawResponse (savedPrefix text)) (world st);
                enqueuedNow := 0; pushedNow := 0 |} in
  let total := PageStats.totalFound (pageStats st) + Z.of_nat (length places) in
  let stop := (0 <? Z.of_nat (length places)) && (enqueuedNow g + pushedNow g =? 0) in
  PageStats.error (pageStats st) = None ->
  PageStats.pageNum (pageStats st) <= 2 ->
  lastNumberOfResultsLoadedTotally st <> total ->
  total < 120 ->
  unbounded (shared g) ->
  exists st',
    iteration Simple.options (Simple.quietTick [Simple.searchResponse k text]) st
    = (st', if stop then Some OnlyKnownPlaces else None)
    /\ PageStats.error (pageStats st') = None
    /\ PageStats.found (pageStats st') = Z.of_nat (length places)
    /\ PageStats.totalFound (pageStats st') = total
    /\ PageStats.enqueued (pageStats st') = enqueuedNow g
    /\ PageStats.totalEnqueued (pageStats st')
       = PageStats.totalEnqueued (pageStats st) + enqueuedNow g
    /\ PageStats.pageNum (pageStats st')
       = (if stop then PageStats.pageNum (pageStats st)
          else PageStats.pageNum (pageStats st) + 1)
    /\ requestQueue (world st') = requestQueue (shared g)
    /\ tracker (world st') = tracker (shared g)
    /\ lastNumberOfResultsLoadedTotally st' = total
    /\ numberOfEmptyScrolls st' = 0.
Proof.
  intros Hparse g total stop Herr Hpage Hlast Hmax Hopen.
  unfold iteration.
  cbn [arrivedBefore arrivedWhileProbing domPlaces noMoreResults actualZoom jitter
       Simple.quietTick handleResponses fold_left].
  rewrite (handled_response k text places _ _ Hparse). fold g.
  cbn [PageStats.pageNum PageStats.totalFound].
  assert (Hp : (2 <? PageStats.pageNum (pageStats st)) = false) by (apply Z.ltb_ge; lia).
  rewrite Hp. cbn [andb length Nat.ltb Nat.leb].
  unfold stopChecks, nextEmptyScrolls.
  cbn [probe emptyScrolls stats budget zoom PageStats.error PageStats.totalFound
       PageStats.found PageStats.enqueued PageStats.pushed].
  fold total.
  assert (Hl : (lastNumberOfResultsLoadedTotally st =? total) = false)
    by (apply Z.eqb_neq; exact Hlast).
  rewrite Hl, Herr. change (10 <=? 0) with false. cbn iota.
  change (searchKeyOf Simple.options) with "cafe".
  rewrite (unbounded_canEnqueueMore _ Hopen). cbn [negb].
  change (finishBecauseAutoZoom Simple.options 15) with false. cbn iota.
  change (MAX_PLACES_PER_PAGE Simple.options) with 120.
  assert (Hm : (120 <=? total) = false) by (apply Z.leb_gt; exact Hmax).
  rewrite Hm. fold stop.
  destruct stop; eexists; (split; [reflexivity |]);
    cbn [pageStats world PageStats.error PageStats.found PageStats.totalFound
         PageStats.enqueued PageStats.totalEnqueued PageStats.pageNum withPageNum
         requestQueue tracker lastNumberOfResultsLoadedTotally numberOfEmptyScrolls];
    repeat split; reflexivity.
Qed.

(** C2, as the code has it. A session that decodes a page of places on its
    first turn, all new and inside the geofence, and the same places again
    on its second turn, ends on the second turn, by the check of a step that
    found places of which none was new, and not by the count of empty
    scrolls, which is zero; the total found counts both pages, and the
    places enqueued are those of the first. With five places: 10 found and 5
    enqueued. Turns that the page would supply after the second are not
    taken. *)
Theorem repeated_places_end_the_session_on_the_second_turn
  (text : string) (places : list PlacePaginationData) (ids : list string) (more : nat) :
  parseSearchPlacesResponseBody text false
  = {| placesPaginationData := places; error := None |} ->
  map placeId places = map JString ids ->
  NoDup ids ->
  (0 < length places)%nat ->
  2 * Z.of_nat (length places) < 120 ->
  let st := fst (run (sameBodyTurns text (2 + more))) in
  snd (run (sameBodyTurns text (2 + more))) = Some OnlyKnownPlaces
  /\ PageStats.pageNum (pageStats st) = 2
  /\ PageStats.totalFound (pageStats st) = 2 * Z.of_nat (length places)
  /\ PageStats.totalEnqueued (pageStats st) = Z.of_nat (length places)
  /\ PageStats.found (pageStats st) = Z.of_nat (length places)
  /\ PageStats.enqueued (pageStats st) = 0
  /\ numberOfEmptyScrolls st = 0.
Proof.
  intros Hparse Hids Hnodup Hlen Hmax st. subst st.
  unfold run, sameBodyTurns. cbn [Nat.add seq map scrollingLoop].
  set (len := Z.of_nat (length places)) in *.
  assert (Hpos : 0 < len) by (unfold len; lia).
  (* the first turn *)
  pose proof (handlePlaces_fresh (Some (Z.of_nat 1)) "https://www.google.com/maps/search/cafe"
                places ids (-1)
                {| shared := emit (SaveRawResponse (savedPrefix text)) Simple.emptyWorld;
                   enqueuedNow := 0; pushedNow := 0 |} Hids Hnodup) as Hfresh.
  destruct Hfresh as [He1 [Hp1 [Hq1 Hu1]]].
  { apply Forall_forall. intros i _. reflexivity. }
  { repeat split. exists 0. reflexivity. }
  destruct (turn_with_response (Z.of_nat 1) text places (initialSession Simple.emptyWorld)
              Hparse) as [st1 [Hit1 [Herr1 [Hf1 [Ht1 [Hen1 [Hte1 [Hpn1 [Hrq1 [Htr1 [Hl1 _]]]]]]]]]]].
  { reflexivity. }
  { cbn. lia. }
  { cbn. fold len. lia. }
  { cbn. fold len. lia. }
  { exact Hu1. }
  cbn [initialSession world pageStats PageStats.initial PageStats.totalFound
       PageStats.totalEnqueued PageStats.pageNum] in *.
  cbn [enqueuedNow pushedNow shared requestQueue emit Simple.emptyWorld] in He1, Hp1, Hq1.
  fold len in He1, Hf1, Ht1, Hit1, Hl1, Hpn1.
  rewrite He1, Hp1 in Hit1. rewrite He1, Hp1 in Hpn1. rewrite He1 in Hen1, Hte1.
  assert (Hgo : (0 <? len) && (0 + len + 0 =? 0) = false).
  { apply andb_false_iff. right. apply Z.eqb_neq. lia. }
  rewrite Hgo in Hit1, Hpn1. rewrite Hit1. clear Hit1.
  (* the second turn *)
  pose proof (handlePlaces_known (Some (Z.of_nat 2)) "https://www.google.com/maps/search/cafe"
                places ids (-1)
                {| shared := emit (SaveRawResponse (savedPrefix text)) (world st1);
                   enqueuedNow := 0; pushedNow := 0 |} Hids) as Hknown.
  destruct Hknown as [He2 [Hp2 [_ Hu2]]].
  { cbn [shared requestQueue emit]. rewrite Hrq1, Hq1. apply Forall_forall. intros i Hi.
    unfold Simple.keyKnown. apply existsb_exists. exists (JString i).
    split; [apply in_map; apply list_elem_of_In; exact Hi | simpl; apply String.eqb_refl]. }
  { unfold unbounded. cbn [shared tracker emit]. rewrite Htr1. exact Hu1. }
  destruct (turn_with_response (Z.of_nat 2) text places st1 Hparse)
    as [st2 [Hit2 [_ [Hf2 [Ht2 [Hen2 [Hte2 [Hpn2 [_ [_ [_ Hem2]]]]]]]]]]].
  { exact Herr1. }
  { rewrite Hpn1. lia. }
  { rewrite Hl1, Ht1. fold len. lia. }
  { rewrite Ht1. fold len. lia. }
  { exact Hu2. }
  cbn [enqueuedNow pushedNow] in He2, Hp2.
  fold len in Hf2, Ht2, Hit2, Hpn2.
  rewrite He2, Hp2 in Hit2. rewrite He2, Hp2 in Hpn2. rewrite He2 in Hen2, Hte2.
  assert (Hstop : (0 <? len) && (0 + 0 =? 0) = true).
  { apply andb_true_iff. split; [apply Z.ltb_lt; lia | reflexivity]. }
  rewrite Hstop in Hit2, Hpn2. rewrite Hit2. cbn [fst snd].
  rewrite Hpn2, Hpn1, Ht2, Ht1, Hte2, Hte1, Hf2, Hen2, Hem2.
  repeat split; lia.
Qed.

End WithRuntime.
End ScenarioFacts.

(** ** The controller on the scenarios *)

Module ScenarioExamples.
Import Scenario.
#[local] Existing Instance Simple.collaborators.

(** The five places of a response of page 2 are enqueued with the ranks 21
    to 25. *)
Example ranks_of_second_page :
  map summary
    (requestsOf (effects (snd (responseHandler Simple.options
                                 (Simple.searchResponse 2 Sample.fivePlaces)
                                 (PageStats.initial, Simple.emptyWorld)))))
  = [(JString "a", Some 21, true); (JString "b", Some 22, true);
     (JString "c", Some 23, true); (JString "d", Some 24, true);
     (JString "e", Some 25, true)].
Proof. vm_compute. reflexivity. Qed.

(** A response that is an HTML page leaves an error pending: the next stop
    checks store its body and throw, with nothing enqueued. *)
Example html_response_is_retried :
  let final := run [Simple.quietTick [Simple.searchResponse 1 "<html>blocked</html>"]] in
  snd final = Some (RetryPage ResponseBodyIsHtml)
  /\ last (effects (world (fst final))) = Some (SaveErrorSnapshot "<html>blocked</html>")
  /\ requestsOf (effects (world (fst final))) = [].
Proof. vm_compute. repeat split; reflexivity. Qed.

(** The five places of a response of page 2: all are handled, and the
    requests are those of the five places with the ranks [20 + offset + 1]. *)
Lemma rank_follows_page_and_offset_witness :
  let response := Simple.searchResponse 2 Sample.fivePlaces in
  let places := placesPaginationData (parseSearchPlacesResponseBody Sample.fivePlaces false) in
  let s' := snd (responseHandler Simple.options response
                   (PageStats.initial, Simple.emptyWorld)) in
  requestsOf (effects s')
  = rankedRequests Simple.options (fun offset => Some ((2 - 1) * 20 + Z.of_nat offset + 1))
      "https://www.google.com/maps/search/cafe" (offsetsFrom 0 places)
  /\ ascending (map (fun r => Req.rank (Req.userData r)) (requestsOf (effects s'))).
Proof.
  intros response places s'.
  assert (Hlen : length places = 5%nat) by (vm_compute; reflexivity).
  destruct (rank_follows_page_and_offset Simple.options response PageStats.initial
              Simple.emptyWorld 2 (or_introl eq_refl) eq_refl)
    as [stop [Hle [Hreq [Hstop [_ Hasc]]]]].
  { apply Z.leb_le. vm_compute. reflexivity. }
  fold s' in Hreq, Hstop.
  cbn [body isDetailPreviewPage pageUrlAtArrival Simple.searchResponse response]
    in Hle, Hreq, Hstop, Hasc.
  fold places in Hle, Hreq, Hstop, Hasc.
  assert (stop = 5%nat) as ->.
  { destruct (decide (stop < 5)%nat) as [Hlt | Hge]; [| lia].
    destruct (Hstop eq_refl) as [Hroom _]; [lia |].
    vm_compute in Hroom. discriminate. }
  rewrite take_ge in Hreq, Hasc by lia.
  change (exportPlaceUrls Simple.options) with false in Hreq.
  change (requestsOf (effects Simple.emptyWorld)) with (@nil Req.t) in Hreq.
  cbn [app] in Hreq. rewrite Hreq. split; [reflexivity | exact Hasc].
Defined.

(** A page number above 2^53 / 20: the products and sums are rounded to
    numbers, the five places get the ranks ...1000, ...1002, ...1004, ...1004
    and ...1004, of which the first is not [(n - 1) * 20 + 0 + 1] and which
    are not strictly increasing. *)
Lemma large_page_number_counterexample :
  let n := 450359962737051 in
  let response := Simple.searchResponse n Sample.fivePlaces in
  let s' := snd (responseHandler Simple.options response
                   (PageStats.initial, Simple.emptyWorld)) in
  let ranks := map (fun r => Req.rank (Req.userData r)) (requestsOf (effects s')) in
  ranks = [Some 9007199254741000; Some 9007199254741002; Some 9007199254741004;
           Some 9007199254741004; Some 9007199254741004]
  /\ (n - 1) * 20 + 0 + 1 = 9007199254741001
  /\ ranks !! 0%nat <> Some (Some ((n - 1) * 20 + 0 + 1))
  /\ ~ ascending ranks.
Proof.
  intros n response s' ranks.
  assert (Hranks : ranks = [Some 9007199254741000; Some 9007199254741002;
                            Some 9007199254741004; Some 9007199254741004;
                            Some 9007199254741004])
    by (vm_compute; reflexivity).
  rewrite Hranks. split; [reflexivity | split; [reflexivity | split]].
  - intros Heq. vm_compute in Heq. discriminate.
  - unfold ascending. intros Hs.
    inversion Hs as [| ? ? Hs1 _]. inversion Hs1 as [| ? ? Hs2 _].
    inversion Hs2 as [| ? ? _ Hall]. inversion Hall as [| ? ? [x [y [Hx [Hy Hlt]]]] _].
    injection Hx as <-. injection Hy as <-. lia.
Qed.

Lemma speculative_reservation_witness :
  let g' := fst (handlePlace Simple.options (Some 1) "https://www.google.com/maps/search/cafe"
                   0 (place "a") freshProgress) in
  Tracker.consistent (tracker (shared g'))
  /\ Tracker.enqueuedTotal (tracker (shared g')) = 1
  /\ enqueuedNow g' = 1.
Proof.
  intros g'.
  pose proof (speculative_reservation_is_compensated Simple.options (Some 1)
                "https://www.google.com/maps/search/cafe" 0 (place "a") freshProgress
                eq_refl eq_refl) as [_ Hcons].
  split; [apply Hcons, TrackerFacts.unlimited_consistent |].
  split; vm_compute; reflexivity.
Defined.

(** A first turn in which two conditions hold at once: an HTML page arrived
    as the search response, so that a decode error is pending, and the page
    shows the end of the list. The first of the two in the order of the
    checks decides: the session ends as having reached all results. *)
Lemma stop_conditions_checked_in_order_witness :
  let st := initialSession Simple.emptyWorld in
  let conditions :=
    stopConditions Simple.options (snapshotOf Simple.options blockedEndTick st) in
  fallbackEnds Simple.options blockedEndTick st = false
  /\ conditions
     = [Some ReachedAllResults; None; Some (RetryPage ResponseBodyIsHtml);
        None; None; None; None]
  /\ snd (iteration Simple.options blockedEndTick st) = firstHolding conditions
  /\ snd (iteration Simple.options blockedEndTick st) = Some ReachedAllResults.
Proof.
  intros st conditions.
  assert (Hfb : fallbackEnds Simple.options blockedEndTick st = false)
    by (vm_compute; reflexivity).
  assert (Hc : conditions
               = [Some ReachedAllResults; None; Some (RetryPage ResponseBodyIsHtml);
                  None; None; None; None])
    by (vm_compute; reflexivity).
  pose proof (stop_conditions_checked_in_order Simple.options blockedEndTick st)
    as [_ Hturn].
  rewrite Hfb in Hturn. destruct Hturn as [Hout _]. fold conditions in Hout.
  split; [exact Hfb | split; [exact Hc | split; [exact Hout |]]].
  rewrite Hout, Hc. reflexivity.
Defined.

(** A third turn with nothing found so far, before which an HTML page
    arrives as the search response, while the page shows a place link. A
    decode error is pending when the turn begins, and the third condition is
    the first that holds on what the checks would read; yet the turn ends by
    the DOM fallback, nothing is thrown and no body is stored. *)
Lemma fallback_turn_counterexample :
  let st' := fst (iteration Simple.options blockedDomTick thirdTurnSession) in
  let out := snd (iteration Simple.options blockedDomTick thirdTurnSession) in
  (PageStats.message
     <$> PageStats.error (fst (atTurnStart Simple.options blockedDomTick thirdTurnSession)))
  = Some ResponseBodyIsHtml
  /\ firstHolding (stopConditions Simple.options
                     (snapshotOf Simple.options blockedDomTick thirdTurnSession))
     = Some (RetryPage ResponseBodyIsHtml)
  /\ out = Some DomFallbackEnqueued
  /\ out <> firstHolding (stopConditions Simple.options
                            (snapshotOf Simple.options blockedDomTick thirdTurnSession))
  /\ ~ List.In (SaveErrorSnapshot "<html>blocked</html>") (effects (world st')).
Proof.
  vm_compute. repeat split; try reflexivity; try discriminate.
  intros Hin. repeat (destruct Hin as [Hin | Hin]; [discriminate |]). exact Hin.
Qed.

(** The scenario of the specification: the five places arrive before each of eleven
    turns. The session ends on the second turn by the check of a step
    without a new place, with 10 found; the count of empty scrolls is 0. *)
Lemma eleven_steps_counterexample :
  let final := run (sameBodyTurns Sample.fivePlaces 11) in
  map placeId (placesPaginationData
                 (parseSearchPlacesResponseBody Sample.fivePlaces false))
  = [JString "a"; JString "b"; JString "c"; JString "d"; JString "e"]
  /\ snd final = Some OnlyKnownPlaces
  /\ snd final <> Some ScrollingYieldsNoMore
  /\ PageStats.pageNum (pageStats (fst final)) = 2
  /\ PageStats.totalFound (pageStats (fst final)) = 10
  /\ PageStats.totalEnqueued (pageStats (fst final)) = 5
  /\ numberOfEmptyScrolls (fst final) = 0.
Proof. vm_compute. repeat split; try reflexivity. discriminate. Qed.

Lemma repeated_places_witness :
  let places :=
    placesPaginationData (parseSearchPlacesResponseBody Sample.fivePlaces false) in
  let st := fst (run (sameBodyTurns Sample.fivePlaces (2 + 9))) in
  snd (run (sameBodyTurns Sample.fivePlaces (2 + 9))) = Some OnlyKnownPlaces
  /\ PageStats.pageNum (pageStats st) = 2
  /\ PageStats.totalFound (pageStats st) = 2 * Z.of_nat (length places)
  /\ PageStats.totalEnqueued (pageStats st) = Z.of_nat (length places)
  /\ PageStats.found (pageStats st) = Z.of_nat (length places)
  /\ PageStats.enqueued (pageStats st) = 0
  /\ numberOfEmptyScrolls st = 0.
Proof.
  intros places.
  apply (ScenarioFacts.repeated_places_end_the_session_on_the_second_turn
           Sample.fivePlaces places ["a"; "b"; "c"; "d"; "e"] 9).
  - vm_compute. reflexivity.
  - vm_compute. reflexivity.
  - apply (bool_decide_unpack _). vm_compute. exact I.
  - vm_compute. lia.
  - vm_compute. reflexivity.
Defined.

(** C9, the code on two sessions. In the first no response arrives during
    three turns and the page shows no link: the third turn begins with page
    number 3 and nothing found, and the flag [useDOMFallback] is set. The
    flag is never read: the five places of the response that arrives before
    the fourth turn are decoded by the wire decoder and enqueued with their
    ranks and categories. In the second the page of the third turn shows
    three links, two of them to the same place: the fallback takes three
    reservations, the queue accepts two requests, and the reservation of the
    duplicate is not given back, the tracker counting 3 for 2 places
    enqueued; the handler of the responses, given five places twice, gives
    the five reservations of the duplicates back. *)
Theorem fallback_flag_is_set_and_never_read :
  let third := fst (run (take 3 lateResponseTurns)) in
  let final := fst (run lateResponseTurns) in
  let repeated := fst (iteration Simple.options repeatedLinkTick thirdTurnSession) in
  let twice := fst (run (sameBodyTurns Sample.fivePlaces 2)) in
  (fallbackDue (fst (atTurnStart Simple.options (Simple.quietTick []) thirdTurnSession)) = true
   /\ useDOMFallback third = true
   /\ requestsOf (effects (world third)) = []
   /\ useDOMFallback final = true
   /\ map summary (requestsOf (effects (world final)))
      = [(JString "a", Some 61, true); (JString "b", Some 62, true);
         (JString "c", Some 63, true); (JString "d", Some 64, true);
         (JString "e", Some 65, true)])
  /\ (snd (iteration Simple.options repeatedLinkTick thirdTurnSession)
      = Some DomFallbackEnqueued
      /\ map summary (requestsOf (effects (world repeated)))
         = [(JString "ChIJ0", Some 1, false); (JString "ChIJ0", Some 2, false);
            (JString "ChIJ1", Some 2, false)]
      /\ requestQueue (world repeated) = [JString "ChIJ0"; JString "ChIJ1"]
      /\ PageStats.totalEnqueued (pageStats repeated) = 2
      /\ Tracker.enqueuedTotal (tracker (world repeated)) = 3)
  /\ (length (requestsOf (effects (world twice))) = 10%nat
      /\ PageStats.totalEnqueued (pageStats twice) = 5
      /\ Tracker.enqueuedTotal (tracker (world twice)) = 5).
Proof. vm_compute. repeat split; reflexivity. Qed.

End ScenarioExamples.

(** * Further properties of the code *)

(** ** The envelope of a response body *)

Module EnvelopeFacts.
Import Text.

Lemma append_nil (s : string) : EmptyString +:+ s = s.
Proof. reflexivity. Qed.

Lemma append_cons c (a b : string) : String c a +:+ b = String c (a +:+ b).
Proof. reflexivity. Qed.

Lemma append_assoc (a b c : string) : (a +:+ b) +:+ c = a +:+ (b +:+ c).
Proof.
  induction a as [| x a IH]; [reflexivity |].
  rewrite !append_cons, IH. reflexivity.
Qed.

Lemma length_append (a b : string) :
  String.length (a +:+ b) = (String.length a + String.length b)%nat.
Proof.
  induction a as [| x a IH]; [reflexivity |].
  rewrite append_cons. simpl. rewrite IH. reflexivity.
Qed.

Lemma all_space_trimStart w s : all_space w = true -> trimStart (w +:+ s) = trimStart s.
Proof.
  induction w as [| c w IH]; [reflexivity |].
  rewrite append_cons. simpl. destruct (is_space c); [exact IH | discriminate].
Qed.

Lemma all_space_trimEnd_nil w : all_space w = true -> trimEnd w = EmptyString.
Proof.
  induction w as [| c w IH]; simpl; [reflexivity |].
  destruct (is_space c); [| discriminate]. intros Hw. rewrite (IH Hw). reflexivity.
Qed.

Lemma all_space_trimEnd s w : all_space w = true -> trimEnd (s +:+ w) = trimEnd s.
Proof.
  intros Hw. induction s as [| c s IH].
  - apply all_space_trimEnd_nil, Hw.
  - rewrite append_cons. simpl. rewrite IH. reflexivity.
Qed.

Lemma trimEnd_last s c :
  is_space c = false -> trimEnd (s +:+ String c EmptyString) = s +:+ String c EmptyString.
Proof.
  intros Hc. induction s as [| d s IH].
  - simpl. rewrite Hc. reflexivity.
  - rewrite append_cons. cbn [trimEnd]. rewrite IH.
    destruct s; rewrite ?append_cons, ?append_nil; cbn [is_empty];
      rewrite andb_false_r; reflexivity.
Qed.

(** A text that ends with a character other than white space has no suffix
    of white space only, except the empty one. *)
Lemma all_space_drop_last c : is_space c = false -> forall s n,
  (n <= String.length s)%nat -> all_space (drop n (s +:+ String c EmptyString)) = false.
Proof.
  intros Hc. induction s as [| d s IH]; intros n Hn.
  - simpl in Hn. assert (n = 0%nat) as -> by lia. simpl. rewrite Hc. reflexivity.
  - rewrite append_cons. destruct n as [| n].
    + cbn [drop all_space]. destruct (is_space d); [| reflexivity]. apply (IH 0%nat). lia.
    + cbn [drop]. apply IH. simpl in Hn. lia.
Qed.

Lemma marker_split : commentMarker = markerBody +:+ "/".
Proof. reflexivity. Qed.

(** The comment is cut where it starts and nowhere before. *)
Lemma stripTrailingComment_marker x : stripTrailingComment (x +:+ commentMarker) = x.
Proof.
  induction x as [| c x IH].
  - reflexivity.
  - rewrite append_cons. cbn [stripTrailingComment].
    assert (Hd : all_space (drop 6 (String c (x +:+ commentMarker))) = false).
    { rewrite marker_split, <- append_assoc, <- append_cons.
      apply all_space_drop_last; [reflexivity |].
      cbn [String.length]. rewrite length_append. simpl. lia. }
    rewrite Hd. destruct (startsWith _ _); rewrite IH; reflexivity.
Qed.

Lemma stripLeadingGuard_guard s : stripLeadingGuard (xssiGuard +:+ s) = trimStart s.
Proof.
  unfold xssiGuard. rewrite !append_cons, append_nil. unfold stripLeadingGuard.
  simpl. rewrite TextFacts.startsWith_nil. reflexivity.
Qed.

Lemma trimStart_guard s : trimStart (xssiGuard +:+ s) = xssiGuard +:+ s.
Proof. unfold xssiGuard. rewrite !append_cons, append_nil. reflexivity. Qed.

Lemma clean_enveloped before between after payload :
  all_space before = true -> all_space between = true -> all_space after = true ->
  trimStart payload = payload ->
  cleanGoogleResponse (enveloped before between after payload) = payload.
Proof.
  intros Hb Hm Ha Hp. unfold cleanGoogleResponse, enveloped, trim.
  rewrite (all_space_trimStart _ _ Hb), trimStart_guard.
  rewrite <- !append_assoc. rewrite (all_space_trimEnd _ _ Ha).
  rewrite marker_split, <- append_assoc, trimEnd_last by reflexivity.
  rewrite append_assoc, <- marker_split, stripTrailingComment_marker.
  rewrite !append_assoc, stripLeadingGuard_guard, (all_space_trimStart _ _ Hm).
  exact Hp.
Qed.

End EnvelopeFacts.

Section EnvelopeDecoding.
Context `{Runtime}.

(** X1. Cleaning removes the whole envelope: for a payload that does not
    begin with white space, put behind white space, the guard and white
    space and in front of the trailing comment and white space, the cleaned
    text is the payload; and when cleaning leaves the payload itself
    unchanged, the enveloped body decodes to the same records and the same
    error as the payload alone, for both kinds of response. *)
Theorem enveloped_body_decodes_like_its_payload
  (before between after payload : string) (kind : bool) :
  Text.all_space before = true ->
  Text.all_space between = true ->
  Text.all_space after = true ->
  Text.trimStart payload = payload ->
  cleanGoogleResponse (enveloped before between after payload) = payload
  /\ (cleanGoogleResponse payload = payload ->
      parseSearchPlacesResponseBody (enveloped before between after payload) kind
      = parseSearchPlacesResponseBody payload kind).
Proof.
  intros Hb Hm Ha Hp.
  pose proof (EnvelopeFacts.clean_enveloped _ _ _ _ Hb Hm Ha Hp) as Hclean.
  split; [exact Hclean |].
  intros Hsame. unfold parseSearchPlacesResponseBody, parseStage.
  rewrite Hclean, !Hsame. reflexivity.
Qed.

End EnvelopeDecoding.

(** The payload of two places behind a line feed, the guard and a space, and
    in front of the comment and a line feed. *)
Lemma enveloped_body_witness :
  let payload := Sample.searchInner Sample.quoted in
  let body := enveloped (String Text.newline EmptyString) " "
                (String Text.newline EmptyString) payload in
  cleanGoogleResponse body = payload
  /\ parseSearchPlacesResponseBody body false = parseSearchPlacesResponseBody payload false.
Proof.
  assert (Hspace : Text.all_space (String Text.newline EmptyString) = true) by reflexivity.
  assert (Hstart : Text.trimStart (Sample.searchInner Sample.quoted)
                   = Sample.searchInner Sample.quoted) by (vm_compute; reflexivity).
  assert (Hclean : cleanGoogleResponse (Sample.searchInner Sample.quoted)
                   = Sample.searchInner Sample.quoted) by (vm_compute; reflexivity).
  destruct (enveloped_body_decodes_like_its_payload
              (String Text.newline EmptyString) " " (String Text.newline EmptyString)
              (Sample.searchInner Sample.quoted) false Hspace eq_refl Hspace Hstart)
    as [H1 H2].
  split; [exact H1 | exact (H2 Hclean)].
Defined.

(** ** The structural search *)

Lemma subtree_child items j child rest :
  nth_error items j = Some child ->
  subtree (JArray items) (j :: rest) = subtree child rest.
Proof.
  intros Hj. unfold subtree. simpl. rewrite (nth_error_nth _ _ JUndefined Hj). reflexivity.
Qed.

(** What the loop over the children of a node finds was found in one of
    them. *)
Lemma children_found (depth maxDepth : nat) (path : list nat) e : forall l i,
  In e ((fix children (l : list json) (i : nat) : list (list nat * json) :=
           match l with
           | [] => []
           | child :: l' =>
               collectPlacesRecursively child (S depth) maxDepth (path ++ [i])
               ++ children l' (S i)
           end) l i) ->
  exists j child,
    nth_error l j = Some child
    /\ In e (collectPlacesRecursively child (S depth) maxDepth (path ++ [(i + j)%nat])).
Proof.
  induction l as [| child l IH]; intros i Hin; [destruct Hin |].
  apply in_app_or in Hin as [Hin | Hin].
  - exists 0%nat, child. rewrite Nat.add_0_r. split; [reflexivity | exact Hin].
  - destruct (IH _ Hin) as [j [c [Hj Hc]]].
    exists (S j), c. split; [exact Hj |].
    replace (i + S j)%nat with (S i + j)%nat by lia. exact Hc.
Qed.

(** By induction on the number [k] of levels left to the search. *)
Lemma collect_sound (maxDepth : nat) : forall (k : nat) node depth path p c,
  (S maxDepth <= depth + k)%nat ->
  In (p, c) (collectPlacesRecursively node depth maxDepth path) ->
  exists q,
    p = path ++ q /\ subtree node q = c /\ isPlaceDataCandidate c = true
    /\ (depth + length q <= S maxDepth)%nat
    /\ forall q1 q2, q = q1 ++ q2 -> q2 <> [] ->
                     isPlaceDataCandidate (subtree node q1) = false.
Proof.
  induction k as [| k IH]; intros node depth path p c Hk Hin.
  - assert (Hd : (maxDepth <? depth)%nat = true) by (apply Nat.ltb_lt; lia).
    destruct node; cbn [collectPlacesRecursively] in Hin; rewrite Hd in Hin; destruct Hin.
  - destruct node; cbn [collectPlacesRecursively] in Hin;
      try (rewrite orb_true_r in Hin; destruct Hin).
    destruct (maxDepth <? depth)%nat eqn:Hd; [destruct Hin |].
    apply Nat.ltb_ge in Hd. cbn [orb Js.isArray negb] in Hin.
    destruct (isPlaceDataCandidate (JArray items)) eqn:Hcand.
    + destruct Hin as [[= <- <-] | []].
      exists []. rewrite app_nil_r. simpl. repeat split; [exact Hcand | lia |].
      intros q1 q2 Hq Hne. symmetry in Hq. apply app_eq_nil in Hq as [_ ->].
      contradiction.
    + apply in_app_or in Hin as [Hin | Hin].
      * destruct ((2 <=? Js.arrayLength (JArray items))%nat
                  && match Js.idx (JArray items) 0 with JNull => true | _ => false end
                  && isPlaceDataCandidate (Js.idx (JArray items) 1)) eqn:Hw;
          [| destruct Hin].
        destruct Hin as [[= <- <-] | []].
        apply andb_true_iff in Hw as [_ Hw].
        exists [1%nat]. simpl. repeat split; [exact Hw | lia |].
        intros q1 q2 Hq Hne. destruct q1 as [| a q1]; [exact Hcand |].
        injection Hq as _ Hq. symmetry in Hq. apply app_eq_nil in Hq as [_ ->].
        contradiction.
      * apply children_found in Hin as [j [child [Hj Hin]]].
        apply IH in Hin as [q [-> [Hsub [Hc [Hlen Hout]]]]]; [| lia].
        exists (j :: q). rewrite <- app_assoc.
        split; [reflexivity |].
        split; [rewrite (subtree_child _ _ _ _ Hj); exact Hsub |].
        split; [exact Hc |]. split; [cbn [length]; lia |].
        intros q1 q2 Hq Hne. destruct q1 as [| a q1]; [exact Hcand |].
        injection Hq as <- Hq. rewrite (subtree_child _ _ _ _ Hj).
        apply (Hout q1 q2 Hq Hne).
Qed.

(** X2. Every array that the structural search reports is a place candidate
    and is the node of the payload at the path reported with it; the path has
    at most seven indices (six levels, and one more through the pattern of
    [null] followed by a candidate); and no node above it on that path is a
    candidate itself: the search reports outermost candidates only. *)
Theorem structural_search_finds_outermost_candidates
  (data : json) (path : list nat) (candidate : json) :
  In (path, candidate) (collectPlacesRecursively data 0 6 []) ->
  isPlaceDataCandidate candidate = true
  /\ subtree data path = candidate
  /\ (length path <= 7)%nat
  /\ forall above below, path = above ++ below -> below <> [] ->
                         isPlaceDataCandidate (subtree data above) = false.
Proof.
  intros Hin. apply (collect_sound 6 7 data 0%nat [] path candidate) in Hin; [| lia].
  destruct Hin as [q [-> [Hsub [Hc [Hlen Hout]]]]]. simpl in *. auto.
Qed.

(** The first candidate found in the payload of the two places. *)
Lemma structural_search_witness :
  let data := Sample.parsed (Sample.searchInner Sample.quoted) in
  let found := nth 0 (collectPlacesRecursively data 0 6 []) ([], JNull) in
  isPlaceDataCandidate (snd found) = true
  /\ subtree data (fst found) = snd found
  /\ (length (fst found) <= 7)%nat
  /\ forall above below, fst found = above ++ below -> below <> [] ->
                         isPlaceDataCandidate (subtree data above) = false.
Proof.
  assert (Hin : let data := Sample.parsed (Sample.searchInner Sample.quoted) in
                let found := nth 0 (collectPlacesRecursively data 0 6 []) ([], JNull) in
                In (fst found, snd found) (collectPlacesRecursively data 0 6 []))
    by (vm_compute; left; reflexivity).
  exact (structural_search_finds_outermost_candidates _ _ _ Hin).
Defined.

Lemma subtree_undefined q : subtree JUndefined q = JUndefined.
Proof. induction q as [| j q IH]; [reflexivity | exact IH]. Qed.

Lemma candidate_is_array c : isPlaceDataCandidate c = true -> Js.isArray c = true.
Proof.
  unfold isPlaceDataCandidate. intros Hc.
  apply andb_true_iff in Hc as [Hc _]. apply andb_true_iff in Hc as [Hc _].
  apply andb_true_iff in Hc as [Hc _]. exact Hc.
Qed.

Lemma children_complete (depth maxDepth : nat) (path : list nat) e : forall l i j child,
  nth_error l j = Some child ->
  In e (collectPlacesRecursively child (S depth) maxDepth (path ++ [(i + j)%nat])) ->
  In e ((fix children (l : list json) (i : nat) : list (list nat * json) :=
           match l with
           | [] => []
           | child :: l' =>
               collectPlacesRecursively child (S depth) maxDepth (path ++ [i])
               ++ children l' (S i)
           end) l i).
Proof.
  induction l as [| c l IH]; intros i j child Hj Hin; [destruct j; discriminate |].
  apply in_or_app. destruct j as [| j].
  - injection Hj as ->. rewrite Nat.add_0_r in Hin. left. exact Hin.
  - right. apply (IH (S i) j child Hj).
    replace (S i + j)%nat with (i + S j)%nat by lia. exact Hin.
Qed.

Lemma collect_complete (maxDepth : nat) : forall q node depth path,
  (depth + length q <= maxDepth)%nat ->
  (forall q1 q2, q = q1 ++ q2 -> q2 <> [] ->
     Js.isArray (subtree node q1) = true
     /\ isPlaceDataCandidate (subtree node q1) = false) ->
  isPlaceDataCandidate (subtree node q) = true ->
  In (path ++ q, subtree node q) (collectPlacesRecursively node depth maxDepth path).
Proof.
  induction q as [| j q IH]; intros node depth path Hlen Habove Hc.
  - cbn [subtree fold_left] in *. rewrite app_nil_r.
    pose proof (candidate_is_array _ Hc) as Ha.
    destruct node; try discriminate. cbn [collectPlacesRecursively].
    assert (Hd : (maxDepth <? depth)%nat = false) by (apply Nat.ltb_ge; simpl in Hlen; lia).
    rewrite Hd, Hc. left. reflexivity.
  - destruct (Habove [] (j :: q) eq_refl) as [Ha Hn]; [discriminate |].
    cbn [subtree fold_left] in Ha, Hn.
    destruct node as [| | b | m e | s | items | fields]; try discriminate.
    cbn [collectPlacesRecursively].
    assert (Hd : (maxDepth <? depth)%nat = false)
      by (apply Nat.ltb_ge; cbn [length] in Hlen; lia).
    rewrite Hd, Hn. cbn [orb Js.isArray negb]. apply in_or_app. right.
    destruct (nth_error items j) as [child |] eqn:Hj.
    + assert (Hchild : forall r, subtree (JArray items) (j :: r) = subtree child r)
        by (intros r; apply subtree_child; exact Hj).
      apply (children_complete depth maxDepth path _ items 0%nat j child Hj).
      cbn [Nat.add]. rewrite Hchild.
      replace (path ++ j :: q) with ((path ++ [j]) ++ q) by (rewrite <- app_assoc; reflexivity).
      apply IH.
      * cbn [length] in Hlen. lia.
      * intros q1 q2 Hq Hne. rewrite <- Hchild.
        apply (Habove (j :: q1) q2); [rewrite Hq; reflexivity | exact Hne].
      * rewrite <- Hchild. exact Hc.
    + exfalso. apply nth_error_None in Hj.
      assert (Hu : subtree (JArray items) (j :: q) = JUndefined).
      { unfold subtree. cbn [fold_left Js.idx]. rewrite nth_overflow by exact Hj.
        apply subtree_undefined. }
      rewrite Hu in Hc. discriminate.
Qed.

(** X24. The structural search misses no outermost candidate within its
    depth: a candidate at a path of at most six indices, every node above
    which on the path is an array and no candidate, is reported with that
    path. *)
Theorem structural_search_misses_no_outermost_candidate
  (data : json) (path : list nat) :
  (length path <= 6)%nat ->
  (forall above below, path = above ++ below -> below <> [] ->
     Js.isArray (subtree data above) = true
     /\ isPlaceDataCandidate (subtree data above) = false) ->
  isPlaceDataCandidate (subtree data path) = true ->
  In (path, subtree data path) (collectPlacesRecursively data 0 6 []).
Proof.
  intros Hlen Habove Hc.
  apply (collect_complete 6 path data 0%nat [] Hlen Habove Hc).
Qed.

(** The second place of the payload of the two places, at the path of its
    index. *)
Lemma structural_search_complete_witness :
  let data := Sample.parsed (Sample.searchInner Sample.quoted) in
  In ([1%nat], subtree data [1%nat]) (collectPlacesRecursively data 0 6 []).
Proof.
  apply (structural_search_misses_no_outermost_candidate
           (Sample.parsed (Sample.searchInner Sample.quoted)) [1%nat]).
  - simpl. lia.
  - intros above below Hp Hne. destruct above as [| a above].
    + vm_compute. split; reflexivity.
    + destruct above; destruct below; try discriminate. contradiction.
  - vm_compute. reflexivity.
Defined.

(** ** The records of a decode *)

Section RecordFacts.
Context `{Runtime}.

Lemma pushOrganic_Forall (P : PlacePaginationData -> Prop) found : forall seen acc,
  Forall P acc ->
  (forall c p, parseJsonResult c false = Some p -> Js.truthy (placeId p) = true -> P p) ->
  Forall P (pushOrganic found seen acc).
Proof.
  induction found as [| [path c] found IH]; intros seen acc Hacc HP; [exact Hacc |].
  cbn [pushOrganic]. destruct (parseJsonResult c false) as [p |] eqn:Ep; [| auto].
  destruct (Js.truthy (placeId p)) eqn:Et; [| auto].
  destruct (setHas seen _); [auto |].
  apply IH; [| exact HP]. apply Forall_app. split; [exact Hacc |].
  constructor; [eapply HP; eassumption | constructor].
Qed.

Lemma ads_identified ads :
  Forall (fun r => isAdvertisement r = true) ads -> Forall identified ads.
Proof.
  intros Hall. eapply Forall_impl; [exact Hall |].
  intros r Hr Hn. rewrite Hr in Hn. discriminate.
Qed.

(** X3. Whatever the body of a search response, every record decoded from it
    that is not flagged as an advertisement has a truthy place id; only the
    record of an advertisement can lack one. *)
Theorem organic_records_carry_an_id (body : string) :
  Forall identified (placesPaginationData (parseSearchPlacesResponseBody body false)).
Proof.
  unfold parseSearchPlacesResponseBody, decodeSearchPage.
  destruct (parseStage body) as [err | jo]; [constructor |].
  destruct (locatePayload jo) as [e | [err | data]]; try constructor.
  destruct (extractAds data []) as [ads [e |]] eqn:Eads.
  - apply ads_identified. eapply extractAds_are_ads; eassumption.
  - destruct (length _ =? 0)%nat; cbn [placesPaginationData].
    + apply ads_identified. eapply extractAds_are_ads; eassumption.
    + apply pushOrganic_Forall.
      * apply ads_identified. eapply extractAds_are_ads; eassumption.
      * intros c p _ Ht _. exact Ht.
Qed.

(** X4. Records next to an error are advertisements: whenever the decoder
    reports an error, the records it returns with it are all flagged as
    advertisements (those pushed before the extraction of the advertisements
    failed). A detail preview response gives at most one record, never an
    advertisement, and none with an error. *)
Theorem records_beside_an_error_are_advertisements (body : string) (kind : bool) :
  let out := parseSearchPlacesResponseBody body kind in
  (error out <> None -> Forall (fun r => isAdvertisement r = true) (placesPaginationData out))
  /\ (kind = true ->
      (length (placesPaginationData out) <= 1)%nat
      /\ Forall (fun r => isAdvertisement r = false) (placesPaginationData out)
      /\ (error out <> None -> placesPaginationData out = [])).
Proof.
  cbv zeta. unfold parseSearchPlacesResponseBody.
  destruct (parseStage body) as [err | jo].
  { cbn. split; [constructor | intros _; split; [lia | split; [constructor | reflexivity]]]. }
  split.
  - destruct kind.
    + unfold decodeDetailPreview. destruct (Js.get jo 6) as [e | v]; [constructor |].
      destruct (parseJsonResult v false); cbn; intros Hn; contradiction.
    + unfold decodeSearchPage.
      destruct (locatePayload jo) as [e | [err | data]]; try constructor.
      destruct (extractAds data []) as [ads [e |]] eqn:Eads.
      * intros _. eapply extractAds_are_ads; eassumption.
      * destruct (length _ =? 0)%nat; cbn; intros Hn; contradiction.
  - intros ->. unfold decodeDetailPreview.
    destruct (Js.get jo 6) as [e | v].
    { cbn. split; [lia | split; [constructor | reflexivity]]. }
    destruct (parseJsonResult v false) as [p |] eqn:Ep; cbn.
    + split; [lia | split; [| intros Hn; contradiction]].
      constructor; [eapply parseJsonResult_flag; eassumption | constructor].
    + split; [lia | split; [constructor | reflexivity]].
Qed.

End RecordFacts.

(** A search payload whose advertisements are a place and [null]: the
    extraction fails at the second, the record of the first stays. *)
Example advertisement_before_an_error :
  let body := Sample.arrayText ["null"; "null";
                Sample.arrayText ["null"; Sample.arrayText [Sample.arrayText [
                  Sample.adText (Sample.placeText (Sample.quoted "ad1")); "null"]]]] in
  let out := parseSearchPlacesResponseBody body false in
  map placeId (placesPaginationData out) = [JString "ad1"]
  /\ map isAdvertisement (placesPaginationData out) = [true]
  /\ error out
     = Some (FailedParsingJsonResponse
               (TypeError "Cannot read properties of null or undefined")).
Proof. vm_compute. repeat split; reflexivity. Qed.

(** ** The counters of a session and the effect log *)

Lemma tally_app f l1 l2 : tally f (l1 ++ l2) = tally f l1 + tally f l2.
Proof. induction l1 as [| e l1 IH]; simpl; [reflexivity | rewrite IH; lia]. Qed.

Lemma pushesOf_app l1 l2 : pushesOf (l1 ++ l2) = pushesOf l1 ++ pushesOf l2.
Proof.
  induction l1 as [| e l1 IH]; [reflexivity |].
  destruct e; simpl; rewrite IH; reflexivity.
Qed.

Section SessionFacts.
Context `{Runtime} `{Collaborators}.

Ltac tally_simpl :=
  cbn [fst snd shared enqueuedNow pushedNow tracker emit withTracker withQueue
       withDeduper withPushBudget effects];
  rewrite ?tally_app; cbn [tally isAccepted isPush isScroll]; try lia.

Lemma handlePlace_balanced o pn url index p g :
  balanced g (fst (handlePlace o pn url index p g)).
Proof.
  unfold balanced, handlePlace.
  destruct (negb (checkInPolygon (geolocation o) (coords p))).
  { repeat split; tally_simpl. }
  destruct (exportPlaceUrls o).
  - destruct (negb (canScrapeMore _ None)); [repeat split; tally_simpl |].
    destruct (negb (canScrapeMore _ (searchString o))); [repeat split; tally_simpl |].
    destruct (exportUrlsDeduper _) as [d |].
    + destruct (testDuplicateAndAdd d (placeId p)) as [d' dup].
      destruct dup; cbn [negb];
        match goal with
        | |- context [if ?b then _ else _] => destruct b
        end; repeat split; tally_simpl.
    + cbn [negb].
      match goal with
      | |- context [if ?b then _ else _] => destruct b
      end; repeat split; tally_simpl.
  - destruct (Tracker.setEnqueued _ _) as [tr reserved].
    destruct reserved; cbn [negb]; [| repeat split; tally_simpl].
    match goal with
    | |- context [addRequest ?q ?r] => destruct (addRequest q r) as [q' present]
    end.
    destruct present; cbn [negb]; repeat split; tally_simpl.
Qed.

Lemma balanced_refl g : balanced g g.
Proof. unfold balanced. repeat split; lia. Qed.

Lemma balanced_trans g1 g2 g3 : balanced g1 g2 -> balanced g2 g3 -> balanced g1 g3.
Proof. unfold balanced. intros [? [? ?]] [? [? ?]]. repeat split; lia. Qed.

Lemma handlePlaces_balanced o pn url places : forall index g,
  balanced g (handlePlaces o pn url index places g).
Proof.
  induction places as [| p places IH]; intros index g; [apply balanced_refl |].
  cbn [handlePlaces].
  pose proof (handlePlace_balanced o pn url (index + 1) p g) as Hstep.
  destruct (handlePlace o pn url (index + 1) p g) as [g1 flow]. cbn [fst] in Hstep.
  destruct flow; [| exact Hstep].
  eapply balanced_trans; [exact Hstep | apply IH].
Qed.

Lemma responseHandler_ledger o response ps s :
  let st' := responseHandler o response (ps, s) in
  ledger (fst st') (snd st') = ledger ps s.
Proof.
  cbv zeta. unfold responseHandler.
  destruct (negb (isSearchPage response) && negb (isDetailPreviewPage response));
    [reflexivity |].
  match goal with
  | |- context [handlePlaces ?o ?pn ?url ?i ?l ?g] =>
      pose proof (handlePlaces_balanced o pn url l i g) as [H1 [H2 H3]];
      destruct (handlePlaces o pn url i l g) as [s' e' p']
  end.
  cbn [shared enqueuedNow pushedNow emit effects] in H1, H2, H3.
  rewrite !tally_app in H1, H2, H3.
  cbn [tally isAccepted isPush isScroll] in H1, H2, H3.
  unfold ledger. cbn [fst snd PageStats.totalEnqueued PageStats.totalPushed PageStats.pageNum
                      shared enqueuedNow pushedNow].
  f_equal; [f_equal |]; lia.
Qed.

Lemma handleResponses_ledger o responses : forall ps s,
  let st' := handleResponses o responses (ps, s) in
  ledger (fst st') (snd st') = ledger ps s.
Proof.
  unfold handleResponses.
  induction responses as [| r responses IH]; intros ps s; [reflexivity |].
  cbn [fold_left]. pose proof (responseHandler_ledger o r ps s) as Hstep.
  destruct (responseHandler o r (ps, s)) as [ps1 s1]. cbn [fst snd] in Hstep.
  cbv zeta in *. rewrite IH. exact Hstep.
Qed.

Lemma enqueueDomPlaces_ledger o url places : forall ps s,
  let st' := enqueueDomPlaces o url places (ps, s) in
  ledger (fst st') (snd st') = ledger ps s.
Proof.
  induction places as [| d places IH]; intros ps s; [reflexivity |].
  cbn [enqueueDomPlaces].
  destruct (Tracker.setEnqueued (searchKeyOf o) (tracker s)) as [tr reserved].
  destruct reserved; cbn [negb]; [| reflexivity].
  destruct (addRequest _ _) as [q present].
  cbv zeta in *. rewrite IH. unfold ledger.
  destruct present; cbn [negb]; tally_simpl;
    cbn [countEnqueued PageStats.totalEnqueued PageStats.totalPushed PageStats.pageNum];
    f_equal; [f_equal | | f_equal |]; lia.
Qed.

Lemma iteration_ledger o t st :
  let st' := fst (iteration o t st) in
  ledger (pageStats st') (world st') = ledger (pageStats st) (world st).
Proof.
  cbv zeta. unfold iteration.
  pose proof (handleResponses_ledger o (arrivedBefore t) (pageStats st) (world st)) as H1.
  destruct (handleResponses o (arrivedBefore t) (pageStats st, world st)) as [ps s].
  cbn [fst snd] in H1. rewrite <- H1. clear H1.
  set (fallback := (2 <? PageStats.pageNum ps) && (PageStats.totalFound ps =? 0)).
  assert (H2 : ledger ps (if fallback then emit SaveScreenshot s else s) = ledger ps s).
  { destruct fallback; [| reflexivity]. unfold ledger. tally_simpl.
    f_equal; [f_equal |]; lia. }
  rewrite <- H2. clear H2.
  destruct (fallback && (0 <? length (domPlaces t))%nat).
  - pose proof (enqueueDomPlaces_ledger o (pageUrl t) (domPlaces t) ps
                  (emit SaveDomPlaces (if fallback then emit SaveScreenshot s else s))) as H3.
    destruct (enqueueDomPlaces _ _ _ _) as [ps' s']. cbn [fst snd pageStats world] in *.
    rewrite H3. unfold ledger. tally_simpl. f_equal; [f_equal |]; lia.
  - pose proof (handleResponses_ledger o (arrivedWhileProbing t) ps
                  (if fallback then emit SaveScreenshot s else s)) as H3.
    destruct (handleResponses o (arrivedWhileProbing t) _) as [ps2 s2].
    cbn [fst snd] in H3. rewrite <- H3.
    destruct (stopChecks o _) as [[| | | message | | | |] |];
      cbn [fst pageStats world]; try reflexivity.
    + destruct (PageStats.error ps2); [| reflexivity].
      unfold ledger. tally_simpl. f_equal; [f_equal |]; lia.
    + unfold ledger, scrollEffects.
      cbn [effects withPageNum PageStats.totalEnqueued PageStats.totalPushed PageStats.pageNum].
      rewrite !tally_app. cbn [tally isAccepted isPush isScroll].
      f_equal; [f_equal |]; lia.
Qed.

Lemma scrollingLoop_ledger o ticks : forall st,
  let st' := fst (scrollingLoop o ticks st) in
  ledger (pageStats st') (world st') = ledger (pageStats st) (world st).
Proof.
  induction ticks as [| t ticks IH]; intros st; [reflexivity |].
  cbn [scrollingLoop]. pose proof (iteration_ledger o t st) as Hstep.
  destruct (iteration o t st) as [st1 [out |]]; cbn [fst] in *; [exact Hstep |].
  cbv zeta in *. rewrite IH. exact Hstep.
Qed.

(** X5. Over a whole session, responses and DOM fallback included, the total
    of enqueued places grows by the number of requests that the queue took as
    new, no more and no less. *)
Theorem total_enqueued_counts_the_accepted_requests
  (o : Options) (ticks : list Tick) (st : Session) :
  let st' := fst (scrollingLoop o ticks st) in
  PageStats.totalEnqueued (pageStats st') - PageStats.totalEnqueued (pageStats st)
  = tally isAccepted (effects (world st')) - tally isAccepted (effects (world st)).
Proof.
  cbv zeta. pose proof (scrollingLoop_ledger o ticks st) as Hl. cbv zeta in Hl.
  unfold ledger in Hl. injection Hl as H1 _ _. lia.
Qed.

(** X6. Over a whole session the total of pushed places grows by the number
    of addresses pushed to the dataset. *)
Theorem total_pushed_counts_the_pushes
  (o : Options) (ticks : list Tick) (st : Session) :
  let st' := fst (scrollingLoop o ticks st) in
  PageStats.totalPushed (pageStats st') - PageStats.totalPushed (pageStats st)
  = tally isPush (effects (world st')) - tally isPush (effects (world st)).
Proof.
  cbv zeta. pose proof (scrollingLoop_ledger o ticks st) as Hl. cbv zeta in Hl.
  unfold ledger in Hl. injection Hl as _ H2 _. lia.
Qed.

(** X7. Over a whole session the page number grows by the number of turns of
    the mouse wheel: each scroll is one page, and nothing else changes the
    page number. *)
Theorem page_number_counts_the_scrolls
  (o : Options) (ticks : list Tick) (st : Session) :
  let st' := fst (scrollingLoop o ticks st) in
  PageStats.pageNum (pageStats st') - PageStats.pageNum (pageStats st)
  = tally isScroll (effects (world st')) - tally isScroll (effects (world st)).
Proof.
  cbv zeta. pose proof (scrollingLoop_ledger o ticks st) as Hl. cbv zeta in Hl.
  unfold ledger in Hl. injection Hl as _ _ H3. lia.
Qed.

Ltac log_simpl :=
  cbn [fst snd shared enqueuedNow pushedNow tracker requestQueue pushBudget
       exportUrlsDeduper emit withTracker withQueue withDeduper withPushBudget effects];
  rewrite ?requestsOf_app, ?pushesOf_app; cbn [requestsOf pushesOf];
  rewrite ?app_nil_r; try reflexivity.

Lemma handlePlace_export o pn url index p g :
  exportPlaceUrls o = true \/ checkInPolygon (geolocation o) (coords p) = false ->
  queueUntouched g (fst (handlePlace o pn url index p g)).
Proof.
  intros Hcase. unfold queueUntouched, handlePlace.
  destruct (negb (checkInPolygon (geolocation o) (coords p))) eqn:Hgeo.
  { repeat split; log_simpl. }
  destruct Hcase as [-> | Hout]; [| rewrite Hout in Hgeo; discriminate].
  destruct (negb (canScrapeMore _ None)); [repeat split; log_simpl |].
  destruct (negb (canScrapeMore _ (searchString o))); [repeat split; log_simpl |].
  destruct (exportUrlsDeduper _) as [d |].
  - destruct (testDuplicateAndAdd d (placeId p)) as [d' dup].
    destruct dup; cbn [negb];
      match goal with
      | |- context [if ?b then _ else _] => destruct b
      end; repeat split; log_simpl.
  - cbn [negb].
    match goal with
    | |- context [if ?b then _ else _] => destruct b
    end; repeat split; log_simpl.
Qed.

Lemma handlePlace_queue o pn url index p g :
  exportPlaceUrls o = false \/ checkInPolygon (geolocation o) (coords p) = false ->
  exportUntouched g (fst (handlePlace o pn url index p g)).
Proof.
  intros Hcase. unfold exportUntouched, handlePlace.
  destruct (negb (checkInPolygon (geolocation o) (coords p))) eqn:Hgeo.
  { repeat split; log_simpl. }
  destruct Hcase as [-> | Hout]; [| rewrite Hout in Hgeo; discriminate].
  destruct (Tracker.setEnqueued _ _) as [tr reserved].
  destruct reserved; cbn [negb]; [| repeat split; log_simpl].
  match goal with
  | |- context [addRequest ?q ?r] => destruct (addRequest q r) as [q' present]
  end.
  destruct present; cbn [negb]; repeat split; log_simpl.
Qed.

Lemma handlePlaces_export o pn url places : forall index g,
  exportPlaceUrls o = true
  \/ Forall (fun p => checkInPolygon (geolocation o) (coords p) = false) places ->
  queueUntouched g (handlePlaces o pn url index places g).
Proof.
  induction places as [| p places IH]; intros index g Hcase.
  { unfold queueUntouched. auto. }
  cbn [handlePlaces].
  assert (H1 : exportPlaceUrls o = true \/ checkInPolygon (geolocation o) (coords p) = false).
  { destruct Hcase as [? | Hall]; [left; assumption | right]. inversion Hall; assumption. }
  assert (H2 : exportPlaceUrls o = true
               \/ Forall (fun p => checkInPolygon (geolocation o) (coords p) = false) places).
  { destruct Hcase as [? | Hall]; [left; assumption | right]. inversion Hall; assumption. }
  pose proof (handlePlace_export o pn url (index + 1) p g H1) as Hstep.
  destruct (handlePlace o pn url (index + 1) p g) as [g1 flow]. cbn [fst] in Hstep.
  destruct flow; [| exact Hstep].
  specialize (IH (index + 1) g1 H2). unfold queueUntouched in *.
  destruct Hstep as [? [? [? ?]]], IH as [? [? [? ?]]]. repeat split; congruence.
Qed.

Lemma handlePlaces_queue o pn url places : forall index g,
  exportPlaceUrls o = false
  \/ Forall (fun p => checkInPolygon (geolocation o) (coords p) = false) places ->
  exportUntouched g (handlePlaces o pn url index places g).
Proof.
  induction places as [| p places IH]; intros index g Hcase.
  { unfold exportUntouched. auto. }
  cbn [handlePlaces].
  assert (H1 : exportPlaceUrls o = false \/ checkInPolygon (geolocation o) (coords p) = false).
  { destruct Hcase as [? | Hall]; [left; assumption | right]. inversion Hall; assumption. }
  assert (H2 : exportPlaceUrls o = false
               \/ Forall (fun p => checkInPolygon (geolocation o) (coords p) = false) places).
  { destruct Hcase as [? | Hall]; [left; assumption | right]. inversion Hall; assumption. }
  pose proof (handlePlace_queue o pn url (index + 1) p g H1) as Hstep.
  destruct (handlePlace o pn url (index + 1) p g) as [g1 flow]. cbn [fst] in Hstep.
  destruct flow; [| exact Hstep].
  specialize (IH (index + 1) g1 H2). unfold exportUntouched in *.
  destruct Hstep as [? [? [? ?]]], IH as [? [? [? ?]]]. repeat split; congruence.
Qed.


(** X8. In export mode the response handler never touches the queue side:
    whatever responses it handles, the total of enqueued places, the budget
    tracker and the request queue stay as they were and no request is
    submitted. *)
Theorem export_mode_leaves_the_queue_alone
  (o : Options) (responses : list Response) (ps : PageStats.t) (s : Shared) :
  exportPlaceUrls o = true ->
  let st' := handleResponses o responses (ps, s) in
  PageStats.totalEnqueued (fst st') = PageStats.totalEnqueued ps
  /\ tracker (snd st') = tracker s
  /\ requestQueue (snd st') = requestQueue s
  /\ requestsOf (effects (snd st')) = requestsOf (effects s).
Proof.
  intros Hmode. cbv zeta. unfold handleResponses.
  revert ps s. induction responses as [| r responses IH]; intros ps s; [auto |].
  cbn [fold_left].
  assert (Hstep : let st1 := responseHandler o r (ps, s) in
            PageStats.totalEnqueued (fst st1) = PageStats.totalEnqueued ps
            /\ tracker (snd st1) = tracker s
            /\ requestQueue (snd st1) = requestQueue s
            /\ requestsOf (effects (snd st1)) = requestsOf (effects s)).
  { cbv zeta. unfold responseHandler.
    destruct (negb (isSearchPage r) && negb (isDetailPreviewPage r)); [auto |].
    match goal with
    | |- context [handlePlaces ?o ?pn ?url ?i ?l ?g] =>
        pose proof (handlePlaces_export o pn url l i g (or_introl Hmode)) as [H1 [H2 [H3 H4]]];
        destruct (handlePlaces o pn url i l g) as [s' e' p']
    end.
    revert H1 H2 H3 H4. log_simpl. cbn [PageStats.totalEnqueued].
    intros -> ? ? ?. repeat split; try assumption; lia. }
  destruct (responseHandler o r (ps, s)) as [ps1 s1]. cbv zeta in Hstep. cbn [fst snd] in Hstep.
  destruct Hstep as [<- [<- [<- <-]]]. apply IH.
Qed.

(** X9. In queue mode the response handler never touches the export side:
    whatever responses it handles, the total of pushed places, the push
    budget and the export deduper stay as they were and nothing is pushed to
    the dataset. *)
Theorem queue_mode_pushes_nothing
  (o : Options) (responses : list Response) (ps : PageStats.t) (s : Shared) :
  exportPlaceUrls o = false ->
  let st' := handleResponses o responses (ps, s) in
  PageStats.totalPushed (fst st') = PageStats.totalPushed ps
  /\ pushBudget (snd st') = pushBudget s
  /\ exportUrlsDeduper (snd st') = exportUrlsDeduper s
  /\ pushesOf (effects (snd st')) = pushesOf (effects s).
Proof.
  intros Hmode. cbv zeta. unfold handleResponses.
  revert ps s. induction responses as [| r responses IH]; intros ps s; [auto |].
  cbn [fold_left].
  assert (Hstep : let st1 := responseHandler o r (ps, s) in
            PageStats.totalPushed (fst st1) = PageStats.totalPushed ps
            /\ pushBudget (snd st1) = pushBudget s
            /\ exportUrlsDeduper (snd st1) = exportUrlsDeduper s
            /\ pushesOf (effects (snd st1)) = pushesOf (effects s)).
  { cbv zeta. unfold responseHandler.
    destruct (negb (isSearchPage r) && negb (isDetailPreviewPage r)); [auto |].
    match goal with
    | |- context [handlePlaces ?o ?pn ?url ?i ?l ?g] =>
        pose proof (handlePlaces_queue o pn url l i g (or_introl Hmode)) as [H1 [H2 [H3 H4]]];
        destruct (handlePlaces o pn url i l g) as [s' e' p']
    end.
    revert H1 H2 H3 H4. log_simpl. cbn [PageStats.totalPushed].
    intros -> ? ? ?. repeat split; try assumption; lia. }
  destruct (responseHandler o r (ps, s)) as [ps1 s1]. cbv zeta in Hstep. cbn [fst snd] in Hstep.
  destruct Hstep as [<- [<- [<- <-]]]. apply IH.
Qed.

(** X10. A response that the handler takes and whose records all lie outside
    the geofence is counted as found and nothing else: [found] is the number
    of records, [enqueued] and [pushed] are zero, no request is submitted,
    nothing is pushed, and the tracker, the queue, the push budget and the
    deduper stay as they were, in either mode. *)
Theorem places_outside_the_geofence_are_dropped
  (o : Options) (r : Response) (ps : PageStats.t) (s : Shared) :
  isSearchPage r || isDetailPreviewPage r = true ->
  let records :=
    placesPaginationData (parseSearchPlacesResponseBody (body r) (isDetailPreviewPage r)) in
  Forall (fun p => checkInPolygon (geolocation o) (coords p) = false) records ->
  let st' := responseHandler o r (ps, s) in
  PageStats.found (fst st') = Z.of_nat (length records)
  /\ PageStats.enqueued (fst st') = 0
  /\ PageStats.pushed (fst st') = 0
  /\ tracker (snd st') = tracker s
  /\ requestQueue (snd st') = requestQueue s
  /\ pushBudget (snd st') = pushBudget s
  /\ exportUrlsDeduper (snd st') = exportUrlsDeduper s
  /\ requestsOf (effects (snd st')) = requestsOf (effects s)
  /\ pushesOf (effects (snd st')) = pushesOf (effects s).
Proof.
  intros Hmatch records Hout. cbv zeta. unfold responseHandler.
  assert (Hm : negb (isSearchPage r) && negb (isDetailPreviewPage r) = false).
  { destruct (isSearchPage r), (isDetailPreviewPage r); try reflexivity; discriminate. }
  rewrite Hm. fold records.
  match goal with
  | |- context [handlePlaces ?o ?pn ?url ?i ?l ?g] =>
      pose proof (handlePlaces_export o pn url l i g (or_intror Hout)) as [H1 [H2 [H3 H4]]];
      pose proof (handlePlaces_queue o pn url l i g (or_intror Hout)) as [H5 [H6 [H7 H8]]];
      destruct (handlePlaces o pn url i l g) as [s' e' p']
  end.
  revert H1 H2 H3 H4 H5 H6 H7 H8. log_simpl. cbn [PageStats.found PageStats.enqueued PageStats.pushed].
  intros -> ? ? ? -> ? ? ?. repeat split; assumption.
Qed.





Lemma quiet_iteration o t st :
  quiet t ->
  lastNumberOfResultsLoadedTotally st = PageStats.totalFound (pageStats st) ->
  snd (iteration o t st) = None ->
  let st' := fst (iteration o t st) in
  numberOfEmptyScrolls st' = numberOfEmptyScrolls st + 1
  /\ numberOfEmptyScrolls st' < 10
  /\ lastNumberOfResultsLoadedTotally st' = PageStats.totalFound (pageStats st').
Proof.
  intros [Hb Hw] Hlast. unfold iteration. rewrite Hb, Hw.
  cbn [handleResponses fold_left].
  set (fallback := (2 <? PageStats.pageNum (pageStats st))
                   && (PageStats.totalFound (pageStats st) =? 0)).
  destruct (fallback && (0 <? length (domPlaces t))%nat).
  { destruct (enqueueDomPlaces _ _ _ _). discriminate. }
  unfold nextEmptyScrolls. rewrite Hlast, Z.eqb_refl.
  match goal with
  | |- context [stopChecks o ?v] => destruct (stopChecks o v) as [out |] eqn:E
  end.
  { destruct out; discriminate. }
  intros _. cbv zeta. cbn [fst numberOfEmptyScrolls lastNumberOfResultsLoadedTotally
                           pageStats withPageNum PageStats.totalFound].
  split; [reflexivity | split; [| reflexivity]].
  unfold stopChecks in E. cbn [probe emptyScrolls] in E.
  destruct (noMoreResults t); [discriminate |].
  destruct (10 <=? numberOfEmptyScrolls st + 1) eqn:E10; [discriminate |].
  apply Z.leb_gt in E10. exact E10.
Qed.

Lemma quiet_loop_stops o : forall ticks st,
  Forall quiet ticks ->
  lastNumberOfResultsLoadedTotally st = PageStats.totalFound (pageStats st) ->
  ticks <> [] ->
  numberOfEmptyScrolls st + Z.of_nat (length ticks) >= 10 ->
  snd (scrollingLoop o ticks st) <> None.
Proof.
  induction ticks as [| t ticks IH]; intros st Hq Hlast Hne Hlen; [contradiction |].
  cbn [scrollingLoop]. inversion Hq as [| ? ? Ht Hrest]; subst.
  pose proof (quiet_iteration o t st Ht Hlast) as Hstep.
  destruct (iteration o t st) as [st1 [out |]]; [discriminate |].
  cbn [fst snd] in Hstep. destruct (Hstep eq_refl) as [He [Hlt Hl]].
  apply IH; [exact Hrest | exact Hl | | ].
  - destruct ticks; [| discriminate]. cbn [length] in Hlen. lia.
  - cbn [length] in Hlen. lia.
Qed.

(** X12. The hard stop: from a state in which the number of results last
    seen is the number found and the count of empty scrolls is not negative,
    as when the loop starts, ten turns during which no response arrives end
    the session; the loop does not scroll a tenth time in a row without a
    new result. *)
Theorem ten_turns_without_results_end_the_session
  (o : Options) (ticks : list Tick) (st : Session) :
  Forall quiet ticks ->
  length ticks = 10%nat ->
  lastNumberOfResultsLoadedTotally st = PageStats.totalFound (pageStats st) ->
  0 <= numberOfEmptyScrolls st ->
  snd (scrollingLoop o ticks st) <> None.
Proof.
  intros Hq Hlen Hlast He. apply quiet_loop_stops; try assumption.
  - destruct ticks; [discriminate | discriminate].
  - rewrite Hlen. lia.
Qed.

End SessionFacts.

(** ** The session properties on the examples *)

Module SessionExamples.
#[local] Existing Instance Simple.collaborators.

(** In export mode the five places of a response are pushed and none is
    enqueued. *)
Example export_mode_pushes_the_places :
  let st' := handleResponses Exporting.options [Simple.searchResponse 1 Sample.fivePlaces]
               (PageStats.initial, Exporting.emptyWorld) in
  PageStats.totalPushed (fst st') = 5
  /\ length (pushesOf (effects (snd st'))) = 5%nat
  /\ requestsOf (effects (snd st')) = [].
Proof. vm_compute. repeat split; reflexivity. Qed.

Lemma export_mode_witness :
  let st' := handleResponses Exporting.options [Simple.searchResponse 1 Sample.fivePlaces]
               (PageStats.initial, Exporting.emptyWorld) in
  PageStats.totalEnqueued (fst st') = PageStats.totalEnqueued PageStats.initial
  /\ tracker (snd st') = tracker Exporting.emptyWorld
  /\ requestQueue (snd st') = requestQueue Exporting.emptyWorld
  /\ requestsOf (effects (snd st')) = requestsOf (effects Exporting.emptyWorld).
Proof.
  exact (export_mode_leaves_the_queue_alone Exporting.options
           [Simple.searchResponse 1 Sample.fivePlaces]
           PageStats.initial Exporting.emptyWorld eq_refl).
Defined.

Lemma queue_mode_witness :
  let st' := handleResponses Simple.options [Simple.searchResponse 1 Sample.fivePlaces]
               (PageStats.initial, Simple.emptyWorld) in
  PageStats.totalPushed (fst st') = PageStats.totalPushed PageStats.initial
  /\ pushBudget (snd st') = pushBudget Simple.emptyWorld
  /\ exportUrlsDeduper (snd st') = exportUrlsDeduper Simple.emptyWorld
  /\ pushesOf (effects (snd st')) = pushesOf (effects Simple.emptyWorld).
Proof.
  exact (queue_mode_pushes_nothing Simple.options
           [Simple.searchResponse 1 Sample.fivePlaces]
           PageStats.initial Simple.emptyWorld eq_refl).
Defined.


(** Ten turns without a response, from the start of a session. *)
Lemma ten_turns_witness :
  snd (scrollingLoop Simple.options (repeat (Simple.quietTick []) 10)
         (initialSession Simple.emptyWorld)) <> None.
Proof.
  apply (ten_turns_without_results_end_the_session Simple.options
           (repeat (Simple.quietTick []) 10) (initialSession Simple.emptyWorld)).
  - repeat constructor.
  - reflexivity.
  - reflexivity.
  - simpl. lia.
Defined.

(** The session of ten turns without a response ends on the tenth by the
    count of empty scrolls, after nine scrolls. *)
Example ten_turns_scroll_nine_times :
  let final := scrollingLoop Simple.options (repeat (Simple.quietTick []) 10)
                 (initialSession Simple.emptyWorld) in
  snd final = Some ScrollingYieldsNoMore
  /\ PageStats.pageNum (pageStats (fst final)) = 10
  /\ tally isScroll (effects (world (fst final))) = 9.
Proof. vm_compute. repeat split; reflexivity. Qed.

End SessionExamples.

Module FencedExamples.
#[local] Existing Instance Fenced.collaborators.

(** The five places of a response, all outside the geofence. *)
Lemma places_outside_the_geofence_witness :
  let r := Fenced.searchResponse Sample.fivePlaces in
  let st' := responseHandler Fenced.options r (PageStats.initial, Fenced.emptyWorld) in
  PageStats.found (fst st') = 5
  /\ PageStats.enqueued (fst st') = 0
  /\ PageStats.pushed (fst st') = 0
  /\ requestsOf (effects (snd st')) = []
  /\ pushesOf (effects (snd st')) = [].
Proof.
  assert (Hout : Forall (fun p => checkInPolygon (geolocation Fenced.options) (coords p) = false)
                   (placesPaginationData
                      (parseSearchPlacesResponseBody
                         (body (Fenced.searchResponse Sample.fivePlaces))
                         (isDetailPreviewPage (Fenced.searchResponse Sample.fivePlaces)))))
    by (vm_compute; repeat constructor).
  assert (Hlen : Z.of_nat (length (placesPaginationData
                      (parseSearchPlacesResponseBody
                         (body (Fenced.searchResponse Sample.fivePlaces))
                         (isDetailPreviewPage (Fenced.searchResponse Sample.fivePlaces))))) = 5)
    by (vm_compute; reflexivity).
  destruct (places_outside_the_geofence_are_dropped Fenced.options
              (Fenced.searchResponse Sample.fivePlaces) PageStats.initial Fenced.emptyWorld
              eq_refl Hout)
    as [Hf [He [Hp [_ [_ [_ [_ [Hr Hd]]]]]]]].
  cbv zeta. rewrite Hf, He, Hp, Hr, Hd. auto.
Defined.

End FencedExamples.

(** ** Place details read from the page data *)

Module DetailsFacts.
Import Details.

Lemma get_ok v i : Js.nullish v = false -> Js.get v i = inr (Js.idx v i).
Proof. intros Hn. unfold Js.get. rewrite Hn. reflexivity. Qed.

Lemma get_fails v i : Js.nullish v = true -> exists m, Js.get v i = inl (TypeError m).
Proof. intros Hn. unfold Js.get. rewrite Hn. eexists. reflexivity. Qed.

Lemma hoursOf_spec items :
  match hoursOf items with
  | inr hours =>
      forallb (fun hourData => negb (Js.nullish hourData)) items = true
      /\ hours = map hourOutput items
  | inl e =>
      forallb (fun hourData => negb (Js.nullish hourData)) items = false
      /\ exists m, e = TypeError m
  end.
Proof.
  induction items as [| h items IH]; [simpl; auto |].
  cbn [hoursOf forallb]. destruct (Js.nullish h) eqn:Hn.
  - destruct (get_fails h 0 Hn) as [m ->]. cbn. eauto.
  - rewrite !(get_ok _ _ Hn). cbn [bind negb andb].
    destruct (hoursOf items) as [e | hours]; cbn [bind ret].
    + exact IH.
    + destruct IH as [-> ->]. auto.
Qed.

Lemma daysFrom_spec daysData : forall i histogram,
  match daysFrom daysData i histogram with
  | inr filled =>
      forallb wellFormedDay daysData = true
      /\ forall key,
           filled !! key
           = match lastDay key daysData i with
             | Some dayData => Some (hoursOutput dayData)
             | None => histogram !! key
             end
  | inl e => forallb wellFormedDay daysData = false /\ exists m, e = TypeError m
  end.
Proof.
  induction daysData as [| d daysData IH]; intros i histogram; [simpl; auto |].
  cbn [daysFrom forallb lastDay]. unfold wellFormedDay at 1 3, hoursOutput.
  destruct (Js.nullish d) eqn:Hn.
  - destruct (get_fails d 1 Hn) as [m ->]. cbn. eauto.
  - rewrite (get_ok _ _ Hn). cbn [bind negb andb].
    assert (Hother : forall h0 : gmap string (list HourOutput),
      (forall key, h0 !! key = if String.eqb (dayKey i) key then Some (hoursOutput d)
                               else histogram !! key) ->
      match daysFrom daysData (S i) h0 with
      | inr filled =>
          forallb wellFormedDay daysData = true
          /\ forall key,
               filled !! key
               = match match lastDay key daysData (S i) with
                       | Some later => Some later
                       | None => if String.eqb (dayKey i) key then Some d else None
                       end with
                 | Some dayData => Some (hoursOutput dayData)
                 | None => histogram !! key
                 end
      | inl e => forallb wellFormedDay daysData = false /\ exists m, e = TypeError m
      end).
    { intros h0 Hh0. specialize (IH (S i) h0).
      destruct (daysFrom daysData (S i) h0) as [e | filled]; [exact IH |].
      destruct IH as [Hall Hlook]. split; [exact Hall |].
      intros key. rewrite Hlook. destruct (lastDay key daysData (S i)); [reflexivity |].
      rewrite Hh0. destruct (String.eqb (dayKey i) key); reflexivity. }
    assert (Hins : forall (v : list HourOutput) (h0 : gmap string (list HourOutput)) key,
      <[dayKey i := v]> h0 !! key
      = if String.eqb (dayKey i) key then Some v else h0 !! key).
    { intros v h0 key. destruct (String.eqb (dayKey i) key) eqn:Ek.
      - apply String.eqb_eq in Ek as <-. apply lookup_insert_eq.
      - apply String.eqb_neq in Ek. apply lookup_insert_ne. exact Ek. }
    unfold hoursOutput in Hother.
    destruct (Js.idx d 1) as [| | b | m e | s | items | fields];
      try (apply Hother; intros key; apply Hins).
    pose proof (hoursOf_spec items) as Hh.
    destruct (hoursOf items) as [e | hours]; cbn [bind].
    + destruct Hh as [-> He]. auto.
    + destruct Hh as [-> ->]. cbn [andb]. apply Hother.
      intros key. rewrite !Hins. destruct (String.eqb (dayKey i) key); reflexivity.
Qed.

Lemma lastDay_none key : forall daysData i,
  (forall j, (j < length daysData)%nat -> dayKey (i + j) <> key) ->
  lastDay key daysData i = None.
Proof.
  induction daysData as [| d daysData IH]; intros i Hno; [reflexivity |].
  cbn [lastDay]. rewrite IH.
  - destruct (String.eqb (dayKey i) key) eqn:Ek; [| reflexivity].
    apply String.eqb_eq in Ek. exfalso. apply (Hno 0%nat); [simpl; lia |].
    rewrite Nat.add_0_r. exact Ek.
  - intros j Hj. replace (S i + j)%nat with (i + S j)%nat by lia.
    apply Hno. simpl. lia.
Qed.

Lemma lastDay_at : forall daysData i j dayData,
  nth_error daysData j = Some dayData ->
  (forall j', (j < j' < length daysData)%nat -> dayKey (i + j') <> dayKey (i + j)) ->
  lastDay (dayKey (i + j)) daysData i = Some dayData.
Proof.
  induction daysData as [| d daysData IH]; intros i j dayData Hj Hlater.
  - destruct j; discriminate.
  - cbn [lastDay]. destruct j as [| j].
    + injection Hj as ->. rewrite lastDay_none.
      * rewrite Nat.add_0_r, String.eqb_refl. reflexivity.
      * intros j' Hj'. replace (S i + j')%nat with (i + S j')%nat by lia.
        apply Hlater. simpl. lia.
    + replace (i + S j)%nat with (S i + j)%nat by lia.
      rewrite (IH (S i) j dayData Hj); [reflexivity |].
      intros j' Hj'. replace (S i + j')%nat with (i + S j')%nat by lia.
      replace (S i + j)%nat with (i + S j)%nat by lia.
      apply Hlater. simpl. lia.
Qed.

Lemma dayKey_past j : (7 <= j)%nat -> dayKey j = "undefined".
Proof. intros Hj. unfold dayKey. apply nth_overflow. simpl. lia. Qed.

Lemma dayKey_inj i j : (i < 7)%nat -> dayKey j = dayKey i -> j = i.
Proof.
  intros Hi Hk.
  destruct (Nat.lt_ge_cases j 7) as [Hj | Hj].
  - do 7 (destruct i as [| i]; [do 7 (destruct j as [| j]; [first [reflexivity | discriminate] |]); lia |]).
    lia.
  - rewrite (dayKey_past j Hj) in Hk.
    do 7 (destruct i as [| i]; [discriminate |]). lia.
Qed.

(** X13. [extractPopularTimes] returns the empty object exactly when the page
    data or its entry 84 is missing; otherwise it returns the output when the
    entry's first element is an array of days that are neither [null] nor
    [undefined] and whose hours, where they are an array, hold no [null] or
    [undefined]; and in every other case it throws a [TypeError]. *)
Theorem popular_times_fail_only_on_malformed_days (jsonData : json) :
  let popularTimesData := Js.idx jsonData 84 in
  let present := Js.truthy jsonData && Js.truthy popularTimesData in
  match extractPopularTimes jsonData with
  | inr None => present = false
  | inr (Some out) =>
      present = true
      /\ exists daysData,
           Js.idx popularTimesData 0 = JArray daysData
           /\ forallb wellFormedDay daysData = true
  | inl e =>
      present = true
      /\ (exists m, e = TypeError m)
      /\ forall daysData,
           Js.idx popularTimesData 0 = JArray daysData ->
           forallb wellFormedDay daysData = false
  end.
Proof.
  cbv zeta. unfold extractPopularTimes.
  destruct (Js.truthy jsonData); cbn [negb andb]; [| reflexivity].
  destruct (Js.truthy (Js.idx jsonData 84)); cbn [negb]; [| reflexivity].
  destruct (Js.idx (Js.idx jsonData 84) 0) as [| | b | m e | s | daysData | fields];
    try (cbn; split; [reflexivity | split; [eauto | intros ? [=]]]).
  pose proof (daysFrom_spec daysData 0 ∅) as Hd.
  destruct (daysFrom daysData 0 ∅) as [e | filled]; cbn [bind ret].
  - destruct Hd as [Hbad Htype]. split; [reflexivity | split; [exact Htype |]].
    intros ? [= <-]. exact Hbad.
  - destruct Hd as [Hok _]. split; [reflexivity |]. eauto.
Qed.

(** X14. The histogram that [extractPopularTimes] returns files the hours of
    each of the first seven days under the name of its position, Su to Sa,
    each hour as its pair of hour and occupancy; a key holds the hours of the
    last day filed under it; and when the data has more than seven days, the
    days past the seventh are filed under the key [undefined], where the last
    of them wins. *)
Theorem popular_times_are_filed_by_day
  (jsonData : json) (out : PopularTimesOutput) (daysData : list json) :
  extractPopularTimes jsonData = inr (Some out) ->
  Js.idx (Js.idx jsonData 84) 0 = JArray daysData ->
  (forall i dayData name,
     nth_error daysData i = Some dayData -> nth_error DAYS i = Some name ->
     popularTimesHistogram out !! name = Some (hoursOutput dayData))
  /\ (forall key, popularTimesHistogram out !! key = hoursOutput <$> lastDay key daysData 0)
  /\ ((7 < length daysData)%nat ->
      popularTimesHistogram out !! "undefined" = Some (hoursOutput (List.last daysData JNull))).
Proof.
  unfold extractPopularTimes.
  destruct (negb (Js.truthy jsonData)); [discriminate |].
  destruct (negb (Js.truthy (Js.idx jsonData 84))); [discriminate |].
  intros Hout Hdays. rewrite Hdays in Hout.
  pose proof (daysFrom_spec daysData 0 ∅) as Hd.
  destruct (daysFrom daysData 0 ∅) as [e | filled]; [discriminate |].
  injection Hout as <-. cbn [popularTimesHistogram]. destruct Hd as [_ Hlook].
  assert (Hkey : forall key, filled !! key = hoursOutput <$> lastDay key daysData 0).
  { intros key. rewrite Hlook. destruct (lastDay key daysData 0); [reflexivity |].
    apply lookup_empty. }
  split; [| split; [exact Hkey |]].
  - intros i dayData name Hi Hname.
    assert (Hlt : (i < 7)%nat).
    { change 7%nat with (length DAYS). apply nth_error_Some. rewrite Hname. discriminate. }
    assert (Hk : dayKey i = name).
    { unfold dayKey. apply nth_error_nth. exact Hname. }
    rewrite Hkey, <- Hk.
    pose proof (lastDay_at daysData 0 i dayData Hi) as Hat. cbn [Nat.add] in Hat.
    rewrite Hat; [reflexivity |].
    intros j' Hj' Heq. apply dayKey_inj in Heq; [lia | exact Hlt].
  - intros Hlen. rewrite Hkey.
    assert (Hlast : nth_error daysData (length daysData - 1) = Some (List.last daysData JNull)).
    { clear -Hlen. destruct daysData as [| d l] using rev_ind; [simpl in Hlen; lia |].
      rewrite last_last, length_app. simpl.
      replace (length l + 1 - 1)%nat with (length l) by lia.
      rewrite nth_error_app2 by lia. rewrite Nat.sub_diag. reflexivity. }
    pose proof (lastDay_at daysData 0 (length daysData - 1) _ Hlast) as Hat.
    cbn [Nat.add] in Hat. rewrite (dayKey_past (length daysData - 1)) in Hat by lia.
    rewrite Hat; [reflexivity |]. intros j' Hj'. lia.
Qed.

Lemma wifiEntries_spec wifiOptions : forall flags,
  wifiEntries wifiOptions = inr flags ->
  map (fun f => JString (fst f)) flags = map (fun w => Js.optGet w 2) wifiOptions
  /\ Forall (fun f => snd f = true) flags.
Proof.
  induction wifiOptions as [| w wifiOptions IH]; intros flags.
  - intros [= <-]. split; [reflexivity | constructor].
  - cbn [wifiEntries]. destruct (Js.optGet w 2) eqn:Ew; try discriminate.
    destruct (wifiEntries wifiOptions) as [e | l]; [discriminate |].
    intros [= <-]. destruct (IH l eq_refl) as [Hn Ht].
    cbn [map fst]. rewrite Hn, Ew. split; [reflexivity |].
    constructor; [reflexivity | exact Ht].
Qed.

Lemma optionEntries_plain opt flags :
  optionEntries opt = inr flags -> isWifiOption opt = false ->
  exists name value, Js.optGet opt 1 = JString name /\ flags = [(name, value)].
Proof.
  unfold optionEntries, isWifiOption.
  destruct (Js.optGet opt 1) as [| | b | m e | name | items | fields]; try discriminate.
  destruct (Js.optGet (Js.optGet (Js.optGet opt 2) 2) 0) as [| | b | m e | s | items | fields];
    cbn [isNumber negb andb];
    try (intros [= <-] _; eauto);
    (destruct (isTheString (Js.optGet opt 0) creditCardTypes); cbn [negb andb];
     [ destruct (Js.optGet (Js.optGet (Js.optGet (Js.optGet (Js.optGet opt 2) 4) 1) 0) 0);
       try discriminate; intros [= <-] _; eauto
     | destruct (isTheString (Js.optGet opt 0) wifi); [intros _ [=] | discriminate] ]).
Qed.

(** X15. For the options of a section none of which is treated as a list of
    Wi-Fi entries, [flatMap] yields one flag per option, in the order of the
    options, named by the string at index 1 of the option. *)
Theorem options_give_one_flag_each (options : list json) (flags : list Flag) :
  flatMapOptions options = inr flags ->
  Forall (fun opt => isWifiOption opt = false) options ->
  map (fun f => JString (fst f)) flags = map (fun opt => Js.optGet opt 1) options.
Proof.
  revert flags. induction options as [| opt options IH]; intros flags.
  - intros [= <-] _. reflexivity.
  - cbn [flatMapOptions]. intros Hf Hall. inversion Hall as [| ? ? Hopt Hrest]; subst.
    destruct (optionEntries opt) as [e | l] eqn:Eo; [discriminate |].
    destruct (flatMapOptions options) as [e | l'] eqn:Er; [discriminate |].
    injection Hf as <-.
    destruct (optionEntries_plain opt l Eo Hopt) as [name [value [Hname ->]]].
    cbn [app map fst]. rewrite Hname, (IH l' eq_refl Hrest). reflexivity.
Qed.

Section WithCoercions.
Context `{Coercions}.

Lemma amenitiesOf_length options : forall flags,
  amenitiesOf options = inr flags -> length flags = length options.
Proof.
  induction options as [| opt options IH]; intros flags.
  - intros [= <-]. reflexivity.
  - cbn [amenitiesOf]. destruct (Js.get opt 2) as [e | k]; [discriminate |].
    cbn [bind]. destruct (toPropertyKey k) as [e | name]; [discriminate |].
    cbn [bind]. destruct (looseEqualsOne (Js.idx opt 3)) as [e | value]; [discriminate |].
    cbn [bind]. destruct (amenitiesOf options) as [e | l]; [discriminate |].
    intros [= <-]. cbn [length]. rewrite (IH l eq_refl). reflexivity.
Qed.

Lemma hotel_shape jsonData hotel :
  extractHotelAmenitiesFromJson jsonData = inr (Some hotel) ->
  exists options flags,
    Js.idx (Js.idx jsonData 64) 2 = JArray options
    /\ hotel = {[ "Amenities" := flags ]}
    /\ length flags = length options.
Proof.
  unfold extractHotelAmenitiesFromJson.
  destruct (negb (Js.truthy _)); [discriminate |].
  destruct (negb (Js.truthy _) || negb (isNumber _)); [discriminate |].
  destruct (Js.idx (Js.idx jsonData 64) 2) as [| | b | m e | s | options | fields];
    try discriminate.
  destruct (amenitiesOf options) as [e | flags] eqn:Ea; [discriminate |].
  intros [= <-]. exists options, flags.
  split; [reflexivity | split; [reflexivity |]]. apply amenitiesOf_length, Ea.
Qed.

(** X16. [extractHotelAmenitiesFromJson] returns [undefined] exactly when the
    first hotel option is missing or falsy; when it returns an object, the
    object has the one property [Amenities], with one flag per element of the
    array of options; otherwise it throws. *)
Theorem hotel_amenities_one_flag_per_option (jsonData : json) :
  let first := Js.optGet (Js.optGet (Js.optGet jsonData 64) 2) 0 in
  match extractHotelAmenitiesFromJson jsonData with
  | inr None => Js.truthy first = false
  | inr (Some info) =>
      Js.truthy first = true
      /\ exists options flags,
           Js.idx (Js.idx jsonData 64) 2 = JArray options
           /\ info = {[ "Amenities" := flags ]}
           /\ length flags = length options
  | inl _ => Js.truthy first = true
  end.
Proof.
  cbv zeta. unfold extractHotelAmenitiesFromJson.
  destruct (Js.truthy (Js.optGet (Js.optGet (Js.optGet jsonData 64) 2) 0));
    cbn [negb]; [| reflexivity].
  destruct (negb (Js.truthy _) || negb (isNumber _)); [reflexivity |].
  destruct (Js.idx (Js.idx jsonData 64) 2) as [| | b | m e | s | options | fields];
    try reflexivity.
  destruct (amenitiesOf options) as [e | flags] eqn:Ea; cbn [bind ret]; [reflexivity |].
  split; [reflexivity |]. exists options, flags.
  split; [reflexivity | split; [reflexivity |]]. apply amenitiesOf_length, Ea.
Qed.

(** X17. [extractAdditionalInfoFromJson] fails when either extraction fails,
    the basic one first, and returns what one extraction gives when the other
    gives [undefined]. When both give an object, the result has the sections
    of the basic info, with the hotel amenities appended to its section
    [Amenities], which is created when the basic info has none: both
    branches of the code amount to this. *)
Theorem additional_info_appends_the_hotel_amenities (jsonData : json) :
  match extractAdditionalInfoBasicFromJson jsonData,
        extractHotelAmenitiesFromJson jsonData with
  | inl e, _ => extractAdditionalInfoFromJson jsonData = inl e
  | inr _, inl e => extractAdditionalInfoFromJson jsonData = inl e
  | inr None, inr hotel => extractAdditionalInfoFromJson jsonData = inr hotel
  | inr (Some basic), inr None => extractAdditionalInfoFromJson jsonData = inr (Some basic)
  | inr (Some basic), inr (Some hotel) =>
      exists merged more,
        hotel = {[ "Amenities" := more ]}
        /\ extractAdditionalInfoFromJson jsonData = inr (Some merged)
        /\ merged !! "Amenities" = Some (default [] (basic !! "Amenities") ++ more)
        /\ forall key, key <> "Amenities" -> merged !! key = basic !! key
  end.
Proof.
  unfold extractAdditionalInfoFromJson.
  destruct (extractAdditionalInfoBasicFromJson jsonData) as [e | [basic |]];
    cbn [bind]; [reflexivity | |].
  - destruct (extractHotelAmenitiesFromJson jsonData) as [e | [hotel |]] eqn:Eh;
      cbn [bind]; [reflexivity | | reflexivity].
    destruct (hotel_shape _ _ Eh) as [options [more [_ [-> _]]]].
    destruct (basic !! "Amenities") as [amenities |] eqn:Eb; cbn [default].
    + exists (<["Amenities" := amenities ++ more]> basic), more.
      rewrite lookup_singleton_eq.
      split; [reflexivity | split; [reflexivity | split]].
      * apply lookup_insert_eq.
      * intros key Hk. apply lookup_insert_ne. congruence.
    + exists ({[ "Amenities" := more ]} ∪ basic), more.
      split; [reflexivity | split; [reflexivity | split]].
      * apply lookup_union_Some_l. apply lookup_singleton_eq.
      * intros key Hk. rewrite lookup_union_r; [reflexivity |].
        apply lookup_singleton_ne. congruence.
  - destruct (extractHotelAmenitiesFromJson jsonData) as [e | hotel]; reflexivity.
Qed.

(** X18. [extractAdditionalInfo] returns the info of the page data whenever
    that yields an object, whatever the page shows, and a failure of the
    page data never fails the function: an exception that escapes is that of
    [page.$], that of [navigateBack] after the button was found, or that of
    one of the two calls of [page.$$eval] when no button was found, and each
    of these does escape when the page data yield no object. An exception of
    the click or of the reading of the panel does not escape: with the button
    found and [navigateBack] returning, the result is the object read, or
    [undefined]. Without page data, without the button and without an
    available hotel amenity the result is [undefined], whatever disabled
    amenities the page lists. *)
Theorem additional_info_prefers_the_page_data (page : InfoPage) (jsonData : json) :
  (forall info,
     extractAdditionalInfoFromJson jsonData = inr (Some info) ->
     extractAdditionalInfo page jsonData = inr (Some info))
  /\ (forall e,
        extractAdditionalInfo page jsonData = inl e ->
        expandButton page = inl e
        \/ (expandButton page = inr true /\ navigateBack page = inl e)
        \/ (expandButton page = inr false /\ hotel_avail_amenities page = inl e)
        \/ (expandButton page = inr false
            /\ (exists avail, hotel_avail_amenities page = inr avail)
            /\ hotel_disabled_amenities page = inl e))
  /\ ((forall info, extractAdditionalInfoFromJson jsonData <> inr (Some info)) ->
      (forall e, expandButton page = inl e -> extractAdditionalInfo page jsonData = inl e)
      /\ (expandButton page = inr true ->
          (forall e, navigateBack page = inl e -> extractAdditionalInfo page jsonData = inl e)
          /\ (forall u, navigateBack page = inr u ->
                extractAdditionalInfo page jsonData
                = inr (match expandedInfo page with
                       | inr info => Some info
                       | inl _ => None
                       end)))
      /\ (expandButton page = inr false ->
          (forall e, hotel_avail_amenities page = inl e ->
             extractAdditionalInfo page jsonData = inl e)
          /\ (forall avail e,
                hotel_avail_amenities page = inr avail ->
                hotel_disabled_amenities page = inl e ->
                extractAdditionalInfo page jsonData = inl e)
          /\ (forall disabled,
                hotel_avail_amenities page = inr [] ->
                hotel_disabled_amenities page = inr disabled ->
                extractAdditionalInfo page jsonData = inr None))).
Proof.
  unfold extractAdditionalInfo. split; [| split].
  - intros info ->. reflexivity.
  - intros e.
    destruct (extractAdditionalInfoFromJson jsonData) as [e1 | [info |]];
      try discriminate;
      (destruct (expandButton page) as [e2 | [|]]; cbn [bind];
       [intros [= <-]; auto
       | destruct (navigateBack page) as [e3 | []]; cbn [bind];
         [intros [= <-]; auto | discriminate]
       | destruct (hotel_avail_amenities page) as [e3 | avail]; cbn [bind];
         [intros [= <-]; auto |];
         destruct (hotel_disabled_amenities page) as [e4 | disabled]; cbn [bind];
         [intros [= <-]; right; right; right; eauto
         | destruct (0 <? _)%nat; discriminate]]).
  - intros Hno.
    assert (Hnone : match extractAdditionalInfoFromJson jsonData with
                    | inr r => r
                    | inl _ => None
                    end = None).
    { destruct (extractAdditionalInfoFromJson jsonData) as [e1 | [info |]];
        try reflexivity.
      exfalso. apply (Hno info). reflexivity. }
    rewrite Hnone. split; [| split].
    + intros e ->. reflexivity.
    + intros ->. cbn [bind]. split.
      * intros e ->. reflexivity.
      * intros [] ->. reflexivity.
    + intros ->. cbn [bind]. split; [| split].
      * intros e ->. reflexivity.
      * intros avail e -> ->. reflexivity.
      * intros disabled -> ->. reflexivity.
Qed.

End WithCoercions.

End DetailsFacts.

(** ** Waiting for the outcome of a search *)

Module WaitFacts.
Import Wait.

Lemma waiting_ends start : forall probes previous,
  clockAdvances previous probes ->
  probes <> [] ->
  previous + CHECK_LOAD_OUTCOMES_EVERY_MS * (Z.of_nat (length probes) - 1)
  > start + SEARCH_WAIT_TIME_MS ->
  exists outcome, waitForSearchResults start probes = Some outcome.
Proof.
  unfold CHECK_LOAD_OUTCOMES_EVERY_MS, SEARCH_WAIT_TIME_MS.
  induction probes as [| p probes IH]; intros previous Hclock Hne Hlen; [contradiction |].
  cbn [waitForSearchResults]. destruct Hclock as [Hnow Hrest].
  unfold SEARCH_WAIT_TIME_MS.
  destruct (30000 <? now p - start) eqn:Elate; [eauto |].
  destruct (isBadQuery p); [eauto |].
  destruct (0 <? hasNoResults p)%nat; [eauto |].
  destruct (isPlaceDetail p); [eauto |].
  destruct (existsb _ searchResultSelectors); [eauto |].
  apply Z.ltb_ge in Elate.
  apply (IH (now p + CHECK_LOAD_OUTCOMES_EVERY_MS) Hrest).
  - destruct probes; [| discriminate]. cbn [length] in Hlen. lia.
  - unfold CHECK_LOAD_OUTCOMES_EVERY_MS. cbn [length] in Hlen. lia.
Qed.

(** X19. The wait for the outcome of a search ends: when the clock of the
    turns advances by the polling delay at least, the loop returns an outcome
    within sixty-two turns, the last of which is past the time limit. *)
Theorem waiting_ends_within_sixty_two_probes (start : Z) (probes : list Probe) :
  clockAdvances start probes ->
  (62 <= length probes)%nat ->
  exists outcome, waitForSearchResults start probes = Some outcome.
Proof.
  intros Hclock Hlen. apply (waiting_ends start probes start Hclock).
  - destruct probes; [simpl in Hlen; lia | discriminate].
  - unfold CHECK_LOAD_OUTCOMES_EVERY_MS, SEARCH_WAIT_TIME_MS. lia.
Qed.

(** X20. The outcome returned is that of the first turn that decides, all
    turns before it being in time and showing nothing, and within that turn
    the outcomes are tried in a fixed order: the time limit is tested first,
    so that a turn that begins after it gives no outcome whatever the page
    shows; then the bad query, the no-results message, the title of a place,
    and the result selectors, each only when those before it are absent. *)
Theorem search_outcomes_are_prioritised
  (start : Z) (probes : list Probe) (outcome : SearchResultOutcome) :
  waitForSearchResults start probes = Some outcome ->
  exists before p after,
    probes = before ++ p :: after
    /\ forallb (undecided start) before = true
    /\ match outcome with
       | NoOutcomeLoaded => now p - start > SEARCH_WAIT_TIME_MS
       | IsBadQuery => now p - start <= SEARCH_WAIT_TIME_MS /\ isBadQuery p = true
       | HasNoResults =>
           now p - start <= SEARCH_WAIT_TIME_MS /\ isBadQuery p = false
           /\ (0 < hasNoResults p)%nat
       | IsPlaceDetail =>
           now p - start <= SEARCH_WAIT_TIME_MS /\ isBadQuery p = false
           /\ hasNoResults p = 0%nat /\ isPlaceDetail p = true
       | HasResults =>
           now p - start <= SEARCH_WAIT_TIME_MS /\ isBadQuery p = false
           /\ hasNoResults p = 0%nat /\ isPlaceDetail p = false
           /\ exists selector, (0 < hasSearchResults p selector)%nat
       end.
Proof.
  induction probes as [| p probes IH]; [discriminate |].
  cbn [waitForSearchResults].
  destruct (SEARCH_WAIT_TIME_MS <? now p - start) eqn:Elate.
  { intros [= <-]. exists [], p, probes. apply Z.ltb_lt in Elate.
    split; [reflexivity | split; [reflexivity | lia]]. }
  apply Z.ltb_ge in Elate.
  destruct (isBadQuery p) eqn:Ebad.
  { intros [= <-]. exists [], p, probes. auto. }
  destruct (0 <? hasNoResults p)%nat eqn:Enone.
  { intros [= <-]. exists [], p, probes. apply Nat.ltb_lt in Enone. auto. }
  apply Nat.ltb_ge in Enone.
  destruct (isPlaceDetail p) eqn:Eplace.
  { intros [= <-]. exists [], p, probes. repeat split; auto; lia. }
  destruct (existsb _ searchResultSelectors) eqn:Eres.
  { intros [= <-]. exists [], p, probes.
    apply existsb_exists in Eres as [selector [_ Hs]]. apply Nat.ltb_lt in Hs.
    repeat split; eauto; lia. }
  intros Hrest. destruct (IH Hrest) as [before [q [after [-> [Hund Hout]]]]].
  exists (p :: before), q, after. split; [reflexivity |]. split; [| exact Hout].
  cbn [forallb]. rewrite Hund, andb_true_r. unfold undecided.
  rewrite Ebad, Eplace, Eres.
  assert (E1 : (SEARCH_WAIT_TIME_MS <? now p - start) = false) by (apply Z.ltb_ge; lia).
  assert (E2 : (0 <? hasNoResults p)%nat = false) by (apply Nat.ltb_ge; lia).
  rewrite E1, E2. reflexivity.
Qed.

End WaitFacts.

(** ** Reading places from the page *)

Module DomFacts.
Import Dom.

Lemma capture_not_empty p s id : capture p s = Some id -> id <> EmptyString.
Proof.
  unfold capture. destruct (takeWhile p s); [discriminate |].
  intros [= <-]. discriminate.
Qed.

Lemma matchPlaceIdParameter_not_empty s : forall id,
  matchPlaceIdParameter s = Some id -> id <> EmptyString.
Proof.
  induction s as [| c s IH]; intros id; cbn [matchPlaceIdParameter].
  - destruct (Text.startsWith _ _); [| discriminate].
    cbn [Text.drop]. discriminate.
  - destruct (if Text.startsWith (String c s) "place_id" then _ else None) as [found |] eqn:E.
    + intros [= <-]. destruct (Text.startsWith (String c s) "place_id"); [| discriminate].
      destruct (Text.drop 8 (String c s)) as [| separator rest]; [discriminate |].
      destruct (Ascii.eqb separator "=" || Ascii.eqb separator ":"); [| discriminate].
      eapply capture_not_empty; eassumption.
    + apply IH.
Qed.

Lemma matchLastMarker_not_empty s : forall id,
  matchLastMarker s = Some id -> id <> EmptyString.
Proof.
  induction s as [| c s IH]; intros id; cbn [matchLastMarker]; [discriminate |].
  destruct (if lineTerminator c then None else matchLastMarker s) as [found |] eqn:E.
  - intros [= <-]. destruct (lineTerminator c); [discriminate |]. apply IH, E.
  - destruct (Text.startsWith (String c s) "!1s"); [| discriminate].
    apply capture_not_empty.
Qed.

Lemma matchDataParameter_not_empty s : forall id,
  matchDataParameter s = Some id -> id <> EmptyString.
Proof.
  induction s as [| c s IH]; intros id; cbn [matchDataParameter].
  - destruct (Text.startsWith _ _); discriminate.
  - destruct (if Text.startsWith (String c s) "data=" then _ else None) as [found |] eqn:E.
    + intros [= <-]. destruct (Text.startsWith (String c s) "data="); [| discriminate].
      eapply matchLastMarker_not_empty; eassumption.
    + apply IH.
Qed.

Lemma matchPlacePath_not_empty s : forall id,
  matchPlacePath s = Some id -> id <> EmptyString.
Proof.
  induction s as [| c s IH]; intros id; cbn [matchPlacePath].
  - destruct (Text.startsWith _ _); [| discriminate].
    cbn. discriminate.
  - destruct (if Text.startsWith (String c s) "/maps/place/" then _ else None)
      as [found |] eqn:E.
    + intros [= <-]. destruct (Text.startsWith (String c s) "/maps/place/"); [| discriminate].
      cbv zeta in E. destruct (Text.is_empty _); [discriminate |].
      destruct (Text.drop _ _) as [| d after]; [discriminate |].
      destruct (Ascii.eqb d "/"); [| discriminate].
      eapply capture_not_empty; eassumption.
    + apply IH.
Qed.

Lemma placeIdOf_not_empty address id : placeIdOf address = Some id -> id <> EmptyString.
Proof.
  unfold placeIdOf.
  destruct (matchPlaceIdParameter address) eqn:E1.
  { intros [= <-]. eapply matchPlaceIdParameter_not_empty; eassumption. }
  destruct (matchDataParameter address) eqn:E2.
  { intros [= <-]. eapply matchDataParameter_not_empty; eassumption. }
  apply matchPlacePath_not_empty.
Qed.

Lemma placeOf_facts link d :
  placeOf link = Some d ->
  href d <> EmptyString /\ forall id, domPlaceId d = Some id -> id <> EmptyString.
Proof.
  unfold placeOf. destruct (orElse (hrefAttribute link) EmptyString) eqn:Ea; [discriminate |].
  cbn [Text.is_empty]. intros [= <-]. cbn [href domPlaceId]. split; [discriminate |].
  intros id. apply placeIdOf_not_empty.
Qed.

Lemma extracted_facts page :
  Forall (fun d => href d <> EmptyString
                   /\ forall id, domPlaceId d = Some id -> id <> EmptyString)
    (extractPlacesFromDOM page).
Proof.
  unfold extractPlacesFromDOM.
  induction (firstMatching page selectors) as [| link links IH]; [constructor |].
  cbn [omap list_omap]. destruct (placeOf link) as [d |] eqn:Ed; [| exact IH].
  constructor; [eapply placeOf_facts; eassumption | exact IH].
Qed.

(** X21. Every place that [extractPlacesFromDOM] returns has an address that
    is not empty, and a place id that is not empty when it has one; there are
    no more places than links of the first selector that matches, and none
    when no selector matches. *)
Theorem places_of_the_page_have_an_address_and_a_proper_id
  (page : LinkSelector -> list Link) :
  Forall (fun d => href d <> EmptyString
                   /\ forall id, domPlaceId d = Some id -> id <> EmptyString)
    (extractPlacesFromDOM page)
  /\ (length (extractPlacesFromDOM page) <= length (firstMatching page selectors))%nat
  /\ ((forall selector, page selector = []) -> extractPlacesFromDOM page = []).
Proof.
  split; [apply extracted_facts | split].
  - unfold extractPlacesFromDOM.
    induction (firstMatching page selectors) as [| link links IH]; [simpl; lia |].
    cbn [omap list_omap]. fold (omap placeOf links). destruct (placeOf link); cbn [length]; lia.
  - intros Hnone. unfold extractPlacesFromDOM, selectors. cbn [firstMatching].
    rewrite !Hnone. reflexivity.
Qed.

Section Fallback.
Context `{Runtime} `{Collaborators}.

(** X22. The request that the DOM fallback builds for a place read from the
    page has the place id as unique key when the address of the link holds
    one, and else the absolute address, which begins with [http]. *)
Theorem fallback_requests_are_keyed_by_id_or_address
  (page : LinkSelector -> list Link) (o : Options) (ps : PageStats.t) (url : string) :
  Forall (fun d =>
            Req.uniqueKey (domRequest o ps url d)
            = JString (match domPlaceId d with
                       | Some id => id
                       | None => domPlaceUrl d
                       end)
            /\ Text.startsWith (domPlaceUrl d) "http" = true)
    (extractPlacesFromDOM page).
Proof.
  eapply Forall_impl; [apply extracted_facts |].
  intros d [Hhref Hid]. split.
  - cbn [domRequest Req.uniqueKey]. unfold domUniqueKey.
    destruct (domPlaceId d) as [id |]; [| reflexivity].
    specialize (Hid id eq_refl). destruct id; [contradiction | reflexivity].
  - unfold domPlaceUrl. destruct (Text.startsWith (href d) "http") eqn:E; [exact E |].
    reflexivity.
Qed.

End Fallback.

Lemma takeWhile_all p s : allChars p s = true -> takeWhile p s = s.
Proof.
  induction s as [| c s IH]; [reflexivity |].
  cbn [allChars takeWhile]. destruct (p c); [| discriminate].
  intros Hs. rewrite (IH Hs). reflexivity.
Qed.

(** X23. The address that the response handler builds for a place id is
    read back by the patterns of [extractPlacesFromDOM]: for an id that is
    not empty and has neither ampersand nor slash, the id read from the
    address is the id. *)
Theorem place_id_address_is_read_back (id : string) :
  id <> EmptyString ->
  allChars idChar id = true ->
  placeIdOf (placeIdAddress id) = Some id.
Proof.
  intros Hne Hall. unfold placeIdOf, placeIdAddress.
  assert (Hm : matchPlaceIdParameter ("https://www.google.com/maps/place/?q=place_id:" +:+ id)
               = Some id).
  { cbv [append]. cbn [matchPlaceIdParameter Text.startsWith Ascii.eqb Bool.eqb Text.drop orb].
    unfold capture. rewrite (takeWhile_all _ _ Hall).
    destruct id; [contradiction | reflexivity]. }
  rewrite Hm. reflexivity.
Qed.

End DomFacts.

(** ** The further properties on the examples *)

Module DetailsExamples.
Import Details.

Lemma popular_times_witness :
  (forall i dayData name,
     nth_error SampleDetails.nineDays i = Some dayData -> nth_error DAYS i = Some name ->
     popularTimesHistogram SampleDetails.nineDaysOutput !! name = Some (hoursOutput dayData))
  /\ (forall key,
        popularTimesHistogram SampleDetails.nineDaysOutput !! key
        = hoursOutput <$> lastDay key SampleDetails.nineDays 0)
  /\ ((7 < length SampleDetails.nineDays)%nat ->
      popularTimesHistogram SampleDetails.nineDaysOutput !! "undefined"
      = Some (hoursOutput (List.last SampleDetails.nineDays JNull))).
Proof.
  assert (Hout : extractPopularTimes (SampleDetails.withPopularTimes SampleDetails.nineDays)
                 = inr (Some SampleDetails.nineDaysOutput)) by (vm_compute; reflexivity).
  assert (Hdays : Js.idx (Js.idx (SampleDetails.withPopularTimes SampleDetails.nineDays) 84) 0
                  = JArray SampleDetails.nineDays) by reflexivity.
  exact (DetailsFacts.popular_times_are_filed_by_day _ _ _ Hout Hdays).
Defined.

(** The sample of nine days: Sunday has two hours, Monday none, and the key
    [undefined] holds the hours of the ninth day. *)
Example nine_days_histogram :
  popularTimesLiveText SampleDetails.nineDaysOutput = JString "Busy"
  /\ popularTimesLivePercent SampleDetails.nineDaysOutput = JNull
  /\ popularTimesHistogram SampleDetails.nineDaysOutput !! "Su"
     = Some [ {| hour := SampleDetails.num 6; occupancyPercent := SampleDetails.num 0 |};
              {| hour := SampleDetails.num 7; occupancyPercent := SampleDetails.num 12 |} ]
  /\ popularTimesHistogram SampleDetails.nineDaysOutput !! "Mo" = Some []
  /\ popularTimesHistogram SampleDetails.nineDaysOutput !! "undefined"
     = Some [ {| hour := SampleDetails.num 2; occupancyPercent := SampleDetails.num 2 |} ].
Proof. vm_compute. repeat split; reflexivity. Qed.

(** Days that are not an array make the function throw. *)
Example popular_times_without_days_throw :
  extractPopularTimes (SampleDetails.at_ 84 (JArray [JNull; JNull]))
  = inl (TypeError "daysData.forEach is not a function").
Proof. reflexivity. Qed.

Lemma options_give_one_flag_each_witness :
  map (fun f => JString (fst f))
    [("Wheelchair accessible entrance", true); ("Wheelchair accessible seating", false)]
  = map (fun opt => Js.optGet opt 1) SampleDetails.accessibility.
Proof.
  apply (DetailsFacts.options_give_one_flag_each SampleDetails.accessibility).
  - vm_compute. reflexivity.
  - repeat constructor.
Defined.

Section WithCoercions.
Context `{Coercions}.

(** Page data with basic info and hotel amenities: the amenities of the hotel
    follow those of the basic info, the two entries of the Wi-Fi option
    among them. *)
Example basic_and_hotel_amenities :
  extractAdditionalInfoFromJson SampleDetails.basicAndHotel
  = inr (Some {[ "Amenities" :=
                   [ ("Wheelchair accessible entrance", true);
                     ("Wheelchair accessible seating", false);
                     ("Free Wi-Fi", true); ("Paid Wi-Fi", true);
                     ("Pool", true); ("Spa", false) ] ]}).
Proof. vm_compute. reflexivity. Qed.

(** Page data whose basic info is malformed: the extraction throws, and
    [extractAdditionalInfo] returns what the page shows. *)
Example malformed_page_data_falls_back_to_the_page :
  let jsonData := SampleDetails.at_ 100 (JArray [JNull; JArray [JArray [JNull; JNull]]]) in
  let page := {| expandButton := inr false; expandedInfo := inr ∅; navigateBack := inr tt;
                 hotel_avail_amenities := inr ["Pool"];
                 hotel_disabled_amenities := inr ["Spa"] |} in
  extractAdditionalInfoFromJson jsonData = inl (TypeError "wrong format")
  /\ extractAdditionalInfo page jsonData
     = inr (Some {[ "Amenities" := [("Pool", true); ("Spa", false)] ]}).
Proof. vm_compute. split; reflexivity. Qed.

(** Without page data: an exception of [page.$] escapes, and so does one of
    the second call of [page.$$eval] although no amenity is available; an
    exception of the click is caught, and the result is [undefined] once
    [navigateBack] has returned. *)
Example exceptions_of_the_page :
  let closed := Error "Target closed" in
  extractAdditionalInfo
    {| expandButton := inl closed; expandedInfo := inr ∅; navigateBack := inr tt;
       hotel_avail_amenities := inr []; hotel_disabled_amenities := inr [] |} JNull
  = inl closed
  /\ extractAdditionalInfo
       {| expandButton := inr false; expandedInfo := inr ∅; navigateBack := inr tt;
          hotel_avail_amenities := inr []; hotel_disabled_amenities := inl closed |} JNull
     = inl closed
  /\ extractAdditionalInfo
       {| expandButton := inr true; expandedInfo := inl closed; navigateBack := inr tt;
          hotel_avail_amenities := inr []; hotel_disabled_amenities := inr [] |} JNull
     = inr None.
Proof. vm_compute. repeat split; reflexivity. Qed.

End WithCoercions.

End DetailsExamples.

Module WaitExamples.
Import Wait.

Lemma waiting_ends_witness :
  exists outcome, waitForSearchResults 1000 SampleDetails.neverLoads = Some outcome.
Proof.
  apply (WaitFacts.waiting_ends_within_sixty_two_probes 1000 SampleDetails.neverLoads).
  - vm_compute. repeat split; discriminate.
  - vm_compute. reflexivity.
Defined.

(** A page that never loads gives no outcome. *)
Example page_that_never_loads :
  waitForSearchResults 1000 SampleDetails.neverLoads = Some NoOutcomeLoaded.
Proof. vm_compute. reflexivity. Qed.

Lemma search_outcomes_witness :
  exists before p after,
    SampleDetails.loadsOnThirdProbe = before ++ p :: after
    /\ forallb (undecided 1000) before = true
    /\ now p - 1000 <= SEARCH_WAIT_TIME_MS /\ isBadQuery p = false
    /\ hasNoResults p = 0%nat /\ isPlaceDetail p = false
    /\ exists selector, (0 < hasSearchResults p selector)%nat.
Proof.
  apply (WaitFacts.search_outcomes_are_prioritised 1000 SampleDetails.loadsOnThirdProbe
           HasResults).
  vm_compute. reflexivity.
Defined.

End WaitExamples.

Module DomExamples.
Import Dom.

Lemma place_id_address_witness :
  placeIdOf (placeIdAddress "ChIJN1t_tDeuEmsRUsoyG83frY4") = Some "ChIJN1t_tDeuEmsRUsoyG83frY4".
Proof.
  apply (DomFacts.place_id_address_is_read_back "ChIJN1t_tDeuEmsRUsoyG83frY4").
  - discriminate.
  - vm_compute. reflexivity.
Defined.

(** The sample page: the link without an address is left out; the id of the
    first place is read from its data parameter, the second has none; the
    titles are the label, trimmed, and the heading of the article. *)
Example places_of_the_sample_page :
  extractPlacesFromDOM SampleDetails.page
  = [ {| domPlaceId := Some "0x47:0x99";
         href := "https://www.google.com/maps/place/Cafe+X/data=!4m7!3m6!1s0x47:0x99!8m2!3d50";
         title := "Cafe X" |};
      {| domPlaceId := None; href := "/maps/place/Cafe+Y"; title := "Cafe Y" |} ].
Proof. vm_compute. reflexivity. Qed.

End DomExamples.

(** ** The ranks of the DOM fallback *)

Section FallbackFacts.
Context `{Runtime} `{Collaborators}.

(** X25. The DOM fallback appends to the effect log nothing but the requests
    it submits, at most one per place of the page, and ranks them by the
    total of enqueued places: each request has the rank after the total at
    the time, and the total grows only when the queue takes the request as
    new, so that a request for a place already present shares its rank with
    the next request. *)
Theorem fallback_ranks_continue_the_enqueued_total
  (o : Options) (url : string) (places : list DomPlace) (ps : PageStats.t) (s : Shared) :
  let st' := enqueueDomPlaces o url places (ps, s) in
  exists new,
    effects (snd st') = effects s ++ new
    /\ (length new <= length places)%nat
    /\ length (answersOf new) = length new
    /\ ranksFrom (PageStats.totalEnqueued ps) (answersOf new).
Proof.
  cbv zeta. revert ps s. induction places as [| d places IH]; intros ps s.
  - exists []. cbn. rewrite app_nil_r. auto.
  - cbn [enqueueDomPlaces].
    destruct (Tracker.setEnqueued (searchKeyOf o) (tracker s)) as [tr reserved].
    destruct reserved; cbn [negb].
    2:{ exists []. cbn. rewrite app_nil_r. repeat split; lia. }
    destruct (addRequest _ _) as [q present] eqn:Eadd.
    match goal with
    | |- context [enqueueDomPlaces o url places (?ps1, ?s1)] =>
        destruct (IH ps1 s1) as [new [Heff [Hlen [Hall Hranks]]]]
    end.
    exists (AddRequest (domRequest o ps url d) present :: new).
    rewrite Heff. cbn [emit effects withQueue withTracker]. rewrite <- app_assoc.
    split; [reflexivity |]. cbn [length answersOf ranksFrom].
    split; [lia |]. split; [lia |]. split; [reflexivity |].
    destruct present; cbn [negb] in Hranks; exact Hranks.
Qed.

End FallbackFacts.

Module FallbackExamples.
#[local] Existing Instance Simple.collaborators.

(** Three links of the page, the first two to the same place: the second
    request is answered as present and the third shares its rank. *)
Example ranks_of_the_fallback :
  let link id := {| domPlaceId := Some id; href := "/maps/place/x"; title := "x" |} in
  let st' := enqueueDomPlaces Simple.options "https://www.google.com/maps/search/cafe"
               [link "a"; link "a"; link "b"] (PageStats.initial, Simple.emptyWorld) in
  map (fun a => (Req.uniqueKey (fst a), Req.rank (Req.userData (fst a)), snd a))
    (answersOf (effects (snd st')))
  = [ (JString "a", Some 1, false); (JString "a", Some 2, true);
      (JString "b", Some 2, false) ]
  /\ PageStats.totalEnqueued (fst st') = 2.
Proof. vm_compute. split; reflexivity. Qed.

End FallbackExamples.
